(** * Mirage synthesizer engine: a shallow embedding of the realtime core

    The development follows the C++ sources of the audio engine and of its
    Node binding, and the note utilities of the front end.

    Part I, the embedding:
    - [SizeT], [F32], [F64]: [std::size_t] with its wrap-around, IEEE-754
      binary32 arithmetic ([float]) with the <cmath> helpers the engine calls
      and the conversions between [float], [int] and [std::size_t], and
      binary64 arithmetic ([double] and the JavaScript number);
    - [RingBuffer]: [StereoSampleRingBuffer] (Core/StereoSampleRingBuffer.h);
    - [Delay]: [DelayEffect] (Effects/DelayEffect.cpp);
    - [Cmath], [LowPass]: [LowPassEffect] (Effects/LowPassEffect.cpp) over
      [std::sin], [std::cos], [std::pow] and [std::tanh];
    - [Octave]: [OctaveEffect] (Effects/OctaveEffect.cpp);
    - [Host], [Engine]: [AudioSystem] (Core/audioSystem.cpp) over the
      envelope, the waveform generators and the random generator;
    - [AudioDevice]: the audio callback (Core/audioDevice.cpp);
    - [Midi]: [AudioSystemAdapter] (Adapters/AudioSystemAdapter.cpp);
    - [Observer]: [Subject] (utilities/subject.cpp);
    - [Wrapper]: the note and waveform methods of [AudioSystemWrapper]
      (App/native/AudioSystemWrapper.cpp);
    - [NoteCalculator]: App/src/utils/NoteCalculator.ts.

    Part II states and proves the properties, one module per component. *)

From Stdlib Require Import ZArith Lia Bool.
From Stdlib Require Import Floats.SpecFloat.
From stdpp Require Import strings functions.
From stdpp Require Import base tactics option list.

#[local] Open Scope Z_scope.

(** * Part I: the embedding *)

(** ** [std::size_t]: 64-bit unsigned integers, as [Z] with the wrap-around
    written out. *)
Module SizeT.

Definition modulus : Z := 2 ^ 64.

Definition wrap (z : Z) : Z := z mod modulus.

Definition add (a b : Z) : Z := wrap (a + b).
Definition sub (a b : Z) : Z := wrap (a - b).
Definition mul (a b : Z) : Z := wrap (a * b).

(** [std::max<std::size_t>] and [std::min<std::size_t>]. *)
Definition max (a b : Z) : Z := if a <? b then b else a.
Definition min (a b : Z) : Z := if b <? a then b else a.

End SizeT.

(** ** [float]: IEEE-754 binary32, round to nearest even *)
Module F32.

Definition float : Type := spec_float.

Definition prec : Z := 24.
Definition emax : Z := 128.

Definition add : float -> float -> float := SFadd prec emax.
Definition sub : float -> float -> float := SFsub prec emax.
Definition mul : float -> float -> float := SFmul prec emax.
Definition div : float -> float -> float := SFdiv prec emax.
Definition opp : float -> float := SFopp.
Definition abs : float -> float := SFabs.

Definition ltb : float -> float -> bool := SFltb.
Definition leb : float -> float -> bool := SFleb.
Definition gtb (x y : float) : bool := SFltb y x.
Definition geb (x y : float) : bool := SFleb y x.

(** [std::isnan]. *)
Definition isnan (x : float) : bool :=
  match x with S754_nan => true | _ => false end.

Definition nan : float := S754_nan.
Definition zero : float := S754_zero false.

(** [static_cast<float>(n)] for an integer [n]. *)
Definition of_int (n : Z) : float := binary_normalize prec emax n 0 false.

(** The literal [n/d] written in decimal with suffix [f] (such as [0.45f] for
    [dec 45 100]): both [n] and [d] are below [2^24], so the quotient rounded
    once is the literal's value. *)
Definition dec (n d : Z) : float := div (of_int n) (of_int d).

(** [static_cast<float>(M_PI)]: the double nearest to pi is
    [884279719003555 * 2^-48]. *)
Definition pi : float := binary_normalize prec emax 884279719003555 (-48) false.

(** [std::max] and [std::min] on floats, as the library defines them. *)
Definition max (a b : float) : float := if ltb a b then b else a.
Definition min (a b : float) : float := if ltb b a then b else a.

(** [std::ceil]. *)
Definition ceil (x : float) : float :=
  match x with
  | S754_finite s m (Zneg k) =>
      let d := Z.pow_pos 2 k in
      let q := Z.pos m / d in
      let r := Z.pos m mod d in
      let n := if s then q else if 0 <? r then q + 1 else q in
      binary_normalize prec emax (cond_Zopp s n) 0 s
  | _ => x
  end.

(** [std::round]: to the nearest integer, halfway cases away from zero. *)
Definition round (x : float) : float :=
  match x with
  | S754_finite s m (Zneg k) =>
      let d := Z.pow_pos 2 k in
      let q := Z.pos m / d in
      let r := Z.pos m mod d in
      let n := if d <=? 2 * r then q + 1 else q in
      binary_normalize prec emax (cond_Zopp s n) 0 s
  | _ => x
  end.

(** [static_cast<std::size_t>(x)]: the value truncated toward zero.  C++ leaves
    the conversion undefined for NaN, the infinities and values outside
    [0, 2^64); the model wraps the truncated value there and gives [0] for NaN
    and the infinities. *)
Definition to_size_t (x : float) : Z :=
  match x with
  | S754_finite s m e =>
      let t := match e with
               | Zneg k => Z.pos m / Z.pow_pos 2 k
               | _ => Z.pos m * 2 ^ e
               end in
      SizeT.wrap (cond_Zopp s t)
  | _ => 0
  end.

(** Neither NaN nor an infinity. *)
Definition is_finite (x : float) : bool :=
  match x with S754_zero _ | S754_finite _ _ _ => true | _ => false end.

(** [std::floor]. *)
Definition floor (x : float) : float :=
  match x with
  | S754_finite s m (Zneg k) =>
      let d := Z.pow_pos 2 k in
      let q := Z.pos m / d in
      let r := Z.pos m mod d in
      let n := if s then if 0 <? r then q + 1 else q else q in
      binary_normalize prec emax (cond_Zopp s n) 0 s
  | _ => x
  end.

Declare Scope f32_scope.
Delimit Scope f32_scope with f32.
Bind Scope f32_scope with float.
Infix "+" := add : f32_scope.
Infix "-" := sub : f32_scope.
Infix "*" := mul : f32_scope.
Infix "/" := div : f32_scope.
Notation "- x" := (opp x) : f32_scope.
Infix "<?" := ltb : f32_scope.
Infix "<=?" := leb : f32_scope.
Infix ">?" := gtb : f32_scope.
Infix ">=?" := geb : f32_scope.

End F32.

(** ** [double] and the JavaScript number: IEEE-754 binary64 *)
Module F64.

Definition double : Type := spec_float.

Definition prec : Z := 53.
Definition emax : Z := 1024.

Definition add : double -> double -> double := SFadd prec emax.
Definition sub : double -> double -> double := SFsub prec emax.
Definition mul : double -> double -> double := SFmul prec emax.
Definition div : double -> double -> double := SFdiv prec emax.
Definition leb : double -> double -> bool := SFleb.

Definition zero : double := S754_zero false.

#[global] Instance double_eq_dec : EqDecision double.
Proof. solve_decision. Defined.

(** The number an integer literal denotes. *)
Definition of_int (n : Z) : double := binary_normalize prec emax n 0 false.

(** [Math.floor]. *)
Definition floor (x : double) : double :=
  match x with
  | S754_finite s m (Zneg k) =>
      let d := Z.pow_pos 2 k in
      let q := Z.pos m / d in
      let r := Z.pos m mod d in
      let n := if s then if 0 <? r then q + 1 else q else q in
      binary_normalize prec emax (cond_Zopp s n) 0 s
  | _ => x
  end.

(** The JavaScript operator [%]: the remainder of the truncated division,
    which is exact and has the sign of the dividend. *)
Definition rem (x y : double) : double :=
  match x, y with
  | S754_nan, _ | _, S754_nan => S754_nan
  | S754_infinity _, _ => S754_nan
  | _, S754_zero _ => S754_nan
  | _, S754_infinity _ => x
  | S754_zero _, _ => x
  | S754_finite sx mx ex, S754_finite _ my ey =>
      let e := Z.min ex ey in
      let r := Z.rem (Z.pos mx * 2 ^ (ex - e)) (Z.pos my * 2 ^ (ey - e)) in
      binary_normalize prec emax (cond_Zopp sx r) e sx
  end.

(** The integer a number denotes, when it denotes one. *)
Definition to_integer (x : double) : option Z :=
  match x with
  | S754_zero _ => Some 0
  | S754_finite s m (Zneg k) =>
      if Z.pos m mod Z.pow_pos 2 k =? 0
      then Some (cond_Zopp s (Z.pos m / Z.pow_pos 2 k)) else None
  | S754_finite s m e => Some (cond_Zopp s (Z.pos m * 2 ^ e))
  | _ => None
  end.

(** [static_cast<float>(x)]: rounded to the nearest binary32 value. *)
Definition to_f32 (x : double) : F32.float :=
  match x with
  | S754_finite s m e => binary_normalize F32.prec F32.emax (cond_Zopp s (Z.pos m)) e s
  | _ => x
  end.

(** [static_cast<std::size_t>(x)]: the value truncated toward zero, when that
    is a [size_t].  C++ leaves the conversion undefined for every other
    argument (NaN, the infinities, a truncated value below 0 or of 2^64 and
    above): the result is [None] there. *)
Definition to_size_t (x : double) : option Z :=
  match x with
  | S754_zero _ => Some 0
  | S754_finite s m e =>
      let t := match e with
               | Zneg k => Z.pos m / Z.pow_pos 2 k
               | _ => Z.pos m * 2 ^ e
               end in
      let t := cond_Zopp s t in
      if (0 <=? t) && (t <? SizeT.modulus) then Some t else None
  | _ => None
  end.

End F64.

#[global] Instance float_inhabited : Inhabited F32.float := populate F32.zero.

(** ** [StereoSampleRingBuffer]: the tap that keeps the most recent frames

    One producer pushes, one consumer copies; the embedding is the sequential
    behaviour of the two member functions (the atomics become plain fields). *)
Module RingBuffer.
Import F32.

Record StereoSampleRingBuffer : Type := {
  m_capacityFrames : Z;
  m_buffer : list float;
  m_writeIndex : Z;
  m_totalFramesWritten : Z
}.

(** The constructor: at least one frame, [2 * capacity] samples, all zero. *)
Definition construct (capacityFrames : Z) : StereoSampleRingBuffer :=
  let cap := SizeT.max 1 capacityFrames in
  {| m_capacityFrames := cap;
     m_buffer := replicate (Z.to_nat (SizeT.mul cap 2)) zero;
     m_writeIndex := 0;
     m_totalFramesWritten := 0 |}.

Definition capacityFrames (rb : StereoSampleRingBuffer) : Z := m_capacityFrames rb.

Definition push (left right : float) (rb : StereoSampleRingBuffer)
  : StereoSampleRingBuffer :=
  let frameIndex := m_writeIndex rb in
  let sampleIndex := SizeT.mul frameIndex 2 in
  let buffer := <[Z.to_nat sampleIndex := left]> (m_buffer rb) in
  let buffer := <[Z.to_nat (SizeT.add sampleIndex 1) := right]> buffer in
  let frameIndex := SizeT.add frameIndex 1 in
  let frameIndex := if m_capacityFrames rb <=? frameIndex then 0 else frameIndex in
  {| m_capacityFrames := m_capacityFrames rb;
     m_buffer := buffer;
     m_writeIndex := frameIndex;
     m_totalFramesWritten := SizeT.add (m_totalFramesWritten rb) 1 |}.

Definition availableFrames (rb : StereoSampleRingBuffer) : Z :=
  let written := m_totalFramesWritten rb in
  SizeT.min written (m_capacityFrames rb).

(** The copy loop [for (i = 0; i < framesToCopy; ++i)]: [n] iterations are
    left and the loop variable is [i]. *)
Fixpoint copy_loop (rb : StereoSampleRingBuffer) (startFrame : Z)
  (n : nat) (i : Z) (dest : list float) : list float :=
  match n with
  | O => dest
  | S n' =>
      let frameIndex := SizeT.add startFrame i in
      let frameIndex :=
        if m_capacityFrames rb <=? frameIndex
        then SizeT.sub frameIndex (m_capacityFrames rb) else frameIndex in
      let sampleIndex := SizeT.mul frameIndex 2 in
      let dest := <[Z.to_nat (SizeT.mul i 2) := m_buffer rb !!! Z.to_nat sampleIndex]> dest in
      let dest :=
        <[Z.to_nat (SizeT.add (SizeT.mul i 2) 1) :=
            m_buffer rb !!! Z.to_nat (SizeT.add sampleIndex 1)]> dest in
      copy_loop rb startFrame n' (SizeT.add i 1) dest
  end.

(** [dest] is [None] for a null pointer.  The result is the number of frames
    copied and the destination after the call. *)
Definition copyLatestInterleaved (dest : option (list float)) (maxFrames : Z)
  (rb : StereoSampleRingBuffer) : Z * option (list float) :=
  match dest with
  | None => (0, dest)
  | Some d =>
      if maxFrames =? 0 then (0, dest) else
      let available := availableFrames rb in
      let framesToCopy := SizeT.min maxFrames available in
      if framesToCopy =? 0 then (0, dest) else
      let writeIndex := m_writeIndex rb in
      let startFrame :=
        SizeT.sub (SizeT.add writeIndex (m_capacityFrames rb)) framesToCopy in
      let startFrame :=
        if m_capacityFrames rb <=? startFrame
        then startFrame mod m_capacityFrames rb else startFrame in
      (framesToCopy, Some (copy_loop rb startFrame (Z.to_nat framesToCopy) 0 d))
  end.

(** A run of the producer: the frames of [frames] pushed in order. *)
Definition push_all (frames : list (float * float)) (rb : StereoSampleRingBuffer)
  : StereoSampleRingBuffer :=
  foldl (fun rb f => push f.1 f.2 rb) rb frames.

(** The interleaved layout [L0 R0 L1 R1 ...] of a list of frames. *)
Fixpoint interleave (frames : list (float * float)) : list float :=
  match frames with
  | [] => []
  | f :: rest => f.1 :: f.2 :: interleave rest
  end.

(** Specification vocabulary: [rb] is what [frames], pushed in order on a fresh
    buffer of capacity [C], leave behind.  Every frame among the last [C] sits
    at the slot given by its position modulo [C]. *)
Definition holds_latest (C : Z) (frames : list (float * float))
  (rb : StereoSampleRingBuffer) : Prop :=
  m_capacityFrames rb = C /\
  length (m_buffer rb) = Z.to_nat (2 * C) /\
  m_writeIndex rb = Z.of_nat (length frames) mod C /\
  m_totalFramesWritten rb = SizeT.wrap (Z.of_nat (length frames)) /\
  forall (p : nat) f,
    frames !! p = Some f ->
    Z.of_nat (length frames) - C <= Z.of_nat p ->
    m_buffer rb !! Z.to_nat (2 * (Z.of_nat p mod C)) = Some f.1 /\
    m_buffer rb !! Z.to_nat (2 * (Z.of_nat p mod C) + 1) = Some f.2.

(** Three frames [(i, -i)] used in the examples. *)
Definition demo_frames : list (float * float) :=
  [(of_int 1, of_int (-1)); (of_int 2, of_int (-2)); (of_int 3, of_int (-3))].

End RingBuffer.

(** ** [DelayEffect]: the stereo feedback delay line *)
Module Delay.
Import F32.

(** The operator [<] of the types [clampValue] is instantiated at. *)
Class Less (T : Type) : Type := less : T -> T -> bool.
#[global] Instance less_float : Less float := F32.ltb.
#[global] Instance less_size_t : Less Z := Z.ltb.

(** [template <typename T> T clampValue(T value, T low, T high)];
    [value > high] is [high < value]. *)
Definition clampValue {T : Type} `{Less T} (value low high : T) : T :=
  if less value low then low else if less high value then high else value.

Definition kMinDelaySeconds : float := dec 5 1000.
Definition kMaxDelaySeconds : float := dec 25 10.
Definition kMaxFeedback : float := dec 97 100.

Record DelayEffect : Type := {
  m_bufferLeft : list float;
  m_bufferRight : list float;
  m_writeIndex : Z;
  m_delaySamples : Z;
  m_delayTime : float;
  m_feedback : float;
  m_mix : float;
  m_sampleRate : float
}.

Definition bufferLength (d : DelayEffect) : Z := Z.of_nat (length (m_bufferLeft d)).

Definition set_buffers (l r : list float) (d : DelayEffect) : DelayEffect :=
  {| m_bufferLeft := l; m_bufferRight := r;
     m_writeIndex := m_writeIndex d; m_delaySamples := m_delaySamples d;
     m_delayTime := m_delayTime d; m_feedback := m_feedback d;
     m_mix := m_mix d; m_sampleRate := m_sampleRate d |}.

Definition set_writeIndex (w : Z) (d : DelayEffect) : DelayEffect :=
  {| m_bufferLeft := m_bufferLeft d; m_bufferRight := m_bufferRight d;
     m_writeIndex := w; m_delaySamples := m_delaySamples d;
     m_delayTime := m_delayTime d; m_feedback := m_feedback d;
     m_mix := m_mix d; m_sampleRate := m_sampleRate d |}.

Definition set_delaySamples (n : Z) (d : DelayEffect) : DelayEffect :=
  {| m_bufferLeft := m_bufferLeft d; m_bufferRight := m_bufferRight d;
     m_writeIndex := m_writeIndex d; m_delaySamples := n;
     m_delayTime := m_delayTime d; m_feedback := m_feedback d;
     m_mix := m_mix d; m_sampleRate := m_sampleRate d |}.

Definition set_delayTime (t : float) (d : DelayEffect) : DelayEffect :=
  {| m_bufferLeft := m_bufferLeft d; m_bufferRight := m_bufferRight d;
     m_writeIndex := m_writeIndex d; m_delaySamples := m_delaySamples d;
     m_delayTime := t; m_feedback := m_feedback d;
     m_mix := m_mix d; m_sampleRate := m_sampleRate d |}.

Definition set_feedback (g : float) (d : DelayEffect) : DelayEffect :=
  {| m_bufferLeft := m_bufferLeft d; m_bufferRight := m_bufferRight d;
     m_writeIndex := m_writeIndex d; m_delaySamples := m_delaySamples d;
     m_delayTime := m_delayTime d; m_feedback := g;
     m_mix := m_mix d; m_sampleRate := m_sampleRate d |}.

Definition set_mix (m : float) (d : DelayEffect) : DelayEffect :=
  {| m_bufferLeft := m_bufferLeft d; m_bufferRight := m_bufferRight d;
     m_writeIndex := m_writeIndex d; m_delaySamples := m_delaySamples d;
     m_delayTime := m_delayTime d; m_feedback := m_feedback d;
     m_mix := m; m_sampleRate := m_sampleRate d |}.

Definition set_sampleRate (sr : float) (d : DelayEffect) : DelayEffect :=
  {| m_bufferLeft := m_bufferLeft d; m_bufferRight := m_bufferRight d;
     m_writeIndex := m_writeIndex d; m_delaySamples := m_delaySamples d;
     m_delayTime := m_delayTime d; m_feedback := m_feedback d;
     m_mix := m_mix d; m_sampleRate := sr |}.

(** [std::vector::assign(n, 0.0f)]; the allocation is taken to succeed. *)
Definition assign (n : Z) : list float := replicate (Z.to_nat n) zero.

Definition allocateBuffers (d : DelayEffect) : DelayEffect :=
  let requiredSamples :=
    SizeT.add (to_size_t (ceil (kMaxDelaySeconds * m_sampleRate d))) 1 in
  let targetSize := SizeT.max requiredSamples 2 in
  let d := if targetSize =? bufferLength d then d
           else set_buffers (assign targetSize) (assign targetSize) d in
  let d := if targetSize <=? m_writeIndex d then set_writeIndex 0 d else d in
  if targetSize <=? m_delaySamples d
  then set_delaySamples (SizeT.sub targetSize 1) d else d.

Definition updateDelaySamples (d : DelayEffect) : DelayEffect :=
  let length := bufferLength d in
  if length =? 0 then d else
  let samples := to_size_t (round (m_delayTime d * m_sampleRate d)) in
  set_delaySamples (clampValue samples 1 (SizeT.sub length 1)) d.

Definition reset (d : DelayEffect) : DelayEffect :=
  set_writeIndex 0
    (set_buffers (replicate (length (m_bufferLeft d)) zero)
                 (replicate (length (m_bufferRight d)) zero) d).

(** The constructor [DelayEffect(delayTime, feedback, mix, sampleRate)]. *)
Definition construct (delayTime feedback mix sampleRate : float) : DelayEffect :=
  let d := {| m_bufferLeft := []; m_bufferRight := [];
              m_writeIndex := 0; m_delaySamples := 1;
              m_delayTime := clampValue delayTime kMinDelaySeconds kMaxDelaySeconds;
              m_feedback := clampValue feedback zero kMaxFeedback;
              m_mix := clampValue mix zero (of_int 1);
              m_sampleRate := F32.max sampleRate (of_int 100) |} in
  reset (updateDelaySamples (allocateBuffers d)).

(** [process] returns the output sample and the effect after the call. *)
Definition process (stereoSample : float * float) (d : DelayEffect)
  : (float * float) * DelayEffect :=
  let length := bufferLength d in
  if length =? 0 then (stereoSample, d) else
  let readIndex :=
    SizeT.sub (SizeT.add (m_writeIndex d) length) (m_delaySamples d) mod length in
  let delayedLeft := m_bufferLeft d !!! Z.to_nat readIndex in
  let delayedRight := m_bufferRight d !!! Z.to_nat readIndex in
  let feedbackLeft := (stereoSample.1 + delayedLeft * m_feedback d)%f32 in
  let feedbackRight := (stereoSample.2 + delayedRight * m_feedback d)%f32 in
  let bufferLeft :=
    <[Z.to_nat (m_writeIndex d) := clampValue feedbackLeft (of_int (-2)) (of_int 2)]>
      (m_bufferLeft d) in
  let bufferRight :=
    <[Z.to_nat (m_writeIndex d) := clampValue feedbackRight (of_int (-2)) (of_int 2)]>
      (m_bufferRight d) in
  let dryCoeff := (of_int 1 - m_mix d)%f32 in
  let wetCoeff := m_mix d in
  let outLeft := (dryCoeff * stereoSample.1 + wetCoeff * delayedLeft)%f32 in
  let outRight := (dryCoeff * stereoSample.2 + wetCoeff * delayedRight)%f32 in
  let writeIndex := SizeT.add (m_writeIndex d) 1 mod length in
  ((outLeft, outRight), set_writeIndex writeIndex (set_buffers bufferLeft bufferRight d)).

Definition setSampleRate (sampleRate : float) (d : DelayEffect) : DelayEffect :=
  if (sampleRate <=? of_int 100)%f32 then d else
  if (abs (sampleRate - m_sampleRate d) <? dec 1 1000)%f32 then d else
  updateDelaySamples (allocateBuffers (set_sampleRate sampleRate d)).

Definition setDelayTime (delayTime : float) (d : DelayEffect) : DelayEffect :=
  let clamped := clampValue delayTime kMinDelaySeconds kMaxDelaySeconds in
  if (abs (clamped - m_delayTime d) <? dec 1 1000000)%f32 then d else
  updateDelaySamples (set_delayTime clamped d).

Definition setFeedback (feedback : float) (d : DelayEffect) : DelayEffect :=
  set_feedback (clampValue feedback zero kMaxFeedback) d.

Definition setMix (mix : float) (d : DelayEffect) : DelayEffect :=
  set_mix (clampValue mix zero (of_int 1)) d.

(** Specification vocabulary: the operations a client can apply to a
    constructed effect, and a run of them. *)
Inductive Op : Type :=
| OpProcess (stereoSample : float * float)
| OpReset
| OpSetSampleRate (sampleRate : float)
| OpSetDelayTime (delayTime : float)
| OpSetFeedback (feedback : float)
| OpSetMix (mix : float).

Definition apply_op (d : DelayEffect) (op : Op) : DelayEffect :=
  match op with
  | OpProcess x => (process x d).2
  | OpReset => reset d
  | OpSetSampleRate sr => setSampleRate sr d
  | OpSetDelayTime t => setDelayTime t d
  | OpSetFeedback g => setFeedback g d
  | OpSetMix m => setMix m d
  end.

Definition run (ops : list Op) (d : DelayEffect) : DelayEffect := foldl apply_op d ops.

(** The state invariant of the delay line. *)
Record delay_inv (d : DelayEffect) : Prop := {
  inv_same_length : length (m_bufferRight d) = length (m_bufferLeft d);
  inv_length : 2 <= bufferLength d < SizeT.modulus;
  inv_write : 0 <= m_writeIndex d < bufferLength d;
  inv_delay : 1 <= m_delaySamples d <= bufferLength d - 1
}.

(** The default delay line at a sample rate of 100 Hz (251 samples per
    channel), used in the examples. *)
Definition delay_100hz : DelayEffect :=
  construct (dec 3 10) (dec 5 10) (dec 5 10) (of_int 100).

(** Specification vocabulary: a stored sample within the clamp range, effects
    whose buffers hold only such samples, effects whose parameters lie in
    their documented ranges, and the calls whose arguments are numbers
    ([process] on finite samples, the setters on anything but NaN). *)
Definition sample_in_range (v : float) : Prop :=
  (of_int (-2) <=? v)%f32 = true /\ (v <=? of_int 2)%f32 = true.

Definition buffers_bounded (d : DelayEffect) : Prop :=
  Forall sample_in_range (m_bufferLeft d) /\ Forall sample_in_range (m_bufferRight d).

Definition parameters_in_range (d : DelayEffect) : Prop :=
  ((zero <=? m_feedback d)%f32 = true /\ (m_feedback d <=? kMaxFeedback)%f32 = true)
  /\ ((zero <=? m_mix d)%f32 = true /\ (m_mix d <=? of_int 1)%f32 = true)
  /\ ((kMinDelaySeconds <=? m_delayTime d)%f32 = true
      /\ (m_delayTime d <=? kMaxDelaySeconds)%f32 = true).

Definition op_well_formed (op : Op) : Prop :=
  match op with
  | OpProcess x => is_finite x.1 = true /\ is_finite x.2 = true
  | OpReset => True
  | OpSetSampleRate _ => True
  | OpSetDelayTime t => isnan t = false
  | OpSetFeedback g => isnan g = false
  | OpSetMix m => isnan m = false
  end.

(** The two properties together, as one invariant. *)
Definition well_kept (d : DelayEffect) : Prop :=
  buffers_bounded d /\ parameters_in_range d.

(** A run of [process] calls; the outputs are dropped. *)
Definition process_all (inputs : list (float * float)) (d : DelayEffect) : DelayEffect :=
  foldl (fun e x => (process x e).2) d inputs.

End Delay.

(** ** <cmath> functions whose implementation is outside the repository *)
Module Cmath.
Import F32.

(** [std::sin], [std::cos] and [std::pow] on [float]. *)
Class LibM : Type := {
  sin : float -> float;
  cos : float -> float;
  pow : float -> float -> float
}.

(** A stand-in used to evaluate examples only: the small-angle
    approximations [sin x = x] and [cos x = 1 - x*x/2], and a constant power. *)
Definition demo_libm : LibM :=
  {| sin := fun x => x;
     cos := fun x => (of_int 1 - x * x * dec 1 2)%f32;
     pow := fun x _ => x |}.

(** [std::tanh] on [float], which only the shaper uses. *)
Class LibMTanh : Type := tanh : float -> float.

(** A stand-in used to evaluate examples only: [tanh x = x], the small-signal
    approximation. *)
Definition demo_tanh : LibMTanh := fun x => x.

End Cmath.

(** ** [LowPassEffect]: the resonant biquad low-pass *)
Module LowPass.
Import F32 Cmath.

Definition kMixMin : float := zero.
Definition kMixMax : float := of_int 1.
Definition kMinCutoff : float := of_int 20.
Definition kMaxCutoffRatio : float := dec 45 100.
Definition kMinSampleRate : float := of_int 100.
Definition kMinQ : float := dec 1 10.
Definition kMaxQ : float := of_int 10.

Record FilterState : Type := { z1 : float; z2 : float }.

Record LowPassEffect : Type := {
  m_cutoff : float;
  m_sampleRate : float;
  m_q : float;
  m_mix : float;
  m_b0 : float;
  m_b1 : float;
  m_b2 : float;
  m_a1 : float;
  m_a2 : float;
  m_leftState : FilterState;
  m_rightState : FilterState
}.

Definition set_cutoff (c : float) (lp : LowPassEffect) : LowPassEffect :=
  {| m_cutoff := c; m_sampleRate := m_sampleRate lp; m_q := m_q lp; m_mix := m_mix lp;
     m_b0 := m_b0 lp; m_b1 := m_b1 lp; m_b2 := m_b2 lp; m_a1 := m_a1 lp; m_a2 := m_a2 lp;
     m_leftState := m_leftState lp; m_rightState := m_rightState lp |}.

Definition set_sampleRate (sr : float) (lp : LowPassEffect) : LowPassEffect :=
  {| m_cutoff := m_cutoff lp; m_sampleRate := sr; m_q := m_q lp; m_mix := m_mix lp;
     m_b0 := m_b0 lp; m_b1 := m_b1 lp; m_b2 := m_b2 lp; m_a1 := m_a1 lp; m_a2 := m_a2 lp;
     m_leftState := m_leftState lp; m_rightState := m_rightState lp |}.

Definition set_q (q : float) (lp : LowPassEffect) : LowPassEffect :=
  {| m_cutoff := m_cutoff lp; m_sampleRate := m_sampleRate lp; m_q := q; m_mix := m_mix lp;
     m_b0 := m_b0 lp; m_b1 := m_b1 lp; m_b2 := m_b2 lp; m_a1 := m_a1 lp; m_a2 := m_a2 lp;
     m_leftState := m_leftState lp; m_rightState := m_rightState lp |}.

Definition set_mix (m : float) (lp : LowPassEffect) : LowPassEffect :=
  {| m_cutoff := m_cutoff lp; m_sampleRate := m_sampleRate lp; m_q := m_q lp; m_mix := m;
     m_b0 := m_b0 lp; m_b1 := m_b1 lp; m_b2 := m_b2 lp; m_a1 := m_a1 lp; m_a2 := m_a2 lp;
     m_leftState := m_leftState lp; m_rightState := m_rightState lp |}.

Definition set_coefficients (b0 b1 b2 a1 a2 : float) (lp : LowPassEffect) : LowPassEffect :=
  {| m_cutoff := m_cutoff lp; m_sampleRate := m_sampleRate lp; m_q := m_q lp;
     m_mix := m_mix lp;
     m_b0 := b0; m_b1 := b1; m_b2 := b2; m_a1 := a1; m_a2 := a2;
     m_leftState := m_leftState lp; m_rightState := m_rightState lp |}.

Definition set_states (l r : FilterState) (lp : LowPassEffect) : LowPassEffect :=
  {| m_cutoff := m_cutoff lp; m_sampleRate := m_sampleRate lp; m_q := m_q lp;
     m_mix := m_mix lp;
     m_b0 := m_b0 lp; m_b1 := m_b1 lp; m_b2 := m_b2 lp; m_a1 := m_a1 lp; m_a2 := m_a2 lp;
     m_leftState := l; m_rightState := r |}.

Definition clampValue (value low high : float) : float :=
  if (value <? low)%f32 then low else if (value >? high)%f32 then high else value.

Section WithLibM.
Context {libm : LibM}.

Definition updateCoefficients (lp : LowPassEffect) : LowPassEffect :=
  let nyquist := (m_sampleRate lp * dec 1 2)%f32 in
  if (nyquist <=? kMinCutoff)%f32 then
    set_coefficients (of_int 1) zero zero zero zero lp
  else
  let maxCutoff := (nyquist * kMaxCutoffRatio)%f32 in
  let cutoff := clampValue (m_cutoff lp) kMinCutoff (F32.max maxCutoff kMinCutoff) in
  let omega := (of_int 2 * pi * cutoff / m_sampleRate lp)%f32 in
  let sinw := sin omega in
  let cosw := cos omega in
  let alpha := (sinw / (of_int 2 * m_q lp))%f32 in
  let b0 := ((of_int 1 - cosw) * dec 1 2)%f32 in
  let b1 := (of_int 1 - cosw)%f32 in
  let b2 := ((of_int 1 - cosw) * dec 1 2)%f32 in
  let a0 := (of_int 1 + alpha)%f32 in
  let a1 := (of_int (-2) * cosw)%f32 in
  let a2 := (of_int 1 - alpha)%f32 in
  let invA0 := (of_int 1 / a0)%f32 in
  set_coefficients (b0 * invA0)%f32 (b1 * invA0)%f32 (b2 * invA0)%f32
                   (a1 * invA0)%f32 (a2 * invA0)%f32 lp.

Definition setCutoff (cutoff : float) (lp : LowPassEffect) : LowPassEffect :=
  let maxCutoff := (m_sampleRate lp * dec 1 2 * kMaxCutoffRatio)%f32 in
  let clamped := clampValue cutoff kMinCutoff (F32.max maxCutoff kMinCutoff) in
  if (abs (clamped - m_cutoff lp) <? dec 1 1000)%f32 then lp else
  updateCoefficients (set_cutoff clamped lp).

Definition setSampleRate (sampleRate : float) (lp : LowPassEffect) : LowPassEffect :=
  let clampedRate := F32.max sampleRate kMinSampleRate in
  if (abs (clampedRate - m_sampleRate lp) <? dec 1 1000)%f32 then lp else
  let lp := set_sampleRate clampedRate lp in
  let lp :=
    set_cutoff
      (clampValue (m_cutoff lp) kMinCutoff (m_sampleRate lp * dec 1 2 * kMaxCutoffRatio)%f32)
      lp in
  updateCoefficients lp.

Definition setResonance (resonance : float) (lp : LowPassEffect) : LowPassEffect :=
  let clamped := clampValue resonance kMinQ kMaxQ in
  if (abs (clamped - m_q lp) <? dec 1 1000)%f32 then lp else
  updateCoefficients (set_q clamped lp).

(** The constructor [LowPassEffect(cutoff, sampleRate, resonance, mix)]. *)
Definition construct (cutoff sampleRate resonance mix : float) : LowPassEffect :=
  setCutoff cutoff
    {| m_cutoff := kMinCutoff;
       m_sampleRate := F32.max sampleRate kMinSampleRate;
       m_q := clampValue resonance kMinQ kMaxQ;
       m_mix := clampValue mix kMixMin kMixMax;
       m_b0 := zero; m_b1 := zero; m_b2 := zero; m_a1 := zero; m_a2 := zero;
       m_leftState := {| z1 := zero; z2 := zero |};
       m_rightState := {| z1 := zero; z2 := zero |} |}.

End WithLibM.

Definition setMix (mix : float) (lp : LowPassEffect) : LowPassEffect :=
  set_mix (clampValue mix kMixMin kMixMax) lp.

Definition reset (lp : LowPassEffect) : LowPassEffect :=
  set_states {| z1 := zero; z2 := zero |} {| z1 := zero; z2 := zero |} lp.

(** One channel of [process]: the wet sample, the new filter memory and the
    mixed output, in Direct Form II Transposed. *)
Definition process_channel (lp : LowPassEffect) (dry : float) (st : FilterState)
  : float * FilterState :=
  let wet := (m_b0 lp * dry + z1 st)%f32 in
  let z1' := (m_b1 lp * dry + z2 st - m_a1 lp * wet)%f32 in
  let z2' := (m_b2 lp * dry - m_a2 lp * wet)%f32 in
  (((of_int 1 - m_mix lp) * dry + m_mix lp * wet)%f32, {| z1 := z1'; z2 := z2' |}).

Definition process (stereoSample : float * float) (lp : LowPassEffect)
  : (float * float) * LowPassEffect :=
  let '(outLeft, leftState) := process_channel lp stereoSample.1 (m_leftState lp) in
  let '(outRight, rightState) := process_channel lp stereoSample.2 (m_rightState lp) in
  ((outLeft, outRight), set_states leftState rightState lp).

(** Specification vocabulary. *)

(** The coefficients of the identity filter. *)
Definition passthrough (lp : LowPassEffect) : Prop :=
  m_b0 lp = of_int 1 /\ m_b1 lp = zero /\ m_b2 lp = zero /\
  m_a1 lp = zero /\ m_a2 lp = zero.

(** The upper end of the cutoff range, [max (0.45 * Nyquist) 20]. *)
Definition cutoff_limit (lp : LowPassEffect) : float :=
  F32.max (m_sampleRate lp * dec 1 2 * kMaxCutoffRatio)%f32 kMinCutoff.

Definition cutoff_in_range (lp : LowPassEffect) : Prop :=
  (kMinCutoff <=? m_cutoff lp)%f32 = true /\ (m_cutoff lp <=? cutoff_limit lp)%f32 = true.

(** Specification vocabulary: the operations a client can apply to a filter
    and a run of them; the parameters within the ranges of the header; the
    calls whose argument is a number. *)
Inductive Op : Type :=
| OpProcess (stereoSample : float * float)
| OpReset
| OpSetSampleRate (sampleRate : float)
| OpSetCutoff (cutoff : float)
| OpSetResonance (resonance : float)
| OpSetMix (mix : float).

Definition apply_op {libm : LibM} (lp : LowPassEffect) (op : Op) : LowPassEffect :=
  match op with
  | OpProcess x => (process x lp).2
  | OpReset => reset lp
  | OpSetSampleRate sr => setSampleRate sr lp
  | OpSetCutoff c => setCutoff c lp
  | OpSetResonance r => setResonance r lp
  | OpSetMix m => setMix m lp
  end.

Definition run {libm : LibM} (ops : list Op) (lp : LowPassEffect) : LowPassEffect :=
  foldl apply_op lp ops.

Definition parameters_in_range (lp : LowPassEffect) : Prop :=
  ((kMinQ <=? m_q lp)%f32 = true /\ (m_q lp <=? kMaxQ)%f32 = true)
  /\ ((kMixMin <=? m_mix lp)%f32 = true /\ (m_mix lp <=? kMixMax)%f32 = true)
  /\ (kMinSampleRate <=? m_sampleRate lp)%f32 = true.

Definition op_well_formed (op : Op) : Prop :=
  match op with
  | OpSetSampleRate sr => isnan sr = false
  | OpSetResonance r => isnan r = false
  | OpSetMix m => isnan m = false
  | _ => True
  end.

End LowPass.

(** ** [OctaveEffect]: the shaper *)
Module Octave.
Import F32.

Record OctaveEffect : Type := {
  m_higher : bool;
  m_blend : float;
  m_phase : float;
  m_frequency : float;
  m_sampleRate : float;
  m_stateL : float;
  m_stateR : float
}.

Definition setFrequency (frequency : float) (o : OctaveEffect) : OctaveEffect :=
  if (frequency >? zero)%f32 && (frequency <=? of_int 20000)%f32 then
    {| m_higher := m_higher o; m_blend := m_blend o; m_phase := m_phase o;
       m_frequency := frequency; m_sampleRate := m_sampleRate o;
       m_stateL := m_stateL o; m_stateR := m_stateR o |}
  else o.

Definition setSampleRate (sampleRate : float) (o : OctaveEffect) : OctaveEffect :=
  if (sampleRate >? zero)%f32 then
    {| m_higher := m_higher o; m_blend := m_blend o; m_phase := m_phase o;
       m_frequency := m_frequency o; m_sampleRate := sampleRate;
       m_stateL := m_stateL o; m_stateR := m_stateR o |}
  else o.

(** The constructor [OctaveEffect(higher, blend)]. *)
Definition construct (higher : bool) (blend : float) : OctaveEffect :=
  {| m_higher := higher;
     m_blend := F32.min (F32.max blend zero) (of_int 1);
     m_phase := zero;
     m_frequency := zero;
     m_sampleRate := of_int 44100;
     m_stateL := zero;
     m_stateR := zero |}.

Definition setHigher (higher : bool) (o : OctaveEffect) : OctaveEffect :=
  {| m_higher := higher; m_blend := m_blend o; m_phase := m_phase o;
     m_frequency := m_frequency o; m_sampleRate := m_sampleRate o;
     m_stateL := m_stateL o; m_stateR := m_stateR o |}.

Definition setBlend (blend : float) (o : OctaveEffect) : OctaveEffect :=
  {| m_higher := m_higher o; m_blend := F32.min (F32.max blend zero) (of_int 1);
     m_phase := m_phase o;
     m_frequency := m_frequency o; m_sampleRate := m_sampleRate o;
     m_stateL := m_stateL o; m_stateR := m_stateR o |}.

Definition reset (o : OctaveEffect) : OctaveEffect :=
  {| m_higher := m_higher o; m_blend := m_blend o; m_phase := zero;
     m_frequency := m_frequency o; m_sampleRate := m_sampleRate o;
     m_stateL := zero; m_stateR := zero |}.

(** [process] returns the output sample and the effect after the call: soft
    clipping when [m_higher], a one-pole low-pass otherwise, each blended with
    the dry signal. *)
Definition process {tanh_impl : Cmath.LibMTanh} (stereoSample : float * float)
  (o : OctaveEffect) : (float * float) * OctaveEffect :=
  if (m_blend o <=? zero)%f32 then (stereoSample, o) else
  let left := stereoSample.1 in
  let right := stereoSample.2 in
  if m_higher o then
    let shapedLeft := (Cmath.tanh (left * of_int 2) * dec 8 10)%f32 in
    let shapedRight := (Cmath.tanh (right * of_int 2) * dec 8 10)%f32 in
    let left := ((of_int 1 - m_blend o) * left + m_blend o * shapedLeft)%f32 in
    let right := ((of_int 1 - m_blend o) * right + m_blend o * shapedRight)%f32 in
    ((left, right), o)
  else
    let stateL := (m_stateL o * dec 8 10 + left * dec 2 10)%f32 in
    let stateR := (m_stateR o * dec 8 10 + right * dec 2 10)%f32 in
    let left := ((of_int 1 - m_blend o) * left + m_blend o * stateL)%f32 in
    let right := ((of_int 1 - m_blend o) * right + m_blend o * stateR)%f32 in
    ((left, right),
     {| m_higher := m_higher o; m_blend := m_blend o; m_phase := m_phase o;
        m_frequency := m_frequency o; m_sampleRate := m_sampleRate o;
        m_stateL := stateL; m_stateR := stateR |}).

End Octave.

(** ** What the engine takes from outside this embedding *)
Module Host.
Import F32.

(** [ADSREnvelope] (Envelope/ADSREnvelope.h): its constructor and [reset]. *)
Class EnvelopeImpl : Type := {
  ADSREnvelope : Type;
  ADSREnvelope_construct : float -> float -> float -> float -> ADSREnvelope;
  ADSREnvelope_reset : ADSREnvelope -> ADSREnvelope
}.

(** The static [std::mt19937] of [randomEngine()] and a draw of
    [std::uniform_real_distribution<float>(a, b)] from it. *)
Class RandomImpl : Type := {
  RandomEngine : Type;
  uniform_real_distribution : float -> float -> RandomEngine -> float * RandomEngine
}.

(** Stand-ins used to evaluate examples only: an envelope that records whether
    it was reset since it was built, and a generator that counts its draws and
    always yields the lower bound. *)
Definition demo_envelope : EnvelopeImpl :=
  {| ADSREnvelope := bool;
     ADSREnvelope_construct := fun _ _ _ _ => false;
     ADSREnvelope_reset := fun _ => true |}.

Definition demo_random : RandomImpl :=
  {| RandomEngine := nat;
     uniform_real_distribution := fun a _ n => (a, S n) |}.

(** [ADSREnvelope::process(noteOn, sampleRate)]: the level of this sample and
    the envelope after the call. *)
Class EnvelopeProcessImpl {envelope_impl : EnvelopeImpl} : Type :=
  ADSREnvelope_process : bool -> float -> ADSREnvelope -> float * ADSREnvelope.

(** The default arguments of [OctaveEffect()], declared in
    Effects/OctaveEffect.h. *)
Class OctaveDefaults : Type := {
  octave_default_higher : bool;
  octave_default_blend : float
}.

(** Stand-ins used to evaluate examples only: an envelope that is fully open
    (level 1) while the note is on and closed (level 0) otherwise, and an
    octave-up shaper at half blend. *)
Definition demo_envelope_process : @EnvelopeProcessImpl demo_envelope :=
  fun noteOn _ envelope => (if noteOn then of_int 1 else zero, envelope).

Definition demo_octave_defaults : OctaveDefaults :=
  {| octave_default_higher := true; octave_default_blend := dec 5 10 |}.

End Host.

(** ** [AudioSystem]: the engine *)
Module Engine.
Import F32 Cmath Host.

(** The waveform generators of Waves/. *)
Inductive IWave : Type := SquareWave | SineWave | SawtoothWave | TriangleWave.

(** An entry of the effect chain, by its dynamic type. *)
Inductive Effect : Type :=
| EOctave (octave : Octave.OctaveEffect)
| EDelay (delay : Delay.DelayEffect)
| ELowPass (lp : LowPass.LowPassEffect).

Record ActiveNote : Type := { frequency : float; detuneCents : float }.

Section WithHost.
Context {libm : LibM} {envelope_impl : EnvelopeImpl} {random_impl : RandomImpl}.

(** The members of [AudioSystem], in the order of the class; [m_waveformTap]
    is the address of a buffer owned elsewhere ([None] for [nullptr]), and
    [randomEngine] is the generator shared by all engines. *)
Record AudioSystem : Type := {
  m_frequency : float;
  m_sampleRate : float;
  m_primaryPhase : float;
  m_secondaryPhase : float;
  m_noteOn : bool;
  m_effects : list Effect;
  m_primaryWaveform : option IWave;
  m_secondaryWaveform : option IWave;
  m_envelope : option ADSREnvelope;
  m_activeNotes : list ActiveNote;
  m_lfoPhase : float;
  m_lfoRateHz : float;
  m_lfoAmountCents : float;
  m_noteJitterAmountCents : float;
  m_noteDetuneCents : float;
  m_waveformTap : option nat;
  m_secondaryEnabled : bool;
  m_secondaryMix : float;
  m_secondaryDetuneCents : float;
  m_secondaryOctaveOffset : Z;
  m_pitchBendCents : float;
  m_lowPassActive : bool;
  m_lastLowPassCutoff : float;
  randomEngine : RandomEngine
}.

Definition set_m_frequency (v : float) (s : AudioSystem) : AudioSystem :=
  {| m_frequency := v; m_sampleRate := m_sampleRate s;
     m_primaryPhase := m_primaryPhase s; m_secondaryPhase := m_secondaryPhase s;
     m_noteOn := m_noteOn s; m_effects := m_effects s;
     m_primaryWaveform := m_primaryWaveform s;
     m_secondaryWaveform := m_secondaryWaveform s; m_envelope := m_envelope s;
     m_activeNotes := m_activeNotes s; m_lfoPhase := m_lfoPhase s;
     m_lfoRateHz := m_lfoRateHz s; m_lfoAmountCents := m_lfoAmountCents s;
     m_noteJitterAmountCents := m_noteJitterAmountCents s;
     m_noteDetuneCents := m_noteDetuneCents s; m_waveformTap := m_waveformTap s;
     m_secondaryEnabled := m_secondaryEnabled s;
     m_secondaryMix := m_secondaryMix s;
     m_secondaryDetuneCents := m_secondaryDetuneCents s;
     m_secondaryOctaveOffset := m_secondaryOctaveOffset s;
     m_pitchBendCents := m_pitchBendCents s; m_lowPassActive := m_lowPassActive s;
     m_lastLowPassCutoff := m_lastLowPassCutoff s;
     randomEngine := randomEngine s |}.

Definition set_m_sampleRate (v : float) (s : AudioSystem) : AudioSystem :=
  {| m_frequency := m_frequency s; m_sampleRate := v;
     m_primaryPhase := m_primaryPhase s; m_secondaryPhase := m_secondaryPhase s;
     m_noteOn := m_noteOn s; m_effects := m_effects s;
     m_primaryWaveform := m_primaryWaveform s;
     m_secondaryWaveform := m_secondaryWaveform s; m_envelope := m_envelope s;
     m_activeNotes := m_activeNotes s; m_lfoPhase := m_lfoPhase s;
     m_lfoRateHz := m_lfoRateHz s; m_lfoAmountCents := m_lfoAmountCents s;
     m_noteJitterAmountCents := m_noteJitterAmountCents s;
     m_noteDetuneCents := m_noteDetuneCents s; m_waveformTap := m_waveformTap s;
     m_secondaryEnabled := m_secondaryEnabled s;
     m_secondaryMix := m_secondaryMix s;
     m_secondaryDetuneCents := m_secondaryDetuneCents s;
     m_secondaryOctaveOffset := m_secondaryOctaveOffset s;
     m_pitchBendCents := m_pitchBendCents s; m_lowPassActive := m_lowPassActive s;
     m_lastLowPassCutoff := m_lastLowPassCutoff s;
     randomEngine := randomEngine s |}.

Definition set_m_primaryPhase (v : float) (s : AudioSystem) : AudioSystem :=
  {| m_frequency := m_frequency s; m_sampleRate := m_sampleRate s; m_primaryPhase := v;
     m_secondaryPhase := m_secondaryPhase s; m_noteOn := m_noteOn s;
     m_effects := m_effects s; m_primaryWaveform := m_primaryWaveform s;
     m_secondaryWaveform := m_secondaryWaveform s; m_envelope := m_envelope s;
     m_activeNotes := m_activeNotes s; m_lfoPhase := m_lfoPhase s;
     m_lfoRateHz := m_lfoRateHz s; m_lfoAmountCents := m_lfoAmountCents s;
     m_noteJitterAmountCents := m_noteJitterAmountCents s;
     m_noteDetuneCents := m_noteDetuneCents s; m_waveformTap := m_waveformTap s;
     m_secondaryEnabled := m_secondaryEnabled s;
     m_secondaryMix := m_secondaryMix s;
     m_secondaryDetuneCents := m_secondaryDetuneCents s;
     m_secondaryOctaveOffset := m_secondaryOctaveOffset s;
     m_pitchBendCents := m_pitchBendCents s; m_lowPassActive := m_lowPassActive s;
     m_lastLowPassCutoff := m_lastLowPassCutoff s;
     randomEngine := randomEngine s |}.

Definition set_m_secondaryPhase (v : float) (s : AudioSystem) : AudioSystem :=
  {| m_frequency := m_frequency s; m_sampleRate := m_sampleRate s;
     m_primaryPhase := m_primaryPhase s; m_secondaryPhase := v;
     m_noteOn := m_noteOn s; m_effects := m_effects s;
     m_primaryWaveform := m_primaryWaveform s;
     m_secondaryWaveform := m_secondaryWaveform s; m_envelope := m_envelope s;
     m_activeNotes := m_activeNotes s; m_lfoPhase := m_lfoPhase s;
     m_lfoRateHz := m_lfoRateHz s; m_lfoAmountCents := m_lfoAmountCents s;
     m_noteJitterAmountCents := m_noteJitterAmountCents s;
     m_noteDetuneCents := m_noteDetuneCents s; m_waveformTap := m_waveformTap s;
     m_secondaryEnabled := m_secondaryEnabled s;
     m_secondaryMix := m_secondaryMix s;
     m_secondaryDetuneCents := m_secondaryDetuneCents s;
     m_secondaryOctaveOffset := m_secondaryOctaveOffset s;
     m_pitchBendCents := m_pitchBendCents s; m_lowPassActive := m_lowPassActive s;
     m_lastLowPassCutoff := m_lastLowPassCutoff s;
     randomEngine := randomEngine s |}.

Definition set_m_noteOn (v : bool) (s : AudioSystem) : AudioSystem :=
  {| m_frequency := m_frequency s; m_sampleRate := m_sampleRate s;
     m_primaryPhase := m_primaryPhase s; m_secondaryPhase := m_secondaryPhase s;
     m_noteOn := v; m_effects := m_effects s;
     m_primaryWaveform := m_primaryWaveform s;
     m_secondaryWaveform := m_secondaryWaveform s; m_envelope := m_envelope s;
     m_activeNotes := m_activeNotes s; m_lfoPhase := m_lfoPhase s;
     m_lfoRateHz := m_lfoRateHz s; m_lfoAmountCents := m_lfoAmountCents s;
     m_noteJitterAmountCents := m_noteJitterAmountCents s;
     m_noteDetuneCents := m_noteDetuneCents s; m_waveformTap := m_waveformTap s;
     m_secondaryEnabled := m_secondaryEnabled s;
     m_secondaryMix := m_secondaryMix s;
     m_secondaryDetuneCents := m_secondaryDetuneCents s;
     m_secondaryOctaveOffset := m_secondaryOctaveOffset s;
     m_pitchBendCents := m_pitchBendCents s; m_lowPassActive := m_lowPassActive s;
     m_lastLowPassCutoff := m_lastLowPassCutoff s;
     randomEngine := randomEngine s |}.

Definition set_m_effects (v : list Effect) (s : AudioSystem) : AudioSystem :=
  {| m_frequency := m_frequency s; m_sampleRate := m_sampleRate s;
     m_primaryPhase := m_primaryPhase s; m_secondaryPhase := m_secondaryPhase s;
     m_noteOn := m_noteOn s; m_effects := v;
     m_primaryWaveform := m_primaryWaveform s;
     m_secondaryWaveform := m_secondaryWaveform s; m_envelope := m_envelope s;
     m_activeNotes := m_activeNotes s; m_lfoPhase := m_lfoPhase s;
     m_lfoRateHz := m_lfoRateHz s; m_lfoAmountCents := m_lfoAmountCents s;
     m_noteJitterAmountCents := m_noteJitterAmountCents s;
     m_noteDetuneCents := m_noteDetuneCents s; m_waveformTap := m_waveformTap s;
     m_secondaryEnabled := m_secondaryEnabled s;
     m_secondaryMix := m_secondaryMix s;
     m_secondaryDetuneCents := m_secondaryDetuneCents s;
     m_secondaryOctaveOffset := m_secondaryOctaveOffset s;
     m_pitchBendCents := m_pitchBendCents s; m_lowPassActive := m_lowPassActive s;
     m_lastLowPassCutoff := m_lastLowPassCutoff s;
     randomEngine := randomEngine s |}.

Definition set_m_primaryWaveform (v : option IWave) (s : AudioSystem) : AudioSystem :=
  {| m_frequency := m_frequency s; m_sampleRate := m_sampleRate s;
     m_primaryPhase := m_primaryPhase s; m_secondaryPhase := m_secondaryPhase s;
     m_noteOn := m_noteOn s; m_effects := m_effects s; m_primaryWaveform := v;
     m_secondaryWaveform := m_secondaryWaveform s; m_envelope := m_envelope s;
     m_activeNotes := m_activeNotes s; m_lfoPhase := m_lfoPhase s;
     m_lfoRateHz := m_lfoRateHz s; m_lfoAmountCents := m_lfoAmountCents s;
     m_noteJitterAmountCents := m_noteJitterAmountCents s;
     m_noteDetuneCents := m_noteDetuneCents s; m_waveformTap := m_waveformTap s;
     m_secondaryEnabled := m_secondaryEnabled s;
     m_secondaryMix := m_secondaryMix s;
     m_secondaryDetuneCents := m_secondaryDetuneCents s;
     m_secondaryOctaveOffset := m_secondaryOctaveOffset s;
     m_pitchBendCents := m_pitchBendCents s; m_lowPassActive := m_lowPassActive s;
     m_lastLowPassCutoff := m_lastLowPassCutoff s;
     randomEngine := randomEngine s |}.

Definition set_m_secondaryWaveform (v : option IWave) (s : AudioSystem) : AudioSystem :=
  {| m_frequency := m_frequency s; m_sampleRate := m_sampleRate s;
     m_primaryPhase := m_primaryPhase s; m_secondaryPhase := m_secondaryPhase s;
     m_noteOn := m_noteOn s; m_effects := m_effects s;
     m_primaryWaveform := m_primaryWaveform s; m_secondaryWaveform := v;
     m_envelope := m_envelope s; m_activeNotes := m_activeNotes s;
     m_lfoPhase := m_lfoPhase s; m_lfoRateHz := m_lfoRateHz s;
     m_lfoAmountCents := m_lfoAmountCents s;
     m_noteJitterAmountCents := m_noteJitterAmountCents s;
     m_noteDetuneCents := m_noteDetuneCents s; m_waveformTap := m_waveformTap s;
     m_secondaryEnabled := m_secondaryEnabled s;
     m_secondaryMix := m_secondaryMix s;
     m_secondaryDetuneCents := m_secondaryDetuneCents s;
     m_secondaryOctaveOffset := m_secondaryOctaveOffset s;
     m_pitchBendCents := m_pitchBendCents s; m_lowPassActive := m_lowPassActive s;
     m_lastLowPassCutoff := m_lastLowPassCutoff s;
     randomEngine := randomEngine s |}.

Definition set_m_envelope (v : option ADSREnvelope) (s : AudioSystem) : AudioSystem :=
  {| m_frequency := m_frequency s; m_sampleRate := m_sampleRate s;
     m_primaryPhase := m_primaryPhase s; m_secondaryPhase := m_secondaryPhase s;
     m_noteOn := m_noteOn s; m_effects := m_effects s;
     m_primaryWaveform := m_primaryWaveform s;
     m_secondaryWaveform := m_secondaryWaveform s; m_envelope := v;
     m_activeNotes := m_activeNotes s; m_lfoPhase := m_lfoPhase s;
     m_lfoRateHz := m_lfoRateHz s; m_lfoAmountCents := m_lfoAmountCents s;
     m_noteJitterAmountCents := m_noteJitterAmountCents s;
     m_noteDetuneCents := m_noteDetuneCents s; m_waveformTap := m_waveformTap s;
     m_secondaryEnabled := m_secondaryEnabled s;
     m_secondaryMix := m_secondaryMix s;
     m_secondaryDetuneCents := m_secondaryDetuneCents s;
     m_secondaryOctaveOffset := m_secondaryOctaveOffset s;
     m_pitchBendCents := m_pitchBendCents s; m_lowPassActive := m_lowPassActive s;
     m_lastLowPassCutoff := m_lastLowPassCutoff s;
     randomEngine := randomEngine s |}.

Definition set_m_activeNotes (v : list ActiveNote) (s : AudioSystem) : AudioSystem :=
  {| m_frequency := m_frequency s; m_sampleRate := m_sampleRate s;
     m_primaryPhase := m_primaryPhase s; m_secondaryPhase := m_secondaryPhase s;
     m_noteOn := m_noteOn s; m_effects := m_effects s;
     m_primaryWaveform := m_primaryWaveform s;
     m_secondaryWaveform := m_secondaryWaveform s; m_envelope := m_envelope s;
     m_activeNotes := v; m_lfoPhase := m_lfoPhase s; m_lfoRateHz := m_lfoRateHz s;
     m_lfoAmountCents := m_lfoAmountCents s;
     m_noteJitterAmountCents := m_noteJitterAmountCents s;
     m_noteDetuneCents := m_noteDetuneCents s; m_waveformTap := m_waveformTap s;
     m_secondaryEnabled := m_secondaryEnabled s;
     m_secondaryMix := m_secondaryMix s;
     m_secondaryDetuneCents := m_secondaryDetuneCents s;
     m_secondaryOctaveOffset := m_secondaryOctaveOffset s;
     m_pitchBendCents := m_pitchBendCents s; m_lowPassActive := m_lowPassActive s;
     m_lastLowPassCutoff := m_lastLowPassCutoff s;
     randomEngine := randomEngine s |}.

Definition set_m_lfoPhase (v : float) (s : AudioSystem) : AudioSystem :=
  {| m_frequency := m_frequency s; m_sampleRate := m_sampleRate s;
     m_primaryPhase := m_primaryPhase s; m_secondaryPhase := m_secondaryPhase s;
     m_noteOn := m_noteOn s; m_effects := m_effects s;
     m_primaryWaveform := m_primaryWaveform s;
     m_secondaryWaveform := m_secondaryWaveform s; m_envelope := m_envelope s;
     m_activeNotes := m_activeNotes s; m_lfoPhase := v;
     m_lfoRateHz := m_lfoRateHz s; m_lfoAmountCents := m_lfoAmountCents s;
     m_noteJitterAmountCents := m_noteJitterAmountCents s;
     m_noteDetuneCents := m_noteDetuneCents s; m_waveformTap := m_waveformTap s;
     m_secondaryEnabled := m_secondaryEnabled s;
     m_secondaryMix := m_secondaryMix s;
     m_secondaryDetuneCents := m_secondaryDetuneCents s;
     m_secondaryOctaveOffset := m_secondaryOctaveOffset s;
     m_pitchBendCents := m_pitchBendCents s; m_lowPassActive := m_lowPassActive s;
     m_lastLowPassCutoff := m_lastLowPassCutoff s;
     randomEngine := randomEngine s |}.

Definition set_m_noteDetuneCents (v : float) (s : AudioSystem) : AudioSystem :=
  {| m_frequency := m_frequency s; m_sampleRate := m_sampleRate s;
     m_primaryPhase := m_primaryPhase s; m_secondaryPhase := m_secondaryPhase s;
     m_noteOn := m_noteOn s; m_effects := m_effects s;
     m_primaryWaveform := m_primaryWaveform s;
     m_secondaryWaveform := m_secondaryWaveform s; m_envelope := m_envelope s;
     m_activeNotes := m_activeNotes s; m_lfoPhase := m_lfoPhase s;
     m_lfoRateHz := m_lfoRateHz s; m_lfoAmountCents := m_lfoAmountCents s;
     m_noteJitterAmountCents := m_noteJitterAmountCents s; m_noteDetuneCents := v;
     m_waveformTap := m_waveformTap s; m_secondaryEnabled := m_secondaryEnabled s;
     m_secondaryMix := m_secondaryMix s;
     m_secondaryDetuneCents := m_secondaryDetuneCents s;
     m_secondaryOctaveOffset := m_secondaryOctaveOffset s;
     m_pitchBendCents := m_pitchBendCents s; m_lowPassActive := m_lowPassActive s;
     m_lastLowPassCutoff := m_lastLowPassCutoff s;
     randomEngine := randomEngine s |}.

Definition set_m_pitchBendCents (v : float) (s : AudioSystem) : AudioSystem :=
  {| m_frequency := m_frequency s; m_sampleRate := m_sampleRate s;
     m_primaryPhase := m_primaryPhase s; m_secondaryPhase := m_secondaryPhase s;
     m_noteOn := m_noteOn s; m_effects := m_effects s;
     m_primaryWaveform := m_primaryWaveform s;
     m_secondaryWaveform := m_secondaryWaveform s; m_envelope := m_envelope s;
     m_activeNotes := m_activeNotes s; m_lfoPhase := m_lfoPhase s;
     m_lfoRateHz := m_lfoRateHz s; m_lfoAmountCents := m_lfoAmountCents s;
     m_noteJitterAmountCents := m_noteJitterAmountCents s;
     m_noteDetuneCents := m_noteDetuneCents s; m_waveformTap := m_waveformTap s;
     m_secondaryEnabled := m_secondaryEnabled s;
     m_secondaryMix := m_secondaryMix s;
     m_secondaryDetuneCents := m_secondaryDetuneCents s;
     m_secondaryOctaveOffset := m_secondaryOctaveOffset s; m_pitchBendCents := v;
     m_lowPassActive := m_lowPassActive s;
     m_lastLowPassCutoff := m_lastLowPassCutoff s;
     randomEngine := randomEngine s |}.

Definition set_m_lowPassActive (v : bool) (s : AudioSystem) : AudioSystem :=
  {| m_frequency := m_frequency s; m_sampleRate := m_sampleRate s;
     m_primaryPhase := m_primaryPhase s; m_secondaryPhase := m_secondaryPhase s;
     m_noteOn := m_noteOn s; m_effects := m_effects s;
     m_primaryWaveform := m_primaryWaveform s;
     m_secondaryWaveform := m_secondaryWaveform s; m_envelope := m_envelope s;
     m_activeNotes := m_activeNotes s; m_lfoPhase := m_lfoPhase s;
     m_lfoRateHz := m_lfoRateHz s; m_lfoAmountCents := m_lfoAmountCents s;
     m_noteJitterAmountCents := m_noteJitterAmountCents s;
     m_noteDetuneCents := m_noteDetuneCents s; m_waveformTap := m_waveformTap s;
     m_secondaryEnabled := m_secondaryEnabled s;
     m_secondaryMix := m_secondaryMix s;
     m_secondaryDetuneCents := m_secondaryDetuneCents s;
     m_secondaryOctaveOffset := m_secondaryOctaveOffset s;
     m_pitchBendCents := m_pitchBendCents s; m_lowPassActive := v;
     m_lastLowPassCutoff := m_lastLowPassCutoff s;
     randomEngine := randomEngine s |}.

Definition set_m_lastLowPassCutoff (v : float) (s : AudioSystem) : AudioSystem :=
  {| m_frequency := m_frequency s; m_sampleRate := m_sampleRate s;
     m_primaryPhase := m_primaryPhase s; m_secondaryPhase := m_secondaryPhase s;
     m_noteOn := m_noteOn s; m_effects := m_effects s;
     m_primaryWaveform := m_primaryWaveform s;
     m_secondaryWaveform := m_secondaryWaveform s; m_envelope := m_envelope s;
     m_activeNotes := m_activeNotes s; m_lfoPhase := m_lfoPhase s;
     m_lfoRateHz := m_lfoRateHz s; m_lfoAmountCents := m_lfoAmountCents s;
     m_noteJitterAmountCents := m_noteJitterAmountCents s;
     m_noteDetuneCents := m_noteDetuneCents s; m_waveformTap := m_waveformTap s;
     m_secondaryEnabled := m_secondaryEnabled s;
     m_secondaryMix := m_secondaryMix s;
     m_secondaryDetuneCents := m_secondaryDetuneCents s;
     m_secondaryOctaveOffset := m_secondaryOctaveOffset s;
     m_pitchBendCents := m_pitchBendCents s; m_lowPassActive := m_lowPassActive s;
     m_lastLowPassCutoff := v; randomEngine := randomEngine s |}.

Definition set_randomEngine (v : RandomEngine) (s : AudioSystem) : AudioSystem :=
  {| m_frequency := m_frequency s; m_sampleRate := m_sampleRate s;
     m_primaryPhase := m_primaryPhase s; m_secondaryPhase := m_secondaryPhase s;
     m_noteOn := m_noteOn s; m_effects := m_effects s;
     m_primaryWaveform := m_primaryWaveform s;
     m_secondaryWaveform := m_secondaryWaveform s; m_envelope := m_envelope s;
     m_activeNotes := m_activeNotes s; m_lfoPhase := m_lfoPhase s;
     m_lfoRateHz := m_lfoRateHz s; m_lfoAmountCents := m_lfoAmountCents s;
     m_noteJitterAmountCents := m_noteJitterAmountCents s;
     m_noteDetuneCents := m_noteDetuneCents s; m_waveformTap := m_waveformTap s;
     m_secondaryEnabled := m_secondaryEnabled s;
     m_secondaryMix := m_secondaryMix s;
     m_secondaryDetuneCents := m_secondaryDetuneCents s;
     m_secondaryOctaveOffset := m_secondaryOctaveOffset s;
     m_pitchBendCents := m_pitchBendCents s; m_lowPassActive := m_lowPassActive s;
     m_lastLowPassCutoff := m_lastLowPassCutoff s; randomEngine := v |}.

(** The constructor [AudioSystem(sampleRate)]; [rng] is the state of the
    shared generator. *)
Definition construct (sampleRate : float) (rng : RandomEngine) : AudioSystem :=
  let s :=
    {| m_frequency := zero;
       m_sampleRate := if (sampleRate >? zero)%f32 then sampleRate else of_int 44100;
       m_primaryPhase := zero;
       m_secondaryPhase := zero;
       m_noteOn := false;
       m_effects := [];
       m_primaryWaveform := None;
       m_secondaryWaveform := None;
       m_envelope := None;
       m_activeNotes := [];
       m_lfoPhase := zero;
       m_lfoRateHz := dec 35 100;
       m_lfoAmountCents := of_int 4;
       m_noteJitterAmountCents := of_int 3;
       m_noteDetuneCents := zero;
       m_waveformTap := None;
       m_secondaryEnabled := false;
       m_secondaryMix := zero;
       m_secondaryDetuneCents := zero;
       m_secondaryOctaveOffset := 0;
       m_pitchBendCents := zero;
       m_lowPassActive := false;
       m_lastLowPassCutoff := zero;
       randomEngine := rng |} in
  let s := if (sampleRate <=? zero)%f32 then set_m_sampleRate (of_int 44100) s else s in
  let s := set_m_primaryWaveform (Some SquareWave) s in
  let s := set_m_secondaryWaveform (m_primaryWaveform s) s in
  set_m_envelope
    (Some (ADSREnvelope_construct (dec 1 10) (dec 2 10) (dec 7 10) (dec 3 10))) s.

(** The loop of [triggerNote] over the effect chain. *)
Definition retune (newFrequency sampleRate : float) (effect : Effect) : Effect :=
  match effect with
  | EOctave octave =>
      EOctave (Octave.setSampleRate sampleRate (Octave.setFrequency newFrequency octave))
  | EDelay delay => EDelay (Delay.setSampleRate sampleRate delay)
  | ELowPass lp => ELowPass (LowPass.setSampleRate sampleRate lp)
  end.

Definition triggerNote (newFrequency : float) (s : AudioSystem) : AudioSystem :=
  if (newFrequency <=? zero)%f32 || (newFrequency >? of_int 20000)%f32 then s else
  let hadActiveNotes := match m_activeNotes s with [] => false | _ => true end in
  let '(detune, rng) :=
    uniform_real_distribution (- m_noteJitterAmountCents s)%f32
      (m_noteJitterAmountCents s) (randomEngine s) in
  let s := set_randomEngine rng s in
  let s :=
    set_m_activeNotes
      (m_activeNotes s ++ [{| frequency := newFrequency; detuneCents := detune |}]) s in
  let s := set_m_frequency newFrequency s in
  let s := set_m_noteDetuneCents detune s in
  let s := set_m_noteOn true s in
  let s :=
    if hadActiveNotes then s else
    let s := set_m_primaryPhase zero s in
    let s := set_m_secondaryPhase zero s in
    let '(phase, rng) := uniform_real_distribution zero (of_int 1) (randomEngine s) in
    let s := set_randomEngine rng (set_m_lfoPhase phase s) in
    match m_envelope s with
    | Some envelope => set_m_envelope (Some (ADSREnvelope_reset envelope)) s
    | None => s
    end in
  set_m_effects (map (retune newFrequency (m_sampleRate s)) (m_effects s)) s.

(** [std::find_if] from the back and [erase] of what it finds: the last
    element that satisfies [isMatch] is removed. *)
Fixpoint erase_first {A : Type} (isMatch : A -> bool) (l : list A) : list A :=
  match l with
  | [] => []
  | x :: rest => if isMatch x then rest else x :: erase_first isMatch rest
  end.

Definition erase_last {A : Type} (isMatch : A -> bool) (l : list A) : list A :=
  rev (erase_first isMatch (rev l)).

Definition triggerNoteOff (freq : float) (s : AudioSystem) : AudioSystem :=
  if isnan freq then set_m_noteOn false (set_m_activeNotes [] s) else
  let isMatch := fun active : ActiveNote =>
    (abs (frequency active - freq) <? dec 1 1000)%f32 in
  let s := set_m_activeNotes (erase_last isMatch (m_activeNotes s)) s in
  match last (m_activeNotes s) with
  | None => set_m_noteOn false s
  | Some active =>
      let s := set_m_frequency (frequency active) s in
      let s := set_m_noteDetuneCents (detuneCents active) s in
      set_m_noteOn true s
  end.

Definition setLowPassCutoff (cutoffHz : float) (s : AudioSystem) : AudioSystem :=
  let updated :=
    existsb (fun effect => match effect with ELowPass _ => true | _ => false end)
      (m_effects s) in
  let s :=
    set_m_effects
      (map (fun effect =>
              match effect with
              | ELowPass lp => ELowPass (LowPass.setCutoff cutoffHz lp)
              | _ => effect
              end) (m_effects s)) s in
  if updated then set_m_lastLowPassCutoff cutoffHz (set_m_lowPassActive true s)
  else set_m_lastLowPassCutoff zero (set_m_lowPassActive false s).

(** [value] is an [int]; [semitoneRange] is the constant [1.0f]. *)
Definition setPitchBend (value : Z) (s : AudioSystem) : AudioSystem :=
  let clamped := Z.max (-8192) (Z.min 8191 value) in
  let normalized :=
    if 0 <=? clamped then (of_int clamped / of_int 8191)%f32
    else (of_int clamped / of_int 8192)%f32 in
  let semitoneRange := of_int 1 in
  set_m_pitchBendCents (normalized * (semitoneRange * of_int 100))%f32 s.

End WithHost.

(** Specification vocabulary: the cents [setPitchBend] assigns to a clamped
    wheel value. *)
Definition bend_cents (clamped : Z) : float :=
  ((if (0 <=? clamped)%Z then of_int clamped / of_int 8191
    else of_int clamped / of_int 8192) * of_int 100)%f32.

(** A fresh engine at 44100 Hz over the stand-ins, used in the examples. *)
Definition demo_engine : @AudioSystem demo_envelope demo_random :=
  @construct demo_envelope demo_random (of_int 44100) 0%nat.

(** The same engine while the note A4 is held, some samples into the note:
    the phases have advanced and the envelope has left its reset state. *)
Definition demo_engine_held : @AudioSystem demo_envelope demo_random :=
  set_m_primaryPhase (dec 25 100)
    (set_m_secondaryPhase (dec 5 10)
       (set_m_lfoPhase (dec 75 100)
          (@set_m_envelope demo_envelope demo_random (Some false)
             (@triggerNote demo_libm demo_envelope demo_random (of_int 440)
                demo_engine)))).

(** Modelled from the spec: [IWave::generate(frequency, sampleRate, phase)] of
    Waves/, which are not among the sources.  Section 4.1 gives its
    signature: it returns the sample and advances the phase it is handed by
    reference; the result here is the sample and the phase after the call. *)
Class WaveImpl : Type := generate : IWave -> float -> float -> float -> float * float.

(** A stand-in used to evaluate examples only: every generator is the square
    wave of section 4.1 with a phase that advances without wrapping. *)
Definition demo_wave : WaveImpl :=
  fun _ freq sampleRate phase =>
    (if (phase <? dec 1 2)%f32 then of_int 1 else of_int (-1),
     (phase + freq / sampleRate)%f32).

(** Modelled from the spec: the parameter records of
    Effects/EffectParameters.h, which is not among the sources, by their
    dynamic type, with the members [updateEffectParameters] reads;
    [OtherParameters] stands for every other implementation of
    [IEffectParameters]. *)
Inductive IEffectParameters : Type :=
| DelayParameters (delayTime feedback mix : float)
| LowPassParameters (cutoffFreq resonance : float)
| OctaveParameters (octaveShift mix : float)
| OtherParameters.

(** [AudioConfig] (Core/AudioConfig.h). *)
Record AudioConfig : Type := {
  waveform : string;
  effects : list string;
  sampleRate : float;
  bufferFrames : Z;
  midiPort : Z;
  defaultFrequency : float;
  inputMode : string;
  sequenceType : string;
  attackTime : float;
  decayTime : float;
  sustainLevel : float;
  releaseTime : float
}.

(** The default constructor [AudioConfig()]. *)
Definition AudioConfig_default : AudioConfig :=
  {| waveform := "sine";
     effects := [];
     sampleRate := of_int 44100;
     bufferFrames := 512;
     midiPort := 1;
     defaultFrequency := of_int 440;
     inputMode := "midi";
     sequenceType := "demo";
     attackTime := dec 1 10;
     decayTime := dec 2 10;
     sustainLevel := dec 7 10;
     releaseTime := dec 3 10 |}.

(** [std::tolower] in the C locale, and [toLowercase]. *)
Definition tolower (c : Ascii.ascii) : Ascii.ascii :=
  let n := Ascii.nat_of_ascii c in
  if ((65 <=? n) && (n <=? 90))%nat then Ascii.ascii_of_nat (n + 32) else c.

Fixpoint toLowercase (str : string) : string :=
  match str with
  | String.EmptyString => String.EmptyString
  | String.String c rest => String.String (tolower c) (toLowercase rest)
  end.

Section Controls.
Context {libm : LibM} {tanh_impl : LibMTanh} {envelope_impl : EnvelopeImpl}
  {random_impl : RandomImpl} {envelope_process : EnvelopeProcessImpl}
  {wave_impl : WaveImpl} {octave_defaults : OctaveDefaults}.

Definition set_m_lfoRateHz (v : float) (s : AudioSystem) : AudioSystem :=
  {| m_frequency := m_frequency s; m_sampleRate := m_sampleRate s;
     m_primaryPhase := m_primaryPhase s; m_secondaryPhase := m_secondaryPhase s;
     m_noteOn := m_noteOn s; m_effects := m_effects s;
     m_primaryWaveform := m_primaryWaveform s;
     m_secondaryWaveform := m_secondaryWaveform s; m_envelope := m_envelope s;
     m_activeNotes := m_activeNotes s; m_lfoPhase := m_lfoPhase s;
     m_lfoRateHz := v; m_lfoAmountCents := m_lfoAmountCents s;
     m_noteJitterAmountCents := m_noteJitterAmountCents s;
     m_noteDetuneCents := m_noteDetuneCents s; m_waveformTap := m_waveformTap s;
     m_secondaryEnabled := m_secondaryEnabled s;
     m_secondaryMix := m_secondaryMix s;
     m_secondaryDetuneCents := m_secondaryDetuneCents s;
     m_secondaryOctaveOffset := m_secondaryOctaveOffset s;
     m_pitchBendCents := m_pitchBendCents s;
     m_lowPassActive := m_lowPassActive s;
     m_lastLowPassCutoff := m_lastLowPassCutoff s;
     randomEngine := randomEngine s |}.

Definition set_m_lfoAmountCents (v : float) (s : AudioSystem) : AudioSystem :=
  {| m_frequency := m_frequency s; m_sampleRate := m_sampleRate s;
     m_primaryPhase := m_primaryPhase s; m_secondaryPhase := m_secondaryPhase s;
     m_noteOn := m_noteOn s; m_effects := m_effects s;
     m_primaryWaveform := m_primaryWaveform s;
     m_secondaryWaveform := m_secondaryWaveform s; m_envelope := m_envelope s;
     m_activeNotes := m_activeNotes s; m_lfoPhase := m_lfoPhase s;
     m_lfoRateHz := m_lfoRateHz s; m_lfoAmountCents := v;
     m_noteJitterAmountCents := m_noteJitterAmountCents s;
     m_noteDetuneCents := m_noteDetuneCents s; m_waveformTap := m_waveformTap s;
     m_secondaryEnabled := m_secondaryEnabled s;
     m_secondaryMix := m_secondaryMix s;
     m_secondaryDetuneCents := m_secondaryDetuneCents s;
     m_secondaryOctaveOffset := m_secondaryOctaveOffset s;
     m_pitchBendCents := m_pitchBendCents s;
     m_lowPassActive := m_lowPassActive s;
     m_lastLowPassCutoff := m_lastLowPassCutoff s;
     randomEngine := randomEngine s |}.

Definition set_m_noteJitterAmountCents (v : float) (s : AudioSystem) : AudioSystem :=
  {| m_frequency := m_frequency s; m_sampleRate := m_sampleRate s;
     m_primaryPhase := m_primaryPhase s; m_secondaryPhase := m_secondaryPhase s;
     m_noteOn := m_noteOn s; m_effects := m_effects s;
     m_primaryWaveform := m_primaryWaveform s;
     m_secondaryWaveform := m_secondaryWaveform s; m_envelope := m_envelope s;
     m_activeNotes := m_activeNotes s; m_lfoPhase := m_lfoPhase s;
     m_lfoRateHz := m_lfoRateHz s; m_lfoAmountCents := m_lfoAmountCents s;
     m_noteJitterAmountCents := v; m_noteDetuneCents := m_noteDetuneCents s;
     m_waveformTap := m_waveformTap s;
     m_secondaryEnabled := m_secondaryEnabled s;
     m_secondaryMix := m_secondaryMix s;
     m_secondaryDetuneCents := m_secondaryDetuneCents s;
     m_secondaryOctaveOffset := m_secondaryOctaveOffset s;
     m_pitchBendCents := m_pitchBendCents s;
     m_lowPassActive := m_lowPassActive s;
     m_lastLowPassCutoff := m_lastLowPassCutoff s;
     randomEngine := randomEngine s |}.

Definition set_m_waveformTap (v : option nat) (s : AudioSystem) : AudioSystem :=
  {| m_frequency := m_frequency s; m_sampleRate := m_sampleRate s;
     m_primaryPhase := m_primaryPhase s; m_secondaryPhase := m_secondaryPhase s;
     m_noteOn := m_noteOn s; m_effects := m_effects s;
     m_primaryWaveform := m_primaryWaveform s;
     m_secondaryWaveform := m_secondaryWaveform s; m_envelope := m_envelope s;
     m_activeNotes := m_activeNotes s; m_lfoPhase := m_lfoPhase s;
     m_lfoRateHz := m_lfoRateHz s; m_lfoAmountCents := m_lfoAmountCents s;
     m_noteJitterAmountCents := m_noteJitterAmountCents s;
     m_noteDetuneCents := m_noteDetuneCents s; m_waveformTap := v;
     m_secondaryEnabled := m_secondaryEnabled s;
     m_secondaryMix := m_secondaryMix s;
     m_secondaryDetuneCents := m_secondaryDetuneCents s;
     m_secondaryOctaveOffset := m_secondaryOctaveOffset s;
     m_pitchBendCents := m_pitchBendCents s;
     m_lowPassActive := m_lowPassActive s;
     m_lastLowPassCutoff := m_lastLowPassCutoff s;
     randomEngine := randomEngine s |}.

Definition set_m_secondaryEnabled (v : bool) (s : AudioSystem) : AudioSystem :=
  {| m_frequency := m_frequency s; m_sampleRate := m_sampleRate s;
     m_primaryPhase := m_primaryPhase s; m_secondaryPhase := m_secondaryPhase s;
     m_noteOn := m_noteOn s; m_effects := m_effects s;
     m_primaryWaveform := m_primaryWaveform s;
     m_secondaryWaveform := m_secondaryWaveform s; m_envelope := m_envelope s;
     m_activeNotes := m_activeNotes s; m_lfoPhase := m_lfoPhase s;
     m_lfoRateHz := m_lfoRateHz s; m_lfoAmountCents := m_lfoAmountCents s;
     m_noteJitterAmountCents := m_noteJitterAmountCents s;
     m_noteDetuneCents := m_noteDetuneCents s; m_waveformTap := m_waveformTap s;
     m_secondaryEnabled := v; m_secondaryMix := m_secondaryMix s;
     m_secondaryDetuneCents := m_secondaryDetuneCents s;
     m_secondaryOctaveOffset := m_secondaryOctaveOffset s;
     m_pitchBendCents := m_pitchBendCents s;
     m_lowPassActive := m_lowPassActive s;
     m_lastLowPassCutoff := m_lastLowPassCutoff s;
     randomEngine := randomEngine s |}.

Definition set_m_secondaryMix (v : float) (s : AudioSystem) : AudioSystem :=
  {| m_frequency := m_frequency s; m_sampleRate := m_sampleRate s;
     m_primaryPhase := m_primaryPhase s; m_secondaryPhase := m_secondaryPhase s;
     m_noteOn := m_noteOn s; m_effects := m_effects s;
     m_primaryWaveform := m_primaryWaveform s;
     m_secondaryWaveform := m_secondaryWaveform s; m_envelope := m_envelope s;
     m_activeNotes := m_activeNotes s; m_lfoPhase := m_lfoPhase s;
     m_lfoRateHz := m_lfoRateHz s; m_lfoAmountCents := m_lfoAmountCents s;
     m_noteJitterAmountCents := m_noteJitterAmountCents s;
     m_noteDetuneCents := m_noteDetuneCents s; m_waveformTap := m_waveformTap s;
     m_secondaryEnabled := m_secondaryEnabled s; m_secondaryMix := v;
     m_secondaryDetuneCents := m_secondaryDetuneCents s;
     m_secondaryOctaveOffset := m_secondaryOctaveOffset s;
     m_pitchBendCents := m_pitchBendCents s;
     m_lowPassActive := m_lowPassActive s;
     m_lastLowPassCutoff := m_lastLowPassCutoff s;
     randomEngine := randomEngine s |}.

Definition set_m_secondaryDetuneCents (v : float) (s : AudioSystem) : AudioSystem :=
  {| m_frequency := m_frequency s; m_sampleRate := m_sampleRate s;
     m_primaryPhase := m_primaryPhase s; m_secondaryPhase := m_secondaryPhase s;
     m_noteOn := m_noteOn s; m_effects := m_effects s;
     m_primaryWaveform := m_primaryWaveform s;
     m_secondaryWaveform := m_secondaryWaveform s; m_envelope := m_envelope s;
     m_activeNotes := m_activeNotes s; m_lfoPhase := m_lfoPhase s;
     m_lfoRateHz := m_lfoRateHz s; m_lfoAmountCents := m_lfoAmountCents s;
     m_noteJitterAmountCents := m_noteJitterAmountCents s;
     m_noteDetuneCents := m_noteDetuneCents s; m_waveformTap := m_waveformTap s;
     m_secondaryEnabled := m_secondaryEnabled s;
     m_secondaryMix := m_secondaryMix s; m_secondaryDetuneCents := v;
     m_secondaryOctaveOffset := m_secondaryOctaveOffset s;
     m_pitchBendCents := m_pitchBendCents s;
     m_lowPassActive := m_lowPassActive s;
     m_lastLowPassCutoff := m_lastLowPassCutoff s;
     randomEngine := randomEngine s |}.

Definition set_m_secondaryOctaveOffset (v : Z) (s : AudioSystem) : AudioSystem :=
  {| m_frequency := m_frequency s; m_sampleRate := m_sampleRate s;
     m_primaryPhase := m_primaryPhase s; m_secondaryPhase := m_secondaryPhase s;
     m_noteOn := m_noteOn s; m_effects := m_effects s;
     m_primaryWaveform := m_primaryWaveform s;
     m_secondaryWaveform := m_secondaryWaveform s; m_envelope := m_envelope s;
     m_activeNotes := m_activeNotes s; m_lfoPhase := m_lfoPhase s;
     m_lfoRateHz := m_lfoRateHz s; m_lfoAmountCents := m_lfoAmountCents s;
     m_noteJitterAmountCents := m_noteJitterAmountCents s;
     m_noteDetuneCents := m_noteDetuneCents s; m_waveformTap := m_waveformTap s;
     m_secondaryEnabled := m_secondaryEnabled s;
     m_secondaryMix := m_secondaryMix s;
     m_secondaryDetuneCents := m_secondaryDetuneCents s;
     m_secondaryOctaveOffset := v; m_pitchBendCents := m_pitchBendCents s;
     m_lowPassActive := m_lowPassActive s;
     m_lastLowPassCutoff := m_lastLowPassCutoff s;
     randomEngine := randomEngine s |}.

(** [waveform] is [None] for an empty [shared_ptr]. *)
Definition setWaveform (waveform : option IWave) (s : AudioSystem) : AudioSystem :=
  match waveform with
  | Some _ => set_m_secondaryWaveform waveform (set_m_primaryWaveform waveform s)
  | None => s
  end.

Definition setSecondaryWaveform (waveform : option IWave) (s : AudioSystem)
  : AudioSystem :=
  match waveform with
  | Some _ => set_m_secondaryWaveform waveform s
  | None => s
  end.

(** The body of the loop of [configure] over [config.effects]. *)
Definition configure_effect (s : AudioSystem) (name : string) : AudioSystem :=
  let effectLower := toLowercase name in
  if (effectLower =? "octave")%string then
    let eff := Octave.construct octave_default_higher octave_default_blend in
    set_m_effects (m_effects s ++ [EOctave eff]) s
  else if ((effectLower =? "delay") || (effectLower =? "echo"))%string then
    let eff := Delay.construct (dec 3 10) (dec 5 10) (dec 5 10) (m_sampleRate s) in
    set_m_effects (m_effects s ++ [EDelay eff]) s
  else if ((effectLower =? "lowpass") || (effectLower =? "lpf")
           || (effectLower =? "filter"))%string then
    let eff := LowPass.construct (of_int 1000) (m_sampleRate s) (dec 9 10) (of_int 1) in
    let s := set_m_effects (m_effects s ++ [ELowPass eff]) s in
    let s := set_m_lowPassActive true s in
    set_m_lastLowPassCutoff (LowPass.m_cutoff eff) s
  else s.

Definition configure (config : AudioConfig) (s : AudioSystem) : AudioSystem :=
  let waveformLower := toLowercase (waveform config) in
  let primary :=
    if (waveformLower =? "sine")%string then SineWave
    else if ((waveformLower =? "sawtooth") || (waveformLower =? "saw"))%string
    then SawtoothWave
    else if ((waveformLower =? "triangle") || (waveformLower =? "tri"))%string
    then TriangleWave
    else if ((waveformLower =? "square") || (waveformLower =? ""))%string
    then SquareWave
    else SquareWave in
  let s := set_m_primaryWaveform (Some primary) s in
  let s := set_m_secondaryWaveform (m_primaryWaveform s) s in
  let s := set_m_effects [] s in
  let s := set_m_lowPassActive false s in
  let s := set_m_lastLowPassCutoff zero s in
  let s := foldl configure_effect s (effects config) in
  match m_envelope s with
  | Some _ =>
      set_m_envelope
        (Some (ADSREnvelope_construct (attackTime config) (decayTime config)
                 (sustainLevel config) (releaseTime config))) s
  | None => s
  end.

(** [effect->process(stereoSample)] and [effect->reset()], by dynamic type. *)
Definition process_effect (stereoSample : float * float) (effect : Effect)
  : (float * float) * Effect :=
  match effect with
  | EOctave octave =>
      let '(out, octave) := Octave.process stereoSample octave in (out, EOctave octave)
  | EDelay delay =>
      let '(out, delay) := Delay.process stereoSample delay in (out, EDelay delay)
  | ELowPass lp =>
      let '(out, lp) := LowPass.process stereoSample lp in (out, ELowPass lp)
  end.

Definition reset_effect (effect : Effect) : Effect :=
  match effect with
  | EOctave octave => EOctave (Octave.reset octave)
  | EDelay delay => EDelay (Delay.reset delay)
  | ELowPass lp => ELowPass (LowPass.reset lp)
  end.

(** [applyEffects]: the sample after the chain and the chain after the
    call. *)
Fixpoint applyEffects_chain (stereoSample : float * float) (chain : list Effect)
  : (float * float) * list Effect :=
  match chain with
  | [] => (stereoSample, [])
  | effect :: rest =>
      let '(stereoSample, effect) := process_effect stereoSample effect in
      let '(out, rest) := applyEffects_chain stereoSample rest in
      (out, effect :: rest)
  end.

Definition applyEffects (stereoSample : float * float) (s : AudioSystem)
  : (float * float) * AudioSystem :=
  let '(out, chain) := applyEffects_chain stereoSample (m_effects s) in
  (out, set_m_effects chain s).

(** [twoPi = 6.28318530717958647692f]. *)
Definition twoPi : float := S754_finite false 13176795 (-21).

(** The oscillator part of [getNextSample], entered when the envelope level
    is positive: the sample before the envelope is applied, and the engine
    with its phases advanced. *)
Definition oscillators (s : AudioSystem) (primary : IWave) : float * AudioSystem :=
  let '(modulatedFrequency, s) :=
    if (m_frequency s >? zero)%f32 then
      let lfoValue := sin (twoPi * m_lfoPhase s)%f32 in
      let totalDetuneCents :=
        (m_noteDetuneCents s + lfoValue * m_lfoAmountCents s + m_pitchBendCents s)%f32 in
      let detuneRatio := pow (of_int 2) (totalDetuneCents / of_int 1200)%f32 in
      let modulatedFrequency := (m_frequency s * detuneRatio)%f32 in
      let s := set_m_lfoPhase (m_lfoPhase s + m_lfoRateHz s / m_sampleRate s)%f32 s in
      let s :=
        if (m_lfoPhase s >=? of_int 1)%f32
        then set_m_lfoPhase (m_lfoPhase s - floor (m_lfoPhase s))%f32 s else s in
      (modulatedFrequency, s)
    else (m_frequency s, s) in
  let '(primarySample, phase) :=
    generate primary modulatedFrequency (m_sampleRate s) (m_primaryPhase s) in
  let s := set_m_primaryPhase phase s in
  let '(secondarySample, s) :=
    match m_secondaryWaveform s with
    | Some secondary =>
        if m_secondaryEnabled s && (m_secondaryMix s >? zero)%f32 then
          let detuneRatio :=
            pow (of_int 2) (F32.max (m_secondaryDetuneCents s) zero / of_int 1200)%f32 in
          let octaveRatio := pow (of_int 2) (of_int (m_secondaryOctaveOffset s)) in
          let secondaryFrequency := (modulatedFrequency * detuneRatio * octaveRatio)%f32 in
          let '(sample, phase) :=
            generate secondary secondaryFrequency (m_sampleRate s) (m_secondaryPhase s) in
          (sample, set_m_secondaryPhase phase s)
        else (zero, s)
    | None => (zero, s)
    end in
  let dryAmount := F32.max zero (of_int 1 - m_secondaryMix s)%f32 in
  ((primarySample * dryAmount + secondarySample * m_secondaryMix s)%f32, s).

(** [getNextSample]: [heap] holds the ring buffer at each address, of which
    the engine knows [m_waveformTap]; the result is the stereo sample, the
    engine and the heap after the call. *)
Definition getNextSample (heap : nat -> RingBuffer.StereoSampleRingBuffer)
  (s : AudioSystem)
  : (float * float) * AudioSystem * (nat -> RingBuffer.StereoSampleRingBuffer) :=
  match m_primaryWaveform s with
  | None => ((zero, zero), s, heap)
  | Some primary =>
      let '(envelopeLevel, s) :=
        match m_envelope s with
        | Some envelope =>
            let '(level, envelope) :=
              ADSREnvelope_process (m_noteOn s) (m_sampleRate s) envelope in
            (level, set_m_envelope (Some envelope) s)
        | None => (zero, s)
        end in
      let '(sample, s) :=
        if (envelopeLevel >? zero)%f32 then
          let '(sample, s) := oscillators s primary in
          ((sample * envelopeLevel)%f32, s)
        else (zero, s) in
      let '(stereoSample, s) := applyEffects (sample, sample) s in
      let heap :=
        match m_waveformTap s with
        | Some tap => alter (RingBuffer.push stereoSample.1 stereoSample.2) tap heap
        | None => heap
        end in
      (stereoSample, s, heap)
  end.

Definition resetEffects (s : AudioSystem) : AudioSystem :=
  set_m_effects (map reset_effect (m_effects s)) s.

Definition clearEffects (s : AudioSystem) : AudioSystem :=
  let s := resetEffects s in
  let s := set_m_effects [] s in
  let s := set_m_lowPassActive false s in
  set_m_lastLowPassCutoff zero s.

(** The loop of [updateEffectParameters]: [None] when it runs to its end,
    otherwise the chain at the [return true], with the cutoff to record when
    the effect updated is a low-pass filter. *)
Fixpoint update_chain (effectLower : string) (parameters : IEffectParameters)
  (chain : list Effect) : option (list Effect * option float) :=
  match chain with
  | [] => None
  | effect :: rest =>
      let next :=
        match update_chain effectLower parameters rest with
        | Some (rest, cutoff) => Some (effect :: rest, cutoff)
        | None => None
        end in
      if ((effectLower =? "delay") || (effectLower =? "echo"))%string then
        match effect, parameters with
        | EDelay delayEffect, DelayParameters delayTime feedback mix =>
            let delayEffect := Delay.setDelayTime delayTime delayEffect in
            let delayEffect := Delay.setFeedback feedback delayEffect in
            let delayEffect := Delay.setMix mix delayEffect in
            Some (EDelay delayEffect :: rest, None)
        | _, _ => next
        end
      else if ((effectLower =? "lowpass") || (effectLower =? "lpf")
               || (effectLower =? "filter"))%string then
        match effect, parameters with
        | ELowPass lowPassEffect, LowPassParameters cutoffFreq resonance =>
            let lowPassEffect := LowPass.setCutoff cutoffFreq lowPassEffect in
            let lowPassEffect := LowPass.setResonance resonance lowPassEffect in
            Some (ELowPass lowPassEffect :: rest, Some cutoffFreq)
        | _, _ => next
        end
      else if (effectLower =? "octave")%string then
        match effect, parameters with
        | EOctave octaveEffect, OctaveParameters octaveShift mix =>
            let higher := (octaveShift >? of_int 1)%f32 in
            let octaveEffect := Octave.setHigher higher octaveEffect in
            let octaveEffect := Octave.setBlend mix octaveEffect in
            Some (EOctave octaveEffect :: rest, None)
        | _, _ => next
        end
      else next
  end.

Definition updateEffectParameters (effectName : string)
  (parameters : IEffectParameters) (s : AudioSystem) : bool * AudioSystem :=
  let effectLower := toLowercase effectName in
  match update_chain effectLower parameters (m_effects s) with
  | Some (chain, cutoff) =>
      let s := set_m_effects chain s in
      let s :=
        match cutoff with
        | Some cutoffFreq =>
            set_m_lastLowPassCutoff cutoffFreq (set_m_lowPassActive true s)
        | None => s
        end in
      (true, s)
  | None => (false, s)
  end.

Definition updateADSRParameters (attackTime decayTime sustainLevel releaseTime : float)
  (s : AudioSystem) : AudioSystem :=
  set_m_envelope
    (Some (ADSREnvelope_construct attackTime decayTime sustainLevel releaseTime)) s.

Definition setDriftParameters (rateHz amountCents jitterCents : float)
  (s : AudioSystem) : AudioSystem :=
  let s := set_m_lfoRateHz (F32.max rateHz zero) s in
  let s := set_m_lfoAmountCents (F32.max amountCents zero) s in
  set_m_noteJitterAmountCents (F32.max jitterCents zero) s.

Definition setWaveformTapBuffer (tap : option nat) (s : AudioSystem) : AudioSystem :=
  set_m_waveformTap tap s.

Definition getLowPassCutoff (s : AudioSystem) : float :=
  if m_lowPassActive s then m_lastLowPassCutoff s else zero.

Definition hasLowPassEffect (s : AudioSystem) : bool := m_lowPassActive s.

(** [octaveOffset] is an [int]. *)
Definition configureSecondaryOscillator (enabled : bool) (mix detuneCents : float)
  (octaveOffset : Z) (s : AudioSystem) : AudioSystem :=
  let s := set_m_secondaryEnabled enabled s in
  if negb enabled then
    let s := set_m_secondaryMix zero s in
    let s := set_m_secondaryDetuneCents zero s in
    let s := set_m_secondaryOctaveOffset 0 s in
    set_m_secondaryPhase zero s
  else
    let s := set_m_secondaryMix (F32.max zero (F32.min (of_int 1) mix)) s in
    let s := set_m_secondaryDetuneCents (F32.max detuneCents zero) s in
    set_m_secondaryOctaveOffset (Z.max (-2) (Z.min 2 octaveOffset)) s.

(** Specification vocabulary: the ring buffers in memory, the calls a client
    can make on an engine, and a run of them.  A call to [triggerNoteOff()]
    without an argument is [CallTriggerNoteOff nan], its default argument.
    [addEffect] is not among the calls: it tells effects apart by the address
    they are shared at, and the chain here holds them by value. *)
Definition Heap : Type := nat -> RingBuffer.StereoSampleRingBuffer.

Inductive Call : Type :=
| CallSetWaveform (waveform : option IWave)
| CallConfigure (config : AudioConfig)
| CallTriggerNote (newFrequency : float)
| CallTriggerNoteOff (freq : float)
| CallGetNextSample
| CallResetEffects
| CallClearEffects
| CallUpdateEffectParameters (effectName : string) (parameters : IEffectParameters)
| CallUpdateADSRParameters (attackTime decayTime sustainLevel releaseTime : float)
| CallSetDriftParameters (rateHz amountCents jitterCents : float)
| CallSetWaveformTapBuffer (tap : option nat)
| CallSetLowPassCutoff (cutoffHz : float)
| CallConfigureSecondaryOscillator (enabled : bool) (mix detuneCents : float)
    (octaveOffset : Z)
| CallSetSecondaryWaveform (waveform : option IWave)
| CallSetPitchBend (value : Z).

Definition apply_call (st : AudioSystem * Heap) (call : Call) : AudioSystem * Heap :=
  let '(s, heap) := st in
  match call with
  | CallSetWaveform waveform => (setWaveform waveform s, heap)
  | CallConfigure config => (configure config s, heap)
  | CallTriggerNote newFrequency => (triggerNote newFrequency s, heap)
  | CallTriggerNoteOff freq => (triggerNoteOff freq s, heap)
  | CallGetNextSample =>
      let '(_, s, heap) := getNextSample heap s in (s, heap)
  | CallResetEffects => (resetEffects s, heap)
  | CallClearEffects => (clearEffects s, heap)
  | CallUpdateEffectParameters effectName parameters =>
      ((updateEffectParameters effectName parameters s).2, heap)
  | CallUpdateADSRParameters attackTime decayTime sustainLevel releaseTime =>
      (updateADSRParameters attackTime decayTime sustainLevel releaseTime s, heap)
  | CallSetDriftParameters rateHz amountCents jitterCents =>
      (setDriftParameters rateHz amountCents jitterCents s, heap)
  | CallSetWaveformTapBuffer tap => (setWaveformTapBuffer tap s, heap)
  | CallSetLowPassCutoff cutoffHz => (setLowPassCutoff cutoffHz s, heap)
  | CallConfigureSecondaryOscillator enabled mix detuneCents octaveOffset =>
      (configureSecondaryOscillator enabled mix detuneCents octaveOffset s, heap)
  | CallSetSecondaryWaveform waveform => (setSecondaryWaveform waveform s, heap)
  | CallSetPitchBend value => (setPitchBend value s, heap)
  end.

Definition run_calls (calls : list Call) (st : AudioSystem * Heap)
  : AudioSystem * Heap :=
  foldl apply_call st calls.

(** Specification vocabulary: the engine's record of the held notes agrees
    with its note flag and its current note. *)
Definition notes_consistent (s : AudioSystem) : Prop :=
  match last (m_activeNotes s) with
  | Some active =>
      m_noteOn s = true /\ m_frequency s = frequency active
      /\ m_noteDetuneCents s = detuneCents active
  | None => m_noteOn s = false
  end.

(** Specification vocabulary: the dynamic type of an entry of the chain. *)
Definition is_low_pass (effect : Effect) : bool :=
  match effect with ELowPass _ => true | _ => false end.

(** Specification vocabulary: the settings of the secondary oscillator, the
    drift and the pitch bend lie in the ranges the setters normalise to. *)
Definition settings_in_range (s : AudioSystem) : Prop :=
  ((zero <=? m_secondaryMix s)%f32 = true /\ (m_secondaryMix s <=? of_int 1)%f32 = true)
  /\ -2 <= m_secondaryOctaveOffset s <= 2
  /\ (m_secondaryDetuneCents s <? zero)%f32 = false
  /\ (m_lfoRateHz s <? zero)%f32 = false
  /\ (m_lfoAmountCents s <? zero)%f32 = false
  /\ (m_noteJitterAmountCents s <? zero)%f32 = false
  /\ ((of_int (-100) <=? m_pitchBendCents s)%f32 = true
      /\ (m_pitchBendCents s <=? of_int 100)%f32 = true).

(** Specification vocabulary: the low-pass flag agrees with the chain, and the
    engine has its oscillators and its envelope. *)
Definition low_pass_flag_ok (s : AudioSystem) : Prop :=
  m_lowPassActive s = existsb is_low_pass (m_effects s).

Definition engine_ready (s : AudioSystem) : Prop :=
  is_Some (m_primaryWaveform s) /\ is_Some (m_secondaryWaveform s)
  /\ is_Some (m_envelope s).

(** Specification vocabulary: the samples that [n] calls of [getNextSample]
    return, with the engine and the heap they leave. *)
Fixpoint render (n : nat) (s : AudioSystem) (heap : Heap)
  : list (float * float) * AudioSystem * Heap :=
  match n with
  | O => ([], s, heap)
  | S n' =>
      let '(stereoSample, s, heap) := getNextSample heap s in
      let '(rest, s, heap) := render n' s heap in
      (stereoSample :: rest, s, heap)
  end.

(** Specification vocabulary: the dynamic types of effects and of parameter
    records, the type an effect name stands for, and the effect [configure]
    builds for it at a sample rate. *)
Inductive EffectKind : Type := KOctave | KDelay | KLowPass.

#[global] Instance EffectKind_eq_dec : EqDecision EffectKind.
Proof. solve_decision. Defined.

Definition effect_kind (effect : Effect) : EffectKind :=
  match effect with
  | EOctave _ => KOctave
  | EDelay _ => KDelay
  | ELowPass _ => KLowPass
  end.

Definition parameters_kind (parameters : IEffectParameters) : option EffectKind :=
  match parameters with
  | DelayParameters _ _ _ => Some KDelay
  | LowPassParameters _ _ => Some KLowPass
  | OctaveParameters _ _ => Some KOctave
  | OtherParameters => None
  end.

Definition kind_of_name (name : string) : option EffectKind :=
  let lower := toLowercase name in
  if (lower =? "octave")%string then Some KOctave
  else if ((lower =? "delay") || (lower =? "echo"))%string then Some KDelay
  else if ((lower =? "lowpass") || (lower =? "lpf") || (lower =? "filter"))%string
  then Some KLowPass
  else None.

Definition default_effect (sampleRate : float) (kind : EffectKind) : Effect :=
  match kind with
  | KOctave => EOctave (Octave.construct octave_default_higher octave_default_blend)
  | KDelay => EDelay (Delay.construct (dec 3 10) (dec 5 10) (dec 5 10) sampleRate)
  | KLowPass => ELowPass (LowPass.construct (of_int 1000) sampleRate (dec 9 10) (of_int 1))
  end.

End Controls.

End Engine.

(** ** [AudioDevice]: the audio callback *)
Module AudioDevice.
Import F32 Cmath Host Engine.

(** [unsigned int] arithmetic wraps at 32 bits. *)
Definition UInt_modulus : Z := 2 ^ 32.
Definition UInt_wrap (z : Z) : Z := z mod UInt_modulus.

Section WithHost.
Context {libm : LibM} {tanh_impl : LibMTanh} {envelope_impl : EnvelopeImpl}
  {random_impl : RandomImpl} {envelope_process : EnvelopeProcessImpl}
  {wave_impl : WaveImpl} {octave_defaults : OctaveDefaults}.

(** The loop of [audioCallback]: [n] iterations are left and the loop
    variable is [i].  [buffer] is the output buffer of the stream; a write
    past its end is outside the model and leaves it as it is. *)
Fixpoint audioCallback_loop (n : nat) (i : Z) (buffer : list float)
  (s : AudioSystem) (heap : Heap) : list float * AudioSystem * Heap :=
  match n with
  | O => (buffer, s, heap)
  | S n' =>
      let '(stereoSample, s, heap) := getNextSample heap s in
      let buffer := <[Z.to_nat (UInt_wrap (2 * i)) := stereoSample.1]> buffer in
      let buffer :=
        <[Z.to_nat (UInt_wrap (UInt_wrap (2 * i) + 1)) := stereoSample.2]> buffer in
      audioCallback_loop n' (UInt_wrap (i + 1)) buffer s heap
  end.

(** [audioCallback(outputBuffer, inputBuffer, nBufferFrames, ...)] on the
    device's engine: the value returned, and the buffer, the engine and the
    heap after the call. *)
Definition audioCallback (outputBuffer : list float) (nBufferFrames : Z)
  (s : AudioSystem) (heap : Heap) : Z * (list float * AudioSystem * Heap) :=
  (0, audioCallback_loop (Z.to_nat nBufferFrames) 0 outputBuffer s heap).

End WithHost.

End AudioDevice.

(** ** [AudioSystemAdapter]: MIDI events to engine calls *)
Module Midi.
Import F32 Cmath Host Engine.

(** Modelled from the spec: the event record of Midi/MidiDevice.h, which is
    not among the sources; section 4.9 names the four event types the adapter
    distinguishes and the payload it reads ([data1], [data2] as bytes, [value]
    as the signed pitch-bend amount).  [OTHER] stands for every remaining
    type. *)
Inductive MidiEventType : Type :=
  NOTE_ON | NOTE_OFF | PITCH_BEND | CONTROL_CHANGE | OTHER.

Record MidiEvent : Type := {
  type : MidiEventType;
  data1 : Z;
  data2 : Z;
  value : Z
}.

(** The table of Common/notes.h, which is not among the sources. *)
Class NoteTable : Type := MIDI_NOTE_FREQUENCIES : list float.

(** A stand-in used to evaluate examples only: 128 entries that are exact at
    notes 57 (A3, 220 Hz) and 69 (A4, 440 Hz), the two notes the examples
    read; the other entries are placeholders. *)
Definition demo_table : NoteTable :=
  replicate 57 (of_int 110) ++ [of_int 220] ++ replicate 11 (of_int 330)
    ++ [of_int 440] ++ replicate 58 (of_int 880).

Section WithHost.
Context {libm : LibM} {envelope_impl : EnvelopeImpl} {random_impl : RandomImpl}
  {table : NoteTable}.

(** [update(params)]: [params] is [None] for a null pointer, and the result is
    [None] when the call throws [std::invalid_argument]. *)
Definition update (params : option MidiEvent) (sys : AudioSystem)
  : option AudioSystem :=
  match params with
  | None => None
  | Some event =>
      match type event with
      | NOTE_ON =>
          let noteNumber := data1 event in
          if noteNumber <? Z.of_nat (length MIDI_NOTE_FREQUENCIES) then
            Some (triggerNote (MIDI_NOTE_FREQUENCIES !!! Z.to_nat noteNumber) sys)
          else Some sys
      | NOTE_OFF =>
          let noteNumber := data1 event in
          if noteNumber <? Z.of_nat (length MIDI_NOTE_FREQUENCIES) then
            Some (triggerNoteOff (MIDI_NOTE_FREQUENCIES !!! Z.to_nat noteNumber) sys)
          else Some (triggerNoteOff nan sys)
      | PITCH_BEND => Some (setPitchBend (value event) sys)
      | CONTROL_CHANGE =>
          if data1 event =? 7 then
            let minCutoff := of_int 80 in
            let maxCutoff := of_int 12000 in
            let normalized := (of_int (data2 event) / of_int 127)%f32 in
            let ratio := (maxCutoff / minCutoff)%f32 in
            let cutoff := (minCutoff * pow ratio normalized)%f32 in
            Some (setLowPassCutoff cutoff sys)
          else Some sys
      | OTHER => Some sys
      end
  end.

End WithHost.

End Midi.

(** ** [Subject]: the list of observers *)
Module Observer.

(** An [IObserver*]: [None] for [nullptr], otherwise the address of the
    observer. *)
Definition IObserverPtr : Type := option nat.

Definition attach (observer : IObserverPtr) (observers : list IObserverPtr)
  : list IObserverPtr :=
  match observer with
  | None => observers
  | Some _ =>
      if bool_decide (observer ∈ observers) then observers else observers ++ [observer]
  end.

(** [std::remove] and [erase]: every entry equal to [observer] goes. *)
Definition detach (observer : IObserverPtr) (observers : list IObserverPtr)
  : list IObserverPtr :=
  match observer with
  | None => observers
  | Some _ => filter (fun entry => entry <> observer) observers
  end.

(** [notify(params)]: the calls [observer->update(params)] it makes, in
    order, each given by the address of the observer and the argument. *)
Fixpoint notify {Params : Type} (params : Params) (observers : list IObserverPtr)
  : list (nat * Params) :=
  match observers with
  | [] => []
  | Some observer :: rest => (observer, params) :: notify params rest
  | None :: rest => notify params rest
  end.

(** Specification vocabulary: the calls a client can make on a subject, and a
    run of them on the observer list. *)
Inductive Op : Type :=
| OpAttach (observer : IObserverPtr)
| OpDetach (observer : IObserverPtr).

Definition apply_op (observers : list IObserverPtr) (op : Op) : list IObserverPtr :=
  match op with
  | OpAttach observer => attach observer observers
  | OpDetach observer => detach observer observers
  end.

Definition run (ops : list Op) (observers : list IObserverPtr) : list IObserverPtr :=
  foldl apply_op observers ops.

End Observer.

(** ** [AudioSystemWrapper]: the N-API methods that track notes and read the
    tap *)
Module Wrapper.
Import F32 Cmath Host Engine.

(** A JavaScript value handed to a native method: only numbers are looked
    into. *)
Inductive JsValue : Type :=
| JsNumber (value : F64.double)
| JsString (value : string)
| JsBoolean (value : bool)
| JsUndefined.

(** What a method returns to JavaScript: [env.Undefined()], [env.Null()] with
    a pending [TypeError], or a [Float32Array]. *)
Inductive NapiValue : Type :=
| Undefined
| TypeError (message : string)
| Float32Array (data : list float).

(** [Napi::Number::FloatValue()]. *)
Definition FloatValue (value : F64.double) : float := F64.to_f32 value.

Section WithHost.
Context {libm : LibM} {envelope_impl : EnvelopeImpl} {random_impl : RandomImpl}.

(** The members these methods use; [m_waveformBuffer] is the address of the
    ring buffer the wrapper owns, [None] when it has none. *)
Record AudioSystemWrapper : Type := {
  m_waveformBuffer : option nat;
  m_audioSystem : AudioSystem;
  m_currentFrequency : float;
  m_activeFrequencies : list float
}.

Definition TriggerNote (info : list JsValue) (w : AudioSystemWrapper)
  : NapiValue * AudioSystemWrapper :=
  match info with
  | JsNumber value :: _ =>
      let currentFrequency := FloatValue value in
      (Undefined,
       {| m_waveformBuffer := m_waveformBuffer w;
          m_audioSystem := triggerNote currentFrequency (m_audioSystem w);
          m_currentFrequency := currentFrequency;
          m_activeFrequencies := m_activeFrequencies w ++ [currentFrequency] |})
  | _ => (TypeError "Number expected for frequency", w)
  end.

Definition TriggerNoteOff (info : list JsValue) (w : AudioSystemWrapper)
  : NapiValue * AudioSystemWrapper :=
  let frequency :=
    match info with
    | JsNumber value :: _ => FloatValue value
    | _ =>
        match last (m_activeFrequencies w) with
        | Some back => back
        | None => nan
        end
    end in
  let activeFrequencies :=
    if negb (isnan frequency) then
      let matcher := fun active : float => (abs (active - frequency) <? dec 1 1000)%f32 in
      erase_last matcher (m_activeFrequencies w)
    else [] in
  let audioSystem := triggerNoteOff frequency (m_audioSystem w) in
  (Undefined,
   {| m_waveformBuffer := m_waveformBuffer w;
      m_audioSystem := audioSystem;
      m_currentFrequency :=
        match activeFrequencies with [] => zero | _ => m_currentFrequency w end;
      m_activeFrequencies := activeFrequencies |}).

(** The argument of [GetRecentWaveform] as the method reads it: the number
    of frames asked for, or the [TypeError] for an argument that is not a
    number; [None] when the argument is a number that the cast to
    [std::size_t] is undefined for. *)
Definition parse_maxFrames (info : list JsValue) : option (string + Z) :=
  match info with
  | [] => Some (inr 1024)
  | JsNumber value :: _ =>
      if F64.leb value F64.zero then Some (inr 0)
      else inr <$> F64.to_size_t value
  | _ :: _ => Some (inl "Number expected for maxFrames")
  end.

(** [GetRecentWaveform]: [heap] holds the ring buffers in memory.  The result
    is [None] where the call runs into the undefined cast, about which the
    model says nothing. *)
Definition GetRecentWaveform (info : list JsValue) (w : AudioSystemWrapper)
  (heap : nat -> RingBuffer.StereoSampleRingBuffer) : option NapiValue :=
  match m_waveformBuffer w with
  | None => Some (Float32Array [])
  | Some buffer =>
      match parse_maxFrames info with
      | None => None
      | Some (inl message) => Some (TypeError message)
      | Some (inr requestedFrames) =>
          let capacity := RingBuffer.capacityFrames (heap buffer) in
          let available := RingBuffer.availableFrames (heap buffer) in
          let framesToCopy := SizeT.min requestedFrames capacity in
          let framesToCopy := SizeT.min framesToCopy available in
          let result := replicate (Z.to_nat (SizeT.mul framesToCopy 2)) zero in
          if framesToCopy =? 0 then Some (Float32Array result) else
          match (RingBuffer.copyLatestInterleaved (Some result) framesToCopy
                   (heap buffer)).2 with
          | Some data => Some (Float32Array data)
          | None => Some (Float32Array result)
          end
      end
  end.

(** Specification vocabulary: the note calls JavaScript can make and a run of
    them; the wrapper's list of frequencies mirrors the engine's held notes;
    a [triggerNote] whose argument the engine does not refuse. *)
Inductive Op : Type :=
| OpTriggerNote (info : list JsValue)
| OpTriggerNoteOff (info : list JsValue).

Definition apply_op (w : AudioSystemWrapper) (op : Op) : AudioSystemWrapper :=
  match op with
  | OpTriggerNote info => (TriggerNote info w).2
  | OpTriggerNoteOff info => (TriggerNoteOff info w).2
  end.

Definition run (ops : list Op) (w : AudioSystemWrapper) : AudioSystemWrapper :=
  foldl apply_op w ops.

Definition mirrors_engine (w : AudioSystemWrapper) : Prop :=
  m_activeFrequencies w = map frequency (m_activeNotes (m_audioSystem w)).

Definition engine_takes (op : Op) : Prop :=
  match op with
  | OpTriggerNote (JsNumber value :: _) =>
      (FloatValue value <=? zero)%f32 || (FloatValue value >? of_int 20000)%f32 = false
  | _ => True
  end.

End WithHost.

End Wrapper.

(** ** [NoteCalculator]: note names, MIDI numbers and frequencies
    (App/src/utils/NoteCalculator.ts) *)
Module NoteCalculator.

(** [Math.pow] and [String.prototype.toUpperCase]. *)
Class JsImpl : Type := {
  Math_pow : F64.double -> F64.double -> F64.double;
  toUpperCase : string -> string
}.

(** [toUpperCase] on ASCII letters, which leaves every other character as it
    is, and a stand-in for [Math.pow] that returns its base; used to evaluate
    examples only. *)
Definition ascii_toupper (c : Ascii.ascii) : Ascii.ascii :=
  let n := Ascii.nat_of_ascii c in
  if ((97 <=? n) && (n <=? 122))%nat then Ascii.ascii_of_nat (n - 32) else c.

Fixpoint ascii_toUpperCase (str : string) : string :=
  match str with
  | String.EmptyString => String.EmptyString
  | String.String c rest => String.String (ascii_toupper c) (ascii_toUpperCase rest)
  end.

Definition demo_js : JsImpl :=
  {| Math_pow := fun base _ => base; toUpperCase := ascii_toUpperCase |}.

Definition A4_FREQUENCY : F64.double := F64.of_int 440.
Definition A4_MIDI_NUMBER : F64.double := F64.of_int 69.

(** The [Note] of types/index.ts; [name] is [None] for [undefined]. *)
Record Note : Type := {
  frequency : F64.double;
  name : option string;
  octave : F64.double
}.

Definition noteMap : list (string * F64.double) :=
  [("C", F64.of_int 0); ("C#", F64.of_int 1); ("D", F64.of_int 2); ("D#", F64.of_int 3);
   ("E", F64.of_int 4); ("F", F64.of_int 5); ("F#", F64.of_int 6); ("G", F64.of_int 7);
   ("G#", F64.of_int 8); ("A", F64.of_int 9); ("A#", F64.of_int 10);
   ("B", F64.of_int 11)]%string.

Definition noteNames : list string :=
  ["C"; "C#"; "D"; "D#"; "E"; "F"; "F#"; "G"; "G#"; "A"; "A#"; "B"]%string.

(** [object[key]] on an object literal with these own properties, and
    [array[index]] for a number: [None] is [undefined].  The lookup is by own
    property only: the properties an object literal inherits all have a
    lower-case letter in their name, which no upper-cased key has. *)
Fixpoint get_property (object : list (string * F64.double)) (key : string)
  : option F64.double :=
  match object with
  | [] => None
  | (k, v) :: rest => if (k =? key)%string then Some v else get_property rest key
  end.

Definition get_element (array : list string) (index : F64.double) : option string :=
  match F64.to_integer index with
  | Some i => if (0 <=? i)%Z then array !! Z.to_nat i else None
  | None => None
  end.

(** Specification vocabulary: what [midiToNote] and [noteToFrequency]
    compute for the MIDI number [m], apart from the frequency: the name is
    the one at [m mod 12], the octave is [m / 12 - 1], and name and octave
    give [m] back. *)
Definition names_number (m : Z) : Prop :=
  get_element noteNames (F64.rem (F64.of_int m) (F64.of_int 12))
  = noteNames !! Z.to_nat (m mod 12)
  /\ F64.sub (F64.floor (F64.div (F64.of_int m) (F64.of_int 12))) (F64.of_int 1)
     = F64.of_int (m / 12 - 1)
  /\ (get_property noteMap <$> noteNames !! Z.to_nat (m mod 12))
     = Some (Some (F64.of_int (m mod 12)))
  /\ F64.add (F64.mul (F64.add (F64.of_int (m / 12 - 1)) (F64.of_int 1)) (F64.of_int 12))
       (F64.of_int (m mod 12))
     = F64.of_int m.

Section WithJs.
Context {js : JsImpl}.

Definition midiToFrequency (midiNote : F64.double) : F64.double :=
  F64.mul A4_FREQUENCY
    (Math_pow (F64.of_int 2)
       (F64.div (F64.sub midiNote A4_MIDI_NUMBER) (F64.of_int 12))).

(** [None] when the function throws. *)
Definition noteToFrequency (noteName : string) (octave : F64.double)
  : option F64.double :=
  match get_property noteMap (toUpperCase noteName) with
  | None => None
  | Some noteOffset =>
      let midiNote :=
        F64.add (F64.mul (F64.add octave (F64.of_int 1)) (F64.of_int 12)) noteOffset in
      Some (midiToFrequency midiNote)
  end.

Definition midiToNote (midiNote : F64.double) : Note :=
  let octave := F64.sub (F64.floor (F64.div midiNote (F64.of_int 12))) (F64.of_int 1) in
  let noteName := get_element noteNames (F64.rem midiNote (F64.of_int 12)) in
  let frequency := midiToFrequency midiNote in
  {| frequency := frequency; name := noteName; octave := octave |}.

End WithJs.

End NoteCalculator.

(** * Part II: properties *)

(** ** Machine integers *)
Module SizeTFacts.
Import SizeT.

Lemma wrap_range z : 0 <= wrap z < modulus.
Proof. unfold wrap, modulus. apply Z.mod_pos_bound. lia. Qed.

Lemma wrap_small z : 0 <= z < modulus -> wrap z = z.
Proof. intros H. unfold wrap. now apply Z.mod_small. Qed.

Lemma max_spec a b : max a b = Z.max a b.
Proof. unfold max. destruct (Z.ltb_spec a b); lia. Qed.

Lemma min_spec a b : min a b = Z.min a b.
Proof. unfold min. destruct (Z.ltb_spec b a); lia. Qed.

End SizeTFacts.

(** ** Floating-point facts: conversions, the order, products that are not
    NaN *)
Module F32Facts.
Import F32.

Lemma to_size_t_range x : 0 <= to_size_t x < SizeT.modulus.
Proof.
  destruct x as [s|s| |s m e]; simpl; try (unfold SizeT.modulus; lia).
  apply SizeTFacts.wrap_range.
Qed.


Lemma compare_antisym x y : SFcompare y x = CompOpp <$> SFcompare x y.
Proof.
  destruct x as [sx|sx| |sx mx ex], y as [sy|sy| |sy my ey]; simpl;
    try reflexivity; try (now destruct sx); try (now destruct sy);
    try (now destruct sx, sy).
  destruct sx, sy; simpl; try reflexivity; f_equal;
    rewrite (Z.compare_antisym ey ex); destruct (ey ?= ex); simpl; try reflexivity.
  - rewrite CompOpp_involutive. apply (Pos.compare_cont_antisym my mx Eq).
  - symmetry. apply (Pos.compare_cont_antisym mx my Eq).
Qed.

Lemma compare_refl x : isnan x = false -> SFcompare x x = Some Eq.
Proof.
  destruct x as [s|s| |s m e]; simpl; intros H; try discriminate; try reflexivity.
  - now destruct s.
  - destruct s; rewrite Z.compare_refl; fold (Pos.compare m m);
      now rewrite Pos.compare_refl.
Qed.

Lemma compare_not_nan x y :
  isnan x = false -> isnan y = false -> exists c, SFcompare x y = Some c.
Proof.
  destruct x as [sx|sx| |sx mx ex], y as [sy|sy| |sy my ey]; simpl; intros Hx Hy;
    try discriminate; eauto.
Qed.

Lemma leb_refl x : isnan x = false -> (x <=? x)%f32 = true.
Proof. intros H. unfold leb, SFleb. now rewrite compare_refl. Qed.

Lemma ltb_false_leb x y :
  isnan x = false -> isnan y = false -> (x <? y)%f32 = false -> (y <=? x)%f32 = true.
Proof.
  intros Hx Hy. unfold ltb, leb, SFltb, SFleb.
  rewrite (compare_antisym x y).
  destruct (compare_not_nan x y Hx Hy) as [c ->]. now destruct c.
Qed.

Lemma ltb_leb x y : (x <? y)%f32 = true -> (x <=? y)%f32 = true.
Proof. unfold ltb, leb, SFltb, SFleb. now destruct (SFcompare x y) as [[]|]. Qed.

Lemma iter_pos_invariant {A : Type} (P : A -> Prop) (f : A -> A) :
  (forall x, P x -> P (f x)) -> forall p x, P x -> P (SpecFloat.iter_pos f p x).
Proof.
  intros Hf p. induction p as [p IH|p IH|]; intros x Hx; simpl.
  - apply IH, IH, Hf, Hx.
  - apply IH, IH, Hx.
  - apply Hf, Hx.
Qed.

Lemma shr_1_nonneg r : 0 <= shr_m r -> 0 <= shr_m (shr_1 r).
Proof.
  destruct r as [m r s]. simpl. intros H.
  destruct m as [|[p|p|]|p]; simpl; lia.
Qed.

Lemma shr_fexp_nonneg m e l :
  0 <= m -> 0 <= shr_m (shr_fexp prec emax m e l).1.
Proof.
  intros H. unfold shr_fexp, shr.
  assert (0 <= shr_m (shr_record_of_loc m l)) as H0.
  { destruct l as [|[]]; exact H. }
  destruct (fexp prec emax (Zdigits2 m + e) - e) as [|p|p]; simpl; try exact H0.
  apply (iter_pos_invariant (fun r => 0 <= shr_m r)); [apply shr_1_nonneg | exact H0].
Qed.

Lemma binary_round_aux_not_nan sx m e l :
  0 <= m -> isnan (binary_round_aux prec emax sx m e l) = false.
Proof.
  intros H. unfold binary_round_aux.
  pose proof (shr_fexp_nonneg m e l H) as H1.
  destruct (shr_fexp prec emax m e l) as [mrs' e']. simpl in H1.
  set (m2 := round_nearest_even (shr_m mrs') (loc_of_shr_record mrs')).
  assert (0 <= m2) as H2.
  { unfold m2, round_nearest_even.
    destruct (loc_of_shr_record mrs') as [|[]]; try lia.
    destruct (Z.even (shr_m mrs')); lia. }
  pose proof (shr_fexp_nonneg m2 e' loc_Exact H2) as H3.
  destruct (shr_fexp prec emax m2 e' loc_Exact) as [mrs'' e'']. simpl in H3.
  destruct (shr_m mrs'') as [|p|p]; try reflexivity; [|lia].
  now destruct (e'' <=? emax - prec).
Qed.

Lemma mul_finite_isnan x s m e : isnan (x * S754_finite s m e)%f32 = isnan x.
Proof.
  destruct x as [sx|sx| |sx mx ex]; try reflexivity.
  apply binary_round_aux_not_nan. lia.
Qed.

Lemma ltb_true_leb_false x y : (x <? y)%f32 = true -> (y <=? x)%f32 = false.
Proof.
  unfold ltb, leb, SFltb, SFleb. rewrite (compare_antisym x y).
  now destruct (SFcompare x y) as [[]|].
Qed.

Lemma leb_true_ltb_false x y : (x <=? y)%f32 = true -> (y <? x)%f32 = false.
Proof.
  unfold ltb, leb, SFltb, SFleb. rewrite (compare_antisym x y).
  now destruct (SFcompare x y) as [[]|].
Qed.

Lemma ltb_isnan_r x y : (x <? y)%f32 = true -> isnan y = false.
Proof.
  unfold ltb, SFltb.
  destruct x as [sx|sx| |sx mx ex], y as [sy|sy| |sy my ey]; simpl; congruence.
Qed.

(** A float above zero and at most a finite bound is positive and finite. *)
Lemma positive_bounded_finite x y :
  (zero <? x)%f32 = true -> (x <=? y)%f32 = true -> isnan y = false ->
  (exists m e, x = S754_finite false m e) \/ (x = S754_infinity false /\ y = S754_infinity false).
Proof.
  unfold ltb, leb, SFltb, SFleb, zero.
  destruct x as [sx|[]| |[] mx ex]; simpl; try discriminate; eauto.
  destruct y as [sy|[]| |sy my ey]; simpl; try discriminate; eauto.
Qed.

Lemma sub_diag_finite s m e :
  (S754_finite s m e - S754_finite s m e)%f32 = zero.
Proof. unfold sub. simpl. now rewrite Z.sub_diag. Qed.

(** The model agrees with the binary32 encodings of the literals: [0.45f] is
    [0x3EE66666], [1e-3f] is [0x3A83126F] and [(float)M_PI] is [0x40490FDB]. *)
Example literal_bits :
  dec 45 100 = S754_finite false 0xE66666 (-25)
  /\ dec 1 1000 = S754_finite false 0x83126F (-33)
  /\ pi = S754_finite false 0xC90FDB (-22).
Proof. repeat split; vm_compute; reflexivity. Qed.

(** [std::ceil], [std::round] and the conversion to [std::size_t] on a few
    values: ceil(2.5) = 3, ceil(-2.5) = -2, round(2.5) = 3, round(-2.5) = -3,
    round(2.4) = 2, and 7.9 converts to 7. *)
Example rounding_samples :
  ceil (dec 25 10) = of_int 3 /\ ceil (dec (-25) 10) = of_int (-2)
  /\ round (dec 25 10) = of_int 3 /\ round (dec (-25) 10) = of_int (-3)
  /\ round (dec 24 10) = of_int 2 /\ to_size_t (dec 79 10) = 7.
Proof. repeat split; vm_compute; reflexivity. Qed.

End F32Facts.

(** ** The ring buffer returns the most recent frames *)
Module RingBufferSpec.
Import F32 RingBuffer SizeTFacts.

Lemma mod_succ C M :
  0 < C -> 0 <= M ->
  (M + 1) mod C = if C <=? M mod C + 1 then 0 else M mod C + 1.
Proof.
  intros HC HM.
  pose proof (Z.mod_pos_bound M C HC) as Hr.
  pose proof (Z.div_mod M C ltac:(lia)) as Hq.
  destruct (Z.leb_spec C (M mod C + 1)).
  - symmetry. apply (Z.mod_unique_pos _ _ (M / C + 1)); lia.
  - symmetry. apply (Z.mod_unique_pos _ _ (M / C)); lia.
Qed.

Lemma mod_distinct C p M :
  0 < C -> 0 <= p < M -> M - p < C -> p mod C <> M mod C.
Proof.
  intros HC Hp Hd E.
  assert ((M - p) mod C = 0) as H0.
  { rewrite Zminus_mod, E, Z.sub_diag. now apply Z.mod_0_l; lia. }
  rewrite Z.mod_small in H0; lia.
Qed.

Lemma mod_wrap_once C x :
  0 < C -> 0 <= x < 2 * C ->
  (if C <=? x then x - C else x) = x mod C.
Proof.
  intros HC Hx. destruct (Z.leb_spec C x).
  - apply (Z.mod_unique_pos _ _ 1); lia.
  - symmetry. apply Z.mod_small. lia.
Qed.

Lemma interleave_length fs : length (interleave fs) = (2 * length fs)%nat.
Proof. induction fs as [|f fs IH]; simpl; lia. Qed.

Lemma interleave_lookup_left fs (i : nat) :
  interleave fs !! (2 * i)%nat = fst <$> fs !! i.
Proof.
  revert i. induction fs as [|f fs IH]; intros [|i]; try reflexivity.
  replace (2 * S i)%nat with (S (S (2 * i))) by lia. simpl. apply IH.
Qed.

Lemma interleave_lookup_right fs (i : nat) :
  interleave fs !! (2 * i + 1)%nat = snd <$> fs !! i.
Proof.
  revert i. induction fs as [|f fs IH]; intros [|i]; try reflexivity.
  replace (2 * S i + 1)%nat with (S (S (2 * i + 1))) by lia. simpl. apply IH.
Qed.

Section Capacity.
Variable C : Z.
Hypothesis C_pos : 1 <= C.
Hypothesis C_fits : 2 * C < SizeT.modulus.

Lemma construct_holds : holds_latest C [] (construct C).
Proof.
  unfold construct. rewrite max_spec, Z.max_r by lia.
  unfold SizeT.mul. rewrite wrap_small by lia.
  refine (conj _ (conj _ (conj _ (conj _ _)))); simpl; try reflexivity.
  - rewrite length_replicate. lia.
  - intros p f Hp. discriminate.
Qed.

Lemma push_holds frames rb l r :
  holds_latest C frames rb ->
  holds_latest C (frames ++ [(l, r)]) (push l r rb).
Proof.
  intros (Hcap & Hlen & Hw & Ht & Hbuf).
  set (M := Z.of_nat (length frames)) in *.
  assert (0 <= M) as HM by lia.
  pose proof (Z.mod_pos_bound M C ltac:(lia)) as Hr.
  assert (Z.of_nat (length (frames ++ [(l, r)])) = M + 1) as HM1.
  { rewrite length_app. simpl. lia. }
  unfold holds_latest, push. simpl. rewrite HM1, Hcap, Hw.
  unfold SizeT.mul, SizeT.add.
  rewrite !(wrap_small (M mod C * 2)) by lia.
  rewrite !(wrap_small (M mod C * 2 + 1)) by lia.
  rewrite (wrap_small (M mod C + 1)) by lia.
  split; [reflexivity|].
  split; [rewrite !length_insert; exact Hlen|].
  split; [now rewrite mod_succ by lia|].
  split.
  { rewrite Ht. unfold SizeT.wrap. now rewrite Zplus_mod_idemp_l. }
  intros p f Hp Hlo.
  destruct (decide (p = length frames)) as [->|Hne].
  - rewrite lookup_app_r in Hp by lia.
    rewrite Nat.sub_diag in Hp. injection Hp as <-. fold M. simpl.
    replace (2 * (M mod C)) with (M mod C * 2) by lia.
    split.
    + rewrite list_lookup_insert_ne by lia.
      apply list_lookup_insert_eq. lia.
    + apply list_lookup_insert_eq. rewrite length_insert. lia.
  - assert (p < length frames)%nat as Hlt.
    { apply lookup_lt_Some in Hp. rewrite length_app in Hp. simpl in Hp. lia. }
    rewrite lookup_app_l in Hp by exact Hlt.
    destruct (Hbuf p f Hp ltac:(lia)) as [Hl Hr'].
    assert (Z.of_nat p mod C <> M mod C) as Hd by (apply mod_distinct; lia).
    pose proof (Z.mod_pos_bound (Z.of_nat p) C ltac:(lia)) as Hpr.
    rewrite !list_lookup_insert_ne by lia. now split.
Qed.

Lemma push_all_holds frames : holds_latest C frames (push_all frames (construct C)).
Proof.
  induction frames as [|[l r] frames IH] using rev_ind.
  - apply construct_holds.
  - unfold push_all. rewrite foldl_app. simpl. now apply push_holds.
Qed.

Lemma copy_loop_spec rb start :
  m_capacityFrames rb = C -> 0 <= start < C ->
  forall n i dest, 0 <= i -> i + Z.of_nat n <= C ->
  let res := copy_loop rb start n i dest in
  length res = length dest /\
  (forall t : nat, i <= Z.of_nat t < i + Z.of_nat n -> (2 * t + 1 < length dest)%nat ->
     res !! (2 * t)%nat
       = Some (m_buffer rb !!! Z.to_nat (2 * ((start + Z.of_nat t) mod C))) /\
     res !! (2 * t + 1)%nat
       = Some (m_buffer rb !!! Z.to_nat (2 * ((start + Z.of_nat t) mod C) + 1))) /\
  (forall j : nat, Z.of_nat j < 2 * i \/ 2 * (i + Z.of_nat n) <= Z.of_nat j ->
     res !! j = dest !! j).
Proof.
  intros Hcap Hstart n.
  induction n as [|n IH]; intros i dest Hi Hin; cbn zeta.
  { simpl. split; [reflexivity|]. split; [intros t Ht; lia | reflexivity]. }
  cbn [copy_loop]. rewrite Hcap.
  unfold SizeT.add, SizeT.sub, SizeT.mul.
  rewrite (wrap_small (start + i)) by lia.
  rewrite (wrap_small (i * 2)) by lia.
  rewrite (wrap_small (i * 2 + 1)) by lia.
  rewrite (wrap_small (i + 1)) by lia.
  assert ((if C <=? start + i then SizeT.wrap (start + i - C) else start + i)
          = (start + i) mod C) as ->.
  { rewrite <- mod_wrap_once by lia.
    destruct (Z.leb_spec C (start + i)); [apply wrap_small; lia | reflexivity]. }
  pose proof (Z.mod_pos_bound (start + i) C ltac:(lia)) as Hf.
  rewrite (wrap_small ((start + i) mod C * 2)) by lia.
  rewrite (wrap_small ((start + i) mod C * 2 + 1)) by lia.
  match goal with |- context [copy_loop rb start n (i + 1) ?d] => set (dest2 := d) end.
  destruct (IH (i + 1) dest2 ltac:(lia) ltac:(lia)) as (Hlen & Hin' & Hout).
  assert (length dest2 = length dest) as Hlen2.
  { unfold dest2. now rewrite !length_insert. }
  split; [congruence|]. split.
  - intros t Ht Hroom.
    destruct (decide (Z.of_nat t = i)) as [Hti|Hti].
    + rewrite !Hout by lia. subst i. unfold dest2.
      replace (Z.to_nat (Z.of_nat t * 2)) with (2 * t)%nat by lia.
      replace (Z.to_nat (Z.of_nat t * 2 + 1)) with (2 * t + 1)%nat by lia.
      replace ((start + Z.of_nat t) mod C * 2) with (2 * ((start + Z.of_nat t) mod C)) by lia.
      split.
      * rewrite list_lookup_insert_ne by lia. apply list_lookup_insert_eq. lia.
      * apply list_lookup_insert_eq. rewrite length_insert. lia.
    + apply Hin'; lia.
  - intros j Hj. rewrite Hout by lia. unfold dest2.
    rewrite !list_lookup_insert_ne by lia. reflexivity.
Qed.

(** The general statement behind S5: after any number [M < 2^64] of pushes a
    copy of at most [maxFrames] frames returns the [k = min maxFrames (min M C)]
    most recent ones, oldest first. *)
Theorem copy_latest_general frames dest maxFrames :
  let M := Z.of_nat (length frames) in
  let k := Z.min maxFrames (Z.min M C) in
  M < SizeT.modulus -> 0 <= maxFrames < SizeT.modulus ->
  2 * k <= Z.of_nat (length dest) ->
  copyLatestInterleaved (Some dest) maxFrames (push_all frames (construct C))
  = (k, Some (interleave (drop (Z.to_nat (M - k)) frames) ++ drop (Z.to_nat (2 * k)) dest)).
Proof.
  intros M k HM Hmax Hroom.
  destruct (push_all_holds frames) as (Hcap & Hlen & Hw & Ht & Hbuf).
  fold M in Hw, Ht, Hbuf.
  set (rb := push_all frames (construct C)) in *.
  unfold copyLatestInterleaved, availableFrames.
  rewrite Hcap, Ht, Hw, wrap_small, !min_spec by lia. fold k.
  assert (k = 0 -> (k, Some dest)
     = (k, Some (interleave (drop (Z.to_nat (M - k)) frames) ++ drop (Z.to_nat (2 * k)) dest)))
    as Hzero.
  { intros ->. rewrite Z.sub_0_r, drop_ge by lia. reflexivity. }
  destruct (Z.eqb_spec maxFrames 0) as [E|Hm0].
  { assert (k = 0) as Hk by lia. rewrite <- Hzero by exact Hk. now rewrite Hk. }
  destruct (Z.eqb_spec k 0) as [Hk|Hk0].
  { rewrite <- Hzero by exact Hk. now rewrite Hk. }
  f_equal. f_equal.
  pose proof (Z.mod_pos_bound M C ltac:(lia)) as Hr.
  unfold SizeT.add, SizeT.sub.
  rewrite (wrap_small (M mod C + C)) by lia.
  rewrite (wrap_small (M mod C + C - k)) by lia.
  assert ((if C <=? M mod C + C - k then (M mod C + C - k) mod C else M mod C + C - k)
          = (M - k) mod C) as ->.
  { assert ((M mod C + C - k) mod C = (M - k) mod C) as E.
    { replace (M mod C + C - k) with (M mod C + (1 * C - k)) by lia.
      rewrite Zplus_mod_idemp_l. replace (M + (1 * C - k)) with (M - k + 1 * C) by lia.
      apply Z_mod_plus_full. }
    destruct (Z.leb_spec C (M mod C + C - k)); [exact E|].
    rewrite <- E. symmetry. apply Z.mod_small. lia. }
  pose proof (Z.mod_pos_bound (M - k) C ltac:(lia)) as Hs.
  destruct (copy_loop_spec rb ((M - k) mod C) Hcap Hs (Z.to_nat k) 0 dest
              ltac:(lia) ltac:(lia)) as (Hlen' & Hin & Hout).
  set (res := copy_loop rb ((M - k) mod C) (Z.to_nat k) 0 dest) in *.
  assert (forall t : nat, Z.of_nat t < k ->
            exists f, frames !! (Z.to_nat (M - k) + t)%nat = Some f /\
              res !! (2 * t)%nat = Some f.1 /\ res !! (2 * t + 1)%nat = Some f.2) as Hread.
  { intros t Htk.
    destruct (lookup_lt_is_Some_2 frames (Z.to_nat (M - k) + t)) as [f Hf]; [lia|].
    exists f. split; [exact Hf|].
    destruct (Hin t ltac:(lia) ltac:(lia)) as [Hl Hr'].
    destruct (Hbuf _ f Hf ltac:(lia)) as [Bl Br].
    replace (Z.of_nat (Z.to_nat (M - k) + t)) with (M - k + Z.of_nat t) in Bl, Br by lia.
    rewrite Zplus_mod_idemp_l in Hl, Hr'.
    rewrite Hl, Hr'. split; f_equal; now apply list_lookup_total_correct. }
  apply list_eq. intros j.
  destruct (decide (Z.of_nat j < 2 * k)) as [Hj|Hj].
  - rewrite lookup_app_l by (rewrite interleave_length, length_drop; lia).
    destruct (Nat.Even_or_Odd j) as [[t ->]|[t ->]].
    + destruct (Hread t ltac:(lia)) as (f & Hf & Hl & _).
      rewrite Hl, interleave_lookup_left, lookup_drop, Hf. reflexivity.
    + destruct (Hread t ltac:(lia)) as (f & Hf & _ & Hr').
      rewrite Hr', interleave_lookup_right, lookup_drop, Hf. reflexivity.
  - rewrite Hout by lia.
    rewrite lookup_app_r by (rewrite interleave_length, length_drop; lia).
    rewrite interleave_length, length_drop, lookup_drop. f_equal. lia.
Qed.

End Capacity.

(** C2.  After [N <= C] pushes on a freshly constructed buffer of capacity
    [C >= 1] (whose [2 * C] samples are addressable by a [std::size_t]),
    [copyLatestInterleaved(dest, N)] returns [N] and leaves in [dest] the [N]
    pushed frames, interleaved left/right, oldest first; the rest of [dest] is
    untouched. *)
Theorem copy_latest_after_pushes (C : Z) (frames : list (float * float)) (dest : list float) :
  let N := Z.of_nat (length frames) in
  1 <= C -> 2 * C < SizeT.modulus -> N <= C ->
  (2 * length frames <= length dest)%nat ->
  copyLatestInterleaved (Some dest) N (push_all frames (construct C))
  = (N, Some (interleave frames ++ drop (2 * length frames) dest)).
Proof.
  intros N HC Hfit HN Hroom.
  pose proof (copy_latest_general C HC Hfit frames dest N) as H.
  cbn zeta in H. fold N in H.
  rewrite !Z.min_l, Z.sub_diag in H by lia.
  rewrite H by (unfold N in *; lia). simpl drop.
  repeat f_equal. lia.
Qed.

Lemma copy_latest_after_pushes_witness :
  copyLatestInterleaved (Some (replicate 6 zero)) 3 (push_all demo_frames (construct 4))
  = (3, Some (interleave demo_frames ++ drop 6 (replicate 6 zero))).
Proof.
  apply (copy_latest_after_pushes 4 demo_frames (replicate 6 zero)).
  - lia.
  - reflexivity.
  - simpl. lia.
  - simpl. lia.
Defined.

(** Scenario S5 in small: capacity 4, seven frames [(i, -i)] pushed, a copy of
    four frames yields frames 3, 4, 5, 6. *)
Example copy_latest_wraps :
  let frames := map (fun i => (of_int i, of_int (- i))) [0; 1; 2; 3; 4; 5; 6] in
  copyLatestInterleaved (Some (replicate 8 zero)) 4 (push_all frames (construct 4))
  = (4, Some (interleave (map (fun i => (of_int i, of_int (- i))) [3; 4; 5; 6]))).
Proof. vm_compute. reflexivity. Qed.

End RingBufferSpec.

(** ** More floating-point facts: results that are not NaN *)
Module F32Finite.
Import F32 F32Facts.

Lemma binary_round_not_nan s m e : isnan (binary_round prec emax s m e) = false.
Proof.
  unfold binary_round. destruct (shl_align m e _) as [mz ez].
  apply binary_round_aux_not_nan. lia.
Qed.

Lemma binary_normalize_not_nan z e s :
  isnan (binary_normalize prec emax z e s) = false.
Proof. destruct z; [reflexivity | apply binary_round_not_nan ..]. Qed.

Lemma mul_finite_not_nan x y :
  is_finite x = true -> is_finite y = true -> isnan (x * y)%f32 = false.
Proof.
  destruct x as [sx|sx| |sx mx ex], y as [sy|sy| |sy my ey]; try discriminate;
    intros _ _; try reflexivity.
  apply binary_round_aux_not_nan. lia.
Qed.

Lemma add_finite_not_nan x p :
  is_finite x = true -> isnan p = false -> isnan (x + p)%f32 = false.
Proof.
  destruct x as [sx|sx| |sx mx ex], p as [sp|sp| |sp mp ep]; try discriminate;
    intros _ _; try reflexivity.
  - now destruct sx, sp.
  - apply binary_normalize_not_nan.
Qed.

Lemma between_finite lo v hi :
  is_finite lo = true -> is_finite hi = true ->
  (lo <=? v)%f32 = true -> (v <=? hi)%f32 = true -> is_finite v = true.
Proof.
  unfold leb, SFleb.
  destruct v as [s|[]| |s m e]; try reflexivity;
    destruct lo as [sl|sl| |sl ml el], hi as [sh|sh| |sh mh eh]; simpl;
    try discriminate; try (destruct sl; discriminate); try (destruct sh; discriminate).
Qed.

Lemma is_finite_not_nan x : is_finite x = true -> isnan x = false.
Proof. now destruct x. Qed.

End F32Finite.

(** ** The ring buffer: capacity, fill level and empty copies *)
Module RingBufferExtra.
Import F32 RingBuffer SizeTFacts RingBufferSpec.

Lemma construct_clamped C0 : construct C0 = construct (Z.max 1 C0).
Proof.
  unfold construct. rewrite !max_spec.
  now replace (Z.max 1 (Z.max 1 C0)) with (Z.max 1 C0) by lia.
Qed.

(** X2.  The constructor raises a capacity of 0 to 1, pushes never change the
    capacity, and the number of frames available to copy is the number of
    pushes capped at the capacity. *)
Theorem availableFrames_after_pushes (C0 : Z) (frames : list (float * float)) :
  let C := Z.max 1 C0 in
  let rb := push_all frames (construct C0) in
  2 * C < SizeT.modulus -> Z.of_nat (length frames) < SizeT.modulus ->
  capacityFrames rb = C /\
  availableFrames rb = Z.min (Z.of_nat (length frames)) C.
Proof.
  intros C rb Hfit HM. subst rb. rewrite construct_clamped. fold C.
  destruct (push_all_holds C ltac:(lia) Hfit frames) as (Hcap & _ & _ & Ht & _).
  unfold capacityFrames, availableFrames.
  rewrite Hcap, Ht, wrap_small, min_spec by lia. split; reflexivity.
Qed.

Lemma availableFrames_after_pushes_witness :
  capacityFrames (push_all demo_frames (construct 0)) = 1
  /\ availableFrames (push_all demo_frames (construct 0)) = 1.
Proof.
  apply (availableFrames_after_pushes 0 demo_frames); reflexivity.
Defined.

(** X3.  Nothing is copied, and the destination is left as it is, when the
    destination pointer is null, when no frame is asked for, or when nothing
    has been pushed yet. *)
Theorem copy_nothing (C0 maxFrames : Z) (dest : list float)
  (rb : StereoSampleRingBuffer) :
  0 <= maxFrames ->
  copyLatestInterleaved None maxFrames rb = (0, None)
  /\ copyLatestInterleaved (Some dest) 0 rb = (0, Some dest)
  /\ copyLatestInterleaved (Some dest) maxFrames (construct C0) = (0, Some dest).
Proof.
  intros Hmax. split; [reflexivity|]. split; [reflexivity|].
  unfold copyLatestInterleaved.
  destruct (Z.eqb_spec maxFrames 0) as [E|E]; [reflexivity|].
  unfold availableFrames. cbn [construct m_totalFramesWritten m_capacityFrames].
  rewrite !min_spec, max_spec.
  replace (Z.min maxFrames (Z.min 0 (Z.max 1 C0))) with 0 by lia.
  reflexivity.
Qed.

Lemma copy_nothing_witness :
  copyLatestInterleaved (Some (interleave demo_frames)) 5 (construct 4)
  = (0, Some (interleave demo_frames)).
Proof.
  apply (copy_nothing 4 5 (interleave demo_frames) (construct 4)). lia.
Defined.

(** X1.  After any number of pushes (below [2^64]) on a buffer built with any
    capacity, a copy of at most [maxFrames] frames returns
    [k = min maxFrames (min pushes capacity)] and writes the [k] most recently
    pushed frames, oldest first and interleaved, at the start of the
    destination; the rest of the destination is untouched.  Older frames are
    the ones overwritten when the buffer wraps. *)
Theorem copy_latest_most_recent (C0 : Z) (frames : list (float * float))
  (dest : list float) (maxFrames : Z) :
  let C := Z.max 1 C0 in
  let M := Z.of_nat (length frames) in
  let k := Z.min maxFrames (Z.min M C) in
  2 * C < SizeT.modulus -> M < SizeT.modulus -> 0 <= maxFrames < SizeT.modulus ->
  2 * k <= Z.of_nat (length dest) ->
  copyLatestInterleaved (Some dest) maxFrames (push_all frames (construct C0))
  = (k, Some (interleave (drop (Z.to_nat (M - k)) frames) ++ drop (Z.to_nat (2 * k)) dest)).
Proof.
  intros C M k Hfit HM Hmax Hroom. rewrite construct_clamped. fold C.
  apply (copy_latest_general C); [lia | assumption ..].
Qed.

Lemma copy_latest_most_recent_witness :
  let frames := map (fun i => (of_int i, of_int (- i))) [0; 1; 2; 3; 4; 5; 6] in
  copyLatestInterleaved (Some (replicate 10 (of_int 9))) 5 (push_all frames (construct 4))
  = (4, Some (interleave (map (fun i => (of_int i, of_int (- i))) [3; 4; 5; 6])
              ++ [of_int 9; of_int 9])).
Proof.
  cbn zeta.
  rewrite (copy_latest_most_recent 4
             (map (fun i => (of_int i, of_int (- i))) [0; 1; 2; 3; 4; 5; 6])
             (replicate 10 (of_int 9)) 5);
    [reflexivity | reflexivity | reflexivity | split; [lia | reflexivity] | simpl; lia].
Defined.

End RingBufferExtra.

(** ** The delay line: state invariant and the per-sample step *)
Module DelaySpec.
Import F32 Delay SizeTFacts F32Facts.

Lemma clampValue_size_range value low high :
  low <= high -> low <= clampValue value low high <= high.
Proof.
  intros H. unfold clampValue, less, less_size_t.
  destruct (Z.ltb_spec value low); [lia|].
  destruct (Z.ltb_spec high value); lia.
Qed.

Lemma length_assign n : 0 <= n -> Z.of_nat (length (assign n)) = n.
Proof. intros H. unfold assign. rewrite length_replicate. lia. Qed.

Lemma allocateBuffers_inv d :
  length (m_bufferRight d) = length (m_bufferLeft d) ->
  bufferLength d < SizeT.modulus ->
  0 <= m_writeIndex d -> 1 <= m_delaySamples d ->
  delay_inv (allocateBuffers d).
Proof.
  intros Hsame Hlen Hw Hd. unfold allocateBuffers.
  pose proof (wrap_range (to_size_t (ceil (kMaxDelaySeconds * m_sampleRate d)) + 1)) as Hreq.
  fold (SizeT.add (to_size_t (ceil (kMaxDelaySeconds * m_sampleRate d))) 1) in Hreq.
  set (required := SizeT.add _ 1) in *. clearbody required.
  assert (2 <= SizeT.max required 2 < SizeT.modulus) as Ht.
  { rewrite max_spec. unfold SizeT.modulus in *. lia. }
  set (target := SizeT.max required 2) in *. clearbody target.
  set (d1 := if target =? bufferLength d then d else _).
  assert (length (m_bufferRight d1) = length (m_bufferLeft d1)
          /\ bufferLength d1 = target
          /\ m_writeIndex d1 = m_writeIndex d
          /\ m_delaySamples d1 = m_delaySamples d) as (Hs1 & Hl1 & Hw1 & Hd1).
  { unfold d1. destruct (Z.eqb_spec target (bufferLength d)) as [E|E].
    - now rewrite E.
    - unfold bufferLength. cbn [set_buffers m_bufferLeft m_bufferRight m_writeIndex
                                m_delaySamples].
      rewrite length_assign by lia. now split. }
  clearbody d1.
  set (d2 := if target <=? m_writeIndex d1 then _ else d1).
  assert (length (m_bufferRight d2) = length (m_bufferLeft d2)
          /\ bufferLength d2 = target
          /\ 0 <= m_writeIndex d2 < target
          /\ m_delaySamples d2 = m_delaySamples d) as (Hs2 & Hl2 & Hw2 & Hd2).
  { unfold d2. destruct (Z.leb_spec target (m_writeIndex d1)).
    - unfold bufferLength in *.
      cbn [set_writeIndex m_bufferLeft m_bufferRight m_writeIndex m_delaySamples].
      repeat split; try assumption; lia.
    - repeat split; try assumption; lia. }
  clearbody d2.
  destruct (Z.leb_spec target (m_delaySamples d2)).
  - unfold SizeT.sub. rewrite wrap_small by (unfold SizeT.modulus in *; lia).
    unfold bufferLength in *.
    split; unfold bufferLength;
      cbn [set_delaySamples m_bufferLeft m_bufferRight m_writeIndex m_delaySamples];
      try assumption; lia.
  - split; unfold bufferLength in *; try assumption; lia.
Qed.

Lemma updateDelaySamples_inv d : delay_inv d -> delay_inv (updateDelaySamples d).
Proof.
  intros [Hs Hl Hw Hd]. unfold updateDelaySamples.
  destruct (Z.eqb_spec (bufferLength d) 0) as [E|E]; [lia|].
  unfold SizeT.sub. rewrite wrap_small by lia.
  pose proof (clampValue_size_range
    (to_size_t (round (m_delayTime d * m_sampleRate d))) 1 (bufferLength d - 1)
    ltac:(lia)) as Hc.
  split; unfold bufferLength in *; simpl; try assumption; lia.
Qed.

Lemma reset_inv d : delay_inv d -> delay_inv (reset d).
Proof.
  intros [Hs Hl Hw Hd]. unfold reset.
  split; unfold bufferLength in *; simpl; rewrite ?length_replicate; try assumption; lia.
Qed.

Lemma process_inv x d : delay_inv d -> delay_inv (process x d).2.
Proof.
  intros [Hs Hl Hw Hd]. unfold process.
  destruct (Z.eqb_spec (bufferLength d) 0) as [E|E]; [lia|]. cbn [snd].
  pose proof (Z.mod_pos_bound (SizeT.add (m_writeIndex d) 1) (bufferLength d) ltac:(lia)).
  split; unfold bufferLength in *; simpl; rewrite ?length_insert; try assumption; lia.
Qed.

Lemma setSampleRate_inv sr d : delay_inv d -> delay_inv (setSampleRate sr d).
Proof.
  intros Hinv. unfold setSampleRate.
  destruct (sr <=? of_int 100)%f32; [exact Hinv|].
  destruct (abs (sr - m_sampleRate d) <? dec 1 1000)%f32; [exact Hinv|].
  apply updateDelaySamples_inv, allocateBuffers_inv; destruct Hinv; simpl;
    unfold bufferLength in *; simpl; try assumption; lia.
Qed.

Lemma setDelayTime_inv t d : delay_inv d -> delay_inv (setDelayTime t d).
Proof.
  intros Hinv. unfold setDelayTime.
  destruct (abs _ <? _)%f32; [exact Hinv|].
  apply updateDelaySamples_inv. destruct Hinv. split; assumption.
Qed.

Lemma apply_op_inv d op : delay_inv d -> delay_inv (apply_op d op).
Proof.
  intros Hinv. destruct op; simpl.
  - now apply process_inv.
  - now apply reset_inv.
  - now apply setSampleRate_inv.
  - now apply setDelayTime_inv.
  - destruct Hinv. split; assumption.
  - destruct Hinv. split; assumption.
Qed.

Lemma construct_inv delayTime feedback mix sampleRate :
  delay_inv (construct delayTime feedback mix sampleRate).
Proof.
  unfold construct.
  apply reset_inv, updateDelaySamples_inv, allocateBuffers_inv; simpl;
    unfold bufferLength, SizeT.modulus; simpl; lia.
Qed.

(** The default effect [DelayEffect(0.3, 0.5, 0.5, 44100)]: 110251 samples per
    channel ([ceil (2.5 * 44100) + 1]) and a delay of 13230 samples. *)
Example construct_default :
  let d := construct (dec 3 10) (dec 5 10) (dec 5 10) (of_int 44100) in
  bufferLength d = 110251 /\ m_delaySamples d = 13230 /\ m_writeIndex d = 0.
Proof. vm_compute. repeat split. Qed.

(** C9.  After construction and after every operation of any sequence of
    [process], [reset], [setSampleRate], [setDelayTime], [setFeedback] and
    [setMix] calls (every prefix of a run is a run), the buffers hold at least
    two samples, the write index is below the buffer length and the delay lies
    in [1, length - 1]. *)
Theorem delay_invariant delayTime feedback mix sampleRate (ops : list Op) :
  let d := run ops (construct delayTime feedback mix sampleRate) in
  2 <= bufferLength d /\
  0 <= m_writeIndex d < bufferLength d /\
  1 <= m_delaySamples d <= bufferLength d - 1.
Proof.
  assert (forall d, delay_inv d -> delay_inv (run ops d)) as Hrun.
  { unfold run. induction ops as [|op ops IH]; intros d Hd; simpl.
    - exact Hd.
    - apply IH, apply_op_inv, Hd. }
  destruct (Hrun _ (construct_inv delayTime feedback mix sampleRate)) as [_ Hl Hw Hd].
  cbn zeta. repeat split; lia.
Qed.



End DelaySpec.

(** ** The delay line: echo, parameter ranges and bounded feedback *)
Module DelayExtra.
Import F32 Delay SizeTFacts F32Facts F32Finite DelaySpec.

#[local] Arguments F32.of_int : simpl never.
#[local] Arguments F32.dec : simpl never.

Lemma process_step (x : float * float) (d : DelayEffect) :
  delay_inv d -> 2 * bufferLength d <= SizeT.modulus ->
  let len := bufferLength d in
  let w := m_writeIndex d in
  let r := Z.to_nat ((w + len - m_delaySamples d) mod len) in
  let d' := (process x d).2 in
  (process x d).1
  = (((of_int 1 - m_mix d) * x.1 + m_mix d * (m_bufferLeft d !!! r))%f32,
     ((of_int 1 - m_mix d) * x.2 + m_mix d * (m_bufferRight d !!! r))%f32)
  /\ m_bufferLeft d'
     = <[Z.to_nat w :=
           clampValue (x.1 + (m_bufferLeft d !!! r) * m_feedback d)%f32
             (of_int (-2)) (of_int 2)]> (m_bufferLeft d)
  /\ m_bufferRight d'
     = <[Z.to_nat w :=
           clampValue (x.2 + (m_bufferRight d !!! r) * m_feedback d)%f32
             (of_int (-2)) (of_int 2)]> (m_bufferRight d)
  /\ m_writeIndex d' = (w + 1) mod len
  /\ m_delaySamples d' = m_delaySamples d
  /\ m_delayTime d' = m_delayTime d
  /\ m_feedback d' = m_feedback d
  /\ m_mix d' = m_mix d
  /\ m_sampleRate d' = m_sampleRate d.
Proof.
  intros [Hs Hl Hw Hd] Hfit len w r d'. subst d' r. unfold process. fold len w.
  destruct (Z.eqb_spec len 0) as [E|E]; [lia|].
  unfold SizeT.sub, SizeT.add.
  rewrite (wrap_small (w + len)), (wrap_small (w + len - m_delaySamples d)),
    (wrap_small (w + 1)) by lia.
  cbn [fst snd set_writeIndex set_buffers m_bufferLeft m_bufferRight m_writeIndex
       m_delaySamples m_delayTime m_feedback m_mix m_sampleRate].
  repeat split.
Qed.


Lemma mod_shift_distinct len w j :
  0 <= w < len -> 0 < j < len -> (w + j) mod len <> w.
Proof.
  intros Hw Hj E.
  destruct (Z.lt_ge_cases (w + j) len) as [H|H].
  - rewrite Z.mod_small in E; lia.
  - assert ((w + j) mod len = w + j - len) as E'.
    { symmetry. apply (Z.mod_unique_pos _ _ 1); lia. }
    lia.
Qed.

Lemma bufferLength_process x d :
  delay_inv d -> 2 * bufferLength d <= SizeT.modulus ->
  bufferLength (process x d).2 = bufferLength d.
Proof.
  intros Hinv Hfit.
  destruct (process_step x d Hinv Hfit) as (_ & Hl & _).
  unfold bufferLength. now rewrite Hl, length_insert.
Qed.

(** While fewer than [D] further samples are processed, the sample stored at
    index [w0] stays in place. *)
Lemma stored_sample_kept len w0 D vL vR g m :
  0 <= w0 < len -> 2 * len <= SizeT.modulus ->
  forall xs e j,
    delay_inv e -> bufferLength e = len -> m_delaySamples e = D ->
    m_feedback e = g -> m_mix e = m ->
    1 <= j -> j + Z.of_nat (length xs) <= D ->
    m_writeIndex e = (w0 + j) mod len ->
    m_bufferLeft e !! Z.to_nat w0 = Some vL ->
    m_bufferRight e !! Z.to_nat w0 = Some vR ->
    let e' := process_all xs e in
    delay_inv e' /\ bufferLength e' = len /\ m_delaySamples e' = D
    /\ m_feedback e' = g /\ m_mix e' = m
    /\ m_writeIndex e' = (w0 + j + Z.of_nat (length xs)) mod len
    /\ m_bufferLeft e' !! Z.to_nat w0 = Some vL
    /\ m_bufferRight e' !! Z.to_nat w0 = Some vR.
Proof.
  intros Hw0 Hfit xs.
  induction xs as [|y xs IH]; intros e j Hinv Hlen HD Hg Hm Hj Hjn Hw HL HR.
  { cbn [process_all foldl length]. change (Z.of_nat 0) with 0. rewrite Z.add_0_r.
    repeat lazymatch goal with |- _ /\ _ => split end; assumption. }
  cbn [process_all foldl]. fold (process_all xs (process y e).2).
  assert (j < len) as Hjlen.
  { destruct Hinv as [_ _ _ Hd]. rewrite HD, Hlen in Hd.
    rewrite length_cons in Hjn. lia. }
  rewrite <- Hlen in Hfit.
  destruct (process_step y e Hinv Hfit)
    as (_ & HbL & HbR & Hw' & HD' & _ & Hg' & Hm' & _).
  rewrite Hlen in Hfit.
  assert (Z.to_nat (m_writeIndex e) <> Z.to_nat w0) as Hne.
  { rewrite Hw. pose proof (mod_shift_distinct len w0 j Hw0 ltac:(lia)).
    pose proof (Z.mod_pos_bound (w0 + j) len ltac:(lia)). lia. }
  replace (w0 + j + Z.of_nat (length (y :: xs)))
    with (w0 + (j + 1) + Z.of_nat (length xs)) by (rewrite length_cons; lia).
  apply IH.
  - now apply process_inv.
  - rewrite bufferLength_process; [exact Hlen | exact Hinv | now rewrite Hlen].
  - congruence.
  - congruence.
  - congruence.
  - lia.
  - rewrite length_cons in Hjn. lia.
  - rewrite Hw', Hw, Hlen, Zplus_mod_idemp_l. f_equal. lia.
  - rewrite HbL, list_lookup_insert_ne by exact Hne. exact HL.
  - rewrite HbR, list_lookup_insert_ne by exact Hne. exact HR.
Qed.

(** X4.  The delay line delays by exactly [D] samples: what a call of
    [process] stores (the clamped sum of its input and the fed-back sample) is
    the delayed sample that the call [D] calls later mixes into its output,
    whatever is processed in between. *)
Theorem delay_echo (d : DelayEffect) (x0 : float * float)
  (xs : list (float * float)) (x : float * float) :
  delay_inv d -> 2 * bufferLength d <= SizeT.modulus ->
  Z.of_nat (length xs) = m_delaySamples d - 1 ->
  let len := bufferLength d in
  let r := Z.to_nat ((m_writeIndex d + len - m_delaySamples d) mod len) in
  let storedL :=
    clampValue (x0.1 + (m_bufferLeft d !!! r) * m_feedback d)%f32 (of_int (-2)) (of_int 2) in
  let storedR :=
    clampValue (x0.2 + (m_bufferRight d !!! r) * m_feedback d)%f32 (of_int (-2)) (of_int 2) in
  (process x (process_all (x0 :: xs) d)).1
  = (((of_int 1 - m_mix d) * x.1 + m_mix d * storedL)%f32,
     ((of_int 1 - m_mix d) * x.2 + m_mix d * storedR)%f32).
Proof.
  intros Hinv Hfit Hxs len r storedL storedR.
  pose proof Hinv as [Hs Hl Hw Hd]. fold len in Hl, Hw, Hd, Hfit.
  destruct (process_step x0 d Hinv Hfit)
    as (_ & HbL & HbR & Hw' & HD' & _ & Hg' & Hm' & _).
  fold len r in HbL, HbR, Hw'. fold storedL in HbL. fold storedR in HbR.
  cbn [process_all foldl]. fold (process_all xs (process x0 d).2).
  set (d1 := (process x0 d).2) in *.
  destruct (stored_sample_kept len (m_writeIndex d) (m_delaySamples d) storedL storedR
              (m_feedback d) (m_mix d) Hw Hfit xs d1 1)
    as (Hinv' & Hlen' & HD'' & Hg'' & Hm'' & Hw'' & HL & HR).
  - now apply process_inv.
  - unfold d1. now rewrite bufferLength_process.
  - exact HD'.
  - exact Hg'.
  - exact Hm'.
  - lia.
  - lia.
  - exact Hw'.
  - rewrite HbL. apply list_lookup_insert_eq. unfold len, bufferLength in Hw. lia.
  - rewrite HbR. apply list_lookup_insert_eq.
    unfold len, bufferLength in Hw. rewrite Hs. lia.
  - set (dN := process_all xs d1) in *.
    assert (2 * bufferLength dN <= SizeT.modulus) as HfitN by now rewrite Hlen'.
    destruct (process_step x dN Hinv' HfitN) as (Hout & _).
    rewrite Hout, Hlen', HD'', Hw'', Hm''.
    assert (((m_writeIndex d + 1 + Z.of_nat (length xs)) mod len
             + len - m_delaySamples d) mod len = m_writeIndex d) as ->.
    { replace ((m_writeIndex d + 1 + Z.of_nat (length xs)) mod len + len - m_delaySamples d)
        with ((m_writeIndex d + 1 + Z.of_nat (length xs)) mod len + (len - m_delaySamples d))
        by lia.
      rewrite Zplus_mod_idemp_l.
      replace (m_writeIndex d + 1 + Z.of_nat (length xs) + (len - m_delaySamples d))
        with (m_writeIndex d + 1 * len) by lia.
      rewrite Z_mod_plus_full. apply Z.mod_small. lia. }
    now rewrite (list_lookup_total_correct _ _ _ HL), (list_lookup_total_correct _ _ _ HR).
Qed.


Lemma clampValue_float_range (value low high : float) :
  isnan value = false -> isnan low = false -> isnan high = false ->
  (low <=? high)%f32 = true ->
  (low <=? clampValue value low high)%f32 = true /\
  (clampValue value low high <=? high)%f32 = true.
Proof.
  intros Hv Hl Hh Hlh. unfold clampValue, less, less_float.
  destruct (value <? low)%f32 eqn:E1.
  { split; [now apply leb_refl | exact Hlh]. }
  destruct (high <? value)%f32 eqn:E2.
  { split; [exact Hlh | now apply leb_refl]. }
  split; now apply ltb_false_leb.
Qed.

(** *** Stored samples stay within [-2, 2] *)

Lemma sample_in_range_zero : sample_in_range zero.
Proof. split; vm_compute; reflexivity. Qed.

Lemma sample_in_range_finite v : sample_in_range v -> is_finite v = true.
Proof. intros [H1 H2]. now apply (between_finite (of_int (-2)) v (of_int 2)). Qed.

Lemma lookup_total_in_range (l : list float) i :
  Forall sample_in_range l -> sample_in_range (l !!! i).
Proof.
  intros H. destruct (l !! i) as [v|] eqn:E.
  - rewrite (list_lookup_total_correct _ _ _ E).
    apply (proj1 (Forall_lookup _ _) H _ _ E).
  - rewrite list_lookup_total_alt, E. apply sample_in_range_zero.
Qed.

Lemma stored_sample_in_range x delayed g :
  is_finite x = true -> sample_in_range delayed -> is_finite g = true ->
  sample_in_range (clampValue (x + delayed * g)%f32 (of_int (-2)) (of_int 2)).
Proof.
  intros Hx Hd Hg.
  apply clampValue_float_range; try reflexivity.
  apply add_finite_not_nan; [exact Hx|].
  apply mul_finite_not_nan; [now apply sample_in_range_finite | exact Hg].
Qed.

Lemma parameters_feedback_finite d : parameters_in_range d -> is_finite (m_feedback d) = true.
Proof. intros ((H1 & H2) & _). now apply (between_finite zero _ kMaxFeedback). Qed.

Lemma process_bounded x d :
  is_finite x.1 = true -> is_finite x.2 = true ->
  is_finite (m_feedback d) = true ->
  buffers_bounded d -> buffers_bounded (process x d).2.
Proof.
  intros Hx1 Hx2 Hg [HL HR]. unfold process.
  destruct (bufferLength d =? 0); [now split|].
  cbn [snd set_writeIndex set_buffers m_bufferLeft m_bufferRight]. split.
  - apply Forall_insert; [exact HL|].
    apply stored_sample_in_range; try assumption. now apply lookup_total_in_range.
  - apply Forall_insert; [exact HR|].
    apply stored_sample_in_range; try assumption. now apply lookup_total_in_range.
Qed.

Lemma assign_bounded n : Forall sample_in_range (assign n).
Proof. apply Forall_replicate, sample_in_range_zero. Qed.

Lemma allocateBuffers_frame d :
  (m_bufferLeft (allocateBuffers d) = m_bufferLeft d
   /\ m_bufferRight (allocateBuffers d) = m_bufferRight d
   \/ exists n, m_bufferLeft (allocateBuffers d) = assign n
                /\ m_bufferRight (allocateBuffers d) = assign n)
  /\ m_delayTime (allocateBuffers d) = m_delayTime d
  /\ m_feedback (allocateBuffers d) = m_feedback d
  /\ m_mix (allocateBuffers d) = m_mix d.
Proof.
  unfold allocateBuffers.
  set (target := SizeT.max _ 2). clearbody target.
  set (d1 := if target =? bufferLength d then d else _).
  assert ((m_bufferLeft d1 = m_bufferLeft d /\ m_bufferRight d1 = m_bufferRight d
           \/ exists n, m_bufferLeft d1 = assign n /\ m_bufferRight d1 = assign n)
          /\ m_delayTime d1 = m_delayTime d /\ m_feedback d1 = m_feedback d
          /\ m_mix d1 = m_mix d) as H1.
  { unfold d1. destruct (target =? bufferLength d).
    - split; [left; now split | now repeat split].
    - split; [right; exists target; now split | now repeat split]. }
  clearbody d1.
  set (d2 := if target <=? m_writeIndex d1 then _ else d1).
  assert (m_bufferLeft d2 = m_bufferLeft d1 /\ m_bufferRight d2 = m_bufferRight d1
          /\ m_delayTime d2 = m_delayTime d1 /\ m_feedback d2 = m_feedback d1
          /\ m_mix d2 = m_mix d1) as (E1 & E2 & E3 & E4 & E5).
  { unfold d2. destruct (target <=? m_writeIndex d1); now repeat split. }
  clearbody d2.
  assert (forall e : DelayEffect,
            e = (if target <=? m_delaySamples d2
                 then set_delaySamples (SizeT.sub target 1) d2 else d2) ->
            m_bufferLeft e = m_bufferLeft d2 /\ m_bufferRight e = m_bufferRight d2
            /\ m_delayTime e = m_delayTime d2 /\ m_feedback e = m_feedback d2
            /\ m_mix e = m_mix d2) as H3.
  { intros e ->. destruct (target <=? m_delaySamples d2); now repeat split. }
  destruct (H3 _ eq_refl) as (F1 & F2 & F3 & F4 & F5).
  rewrite F1, F2, F3, F4, F5, E1, E2, E3, E4, E5. exact H1.
Qed.

Lemma updateDelaySamples_frame d :
  m_bufferLeft (updateDelaySamples d) = m_bufferLeft d
  /\ m_bufferRight (updateDelaySamples d) = m_bufferRight d
  /\ m_delayTime (updateDelaySamples d) = m_delayTime d
  /\ m_feedback (updateDelaySamples d) = m_feedback d
  /\ m_mix (updateDelaySamples d) = m_mix d.
Proof.
  unfold updateDelaySamples. destruct (bufferLength d =? 0); now repeat split.
Qed.

Lemma well_kept_resized d sr :
  well_kept d -> well_kept (updateDelaySamples (allocateBuffers (set_sampleRate sr d))).
Proof.
  intros [[HL HR] Hp].
  destruct (updateDelaySamples_frame (allocateBuffers (set_sampleRate sr d)))
    as (U1 & U2 & U3 & U4 & U5).
  destruct (allocateBuffers_frame (set_sampleRate sr d)) as (Hb & A3 & A4 & A5).
  unfold well_kept, buffers_bounded, parameters_in_range.
  rewrite U1, U2, U3, U4, U5, A3, A4, A5.
  cbn [set_sampleRate m_delayTime m_feedback m_mix]. split; [|exact Hp].
  destruct Hb as [[-> ->]|(n & -> & ->)].
  - now split.
  - split; apply assign_bounded.
Qed.

Lemma apply_op_well_kept d op :
  op_well_formed op -> well_kept d -> well_kept (apply_op d op).
Proof.
  intros Hop Hk. pose proof Hk as [Hb Hp]. pose proof Hb as [HL HR].
  destruct op as [x| |sr|t|g|m]; cbn [apply_op op_well_formed] in *.
  - destruct Hop as [Hx1 Hx2]. split.
    + apply process_bounded; try assumption. now apply parameters_feedback_finite.
    + unfold process. destruct (bufferLength d =? 0); exact Hp.
  - split; [|exact Hp]. unfold reset. cbn [set_writeIndex set_buffers m_bufferLeft m_bufferRight].
    split; apply Forall_replicate, sample_in_range_zero.
  - unfold setSampleRate.
    destruct (sr <=? of_int 100)%f32; [exact Hk|].
    destruct (abs (sr - m_sampleRate d) <? dec 1 1000)%f32; [exact Hk|].
    now apply well_kept_resized.
  - unfold setDelayTime.
    destruct (abs _ <? _)%f32; [exact Hk|].
    destruct (updateDelaySamples_frame
                (set_delayTime (clampValue t kMinDelaySeconds kMaxDelaySeconds) d))
      as (U1 & U2 & U3 & U4 & U5).
    unfold well_kept, buffers_bounded, parameters_in_range.
    rewrite U1, U2, U3, U4, U5. cbn [set_delayTime m_bufferLeft m_bufferRight m_delayTime
                                    m_feedback m_mix].
    destruct Hp as (Hf & Hm & _).
    split; [now split|]. split; [exact Hf|]. split; [exact Hm|].
    apply clampValue_float_range; try assumption; reflexivity.
  - destruct Hp as (_ & Hm & Ht).
    split; [now split|]. unfold setFeedback, parameters_in_range.
    cbn [set_feedback m_feedback m_mix m_delayTime].
    split; [|now split]. apply clampValue_float_range; try assumption; reflexivity.
  - destruct Hp as (Hf & _ & Ht).
    split; [now split|]. unfold setMix, parameters_in_range.
    cbn [set_mix m_feedback m_mix m_delayTime].
    split; [exact Hf|]. split; [|exact Ht].
    apply clampValue_float_range; try assumption; reflexivity.
Qed.

Lemma construct_well_kept delayTime feedback mix sampleRate :
  isnan delayTime = false -> isnan feedback = false -> isnan mix = false ->
  well_kept (construct delayTime feedback mix sampleRate).
Proof.
  intros Ht Hf Hm. unfold construct.
  set (d0 := Build_DelayEffect _ _ _ _ _ _ _ _).
  assert (parameters_in_range d0) as Hp0.
  { unfold parameters_in_range, d0. cbn [m_feedback m_mix m_delayTime].
    repeat lazymatch goal with |- _ /\ _ => split end;
      apply clampValue_float_range; try assumption; reflexivity. }
  assert (m_delayTime d0 = m_delayTime d0 /\ m_feedback d0 = m_feedback d0) as _ by now split.
  clearbody d0.
  destruct (updateDelaySamples_frame (allocateBuffers d0)) as (U1 & U2 & U3 & U4 & U5).
  destruct (allocateBuffers_frame d0) as (_ & A3 & A4 & A5).
  split.
  - unfold reset. cbn [set_writeIndex set_buffers m_bufferLeft m_bufferRight].
    split; apply Forall_replicate, sample_in_range_zero.
  - unfold parameters_in_range, reset.
    cbn [set_writeIndex set_buffers m_feedback m_mix m_delayTime].
    rewrite U3, U4, U5, A3, A4, A5. exact Hp0.
Qed.

Lemma run_well_kept ops d :
  Forall op_well_formed ops -> well_kept d -> well_kept (run ops d).
Proof.
  unfold run. revert d. induction ops as [|op ops IH]; intros d Hops Hk.
  - exact Hk.
  - inversion Hops; subst. cbn [foldl]. apply IH; [assumption|].
    now apply apply_op_well_kept.
Qed.

(** X5.  Whenever the constructor and the setters are given numbers (anything
    but NaN), feedback stays within [0, 0.97], mix within [0, 1] and the delay
    time within [0.005, 2.5] seconds, across any sequence of operations. *)
Theorem delay_parameters_in_range delayTime feedback mix sampleRate (ops : list Op) :
  isnan delayTime = false -> isnan feedback = false -> isnan mix = false ->
  Forall op_well_formed ops ->
  parameters_in_range (run ops (construct delayTime feedback mix sampleRate)).
Proof.
  intros Ht Hf Hm Hops.
  apply (run_well_kept ops _ Hops), construct_well_kept; assumption.
Qed.

(** X6.  Under the same conditions and with finite input samples, every
    sample held in the two delay buffers stays within [-2, 2]: the feedback
    loop cannot run away. *)
Theorem delay_buffers_bounded delayTime feedback mix sampleRate (ops : list Op) :
  isnan delayTime = false -> isnan feedback = false -> isnan mix = false ->
  Forall op_well_formed ops ->
  buffers_bounded (run ops (construct delayTime feedback mix sampleRate)).
Proof.
  intros Ht Hf Hm Hops.
  apply (run_well_kept ops _ Hops), construct_well_kept; assumption.
Qed.


Lemma delay_echo_witness :
  (process (zero, zero)
     (process_all ((of_int 1, of_int (-1)) :: replicate 29 (zero, zero)) delay_100hz)).1
  = (dec 1 2, dec (-1) 2).
Proof.
  rewrite (delay_echo delay_100hz (of_int 1, of_int (-1)) (replicate 29 (zero, zero))
             (zero, zero)).
  - vm_compute. reflexivity.
  - split; vm_compute; intuition congruence.
  - vm_compute. congruence.
  - vm_compute. reflexivity.
Defined.

Lemma delay_parameters_in_range_witness :
  parameters_in_range
    (run [OpProcess (of_int 1, of_int (-1)); OpSetFeedback (of_int 5); OpSetMix (of_int (-3))]
       (construct (dec 3 10) (dec 5 10) (dec 5 10) (of_int 100))).
Proof.
  apply (delay_parameters_in_range (dec 3 10) (dec 5 10) (dec 5 10) (of_int 100)
           [OpProcess (of_int 1, of_int (-1)); OpSetFeedback (of_int 5);
            OpSetMix (of_int (-3))]);
    try reflexivity.
  repeat constructor.
Defined.

Lemma delay_buffers_bounded_witness :
  buffers_bounded
    (run [OpSetFeedback (of_int 5); OpProcess (of_int 1000, of_int (-1000));
          OpProcess (of_int 1000, of_int (-1000))]
       (construct (dec 3 10) (dec 5 10) (dec 5 10) (of_int 100))).
Proof.
  apply (delay_buffers_bounded (dec 3 10) (dec 5 10) (dec 5 10) (of_int 100)
           [OpSetFeedback (of_int 5); OpProcess (of_int 1000, of_int (-1000));
            OpProcess (of_int 1000, of_int (-1000))]);
    try reflexivity.
  repeat constructor.
Defined.

(** The setters store a NaN argument as it is: the reason the two theorems
    above ask for numbers. *)
Example setFeedback_nan_stored d : m_feedback (setFeedback nan d) = nan.
Proof. reflexivity. Qed.

End DelayExtra.

(** ** The low-pass filter: cutoff range and coefficient update *)
Module LowPassSpec.
Import F32 Cmath LowPass F32Facts.

Lemma isnan_max a b : isnan a = false -> isnan b = false -> isnan (F32.max a b) = false.
Proof. intros Ha Hb. unfold F32.max. now destruct (a <? b)%f32. Qed.

Lemma leb_max_r a b :
  isnan a = false -> isnan b = false -> (b <=? F32.max a b)%f32 = true.
Proof.
  intros Ha Hb. unfold F32.max. destruct (a <? b)%f32 eqn:E.
  - now apply leb_refl.
  - now apply ltb_false_leb.
Qed.

Lemma clampValue_isnan value low high :
  isnan value = false -> isnan low = false -> isnan high = false ->
  isnan (clampValue value low high) = false.
Proof.
  intros Hv Hl Hh. unfold clampValue.
  destruct (value <? low)%f32; [exact Hl|]. now destruct (value >? high)%f32.
Qed.

Lemma clampValue_range value low high :
  isnan value = false -> isnan low = false -> isnan high = false ->
  (low <=? high)%f32 = true ->
  (low <=? clampValue value low high)%f32 = true /\
  (clampValue value low high <=? high)%f32 = true.
Proof.
  intros Hv Hl Hh Hlh. unfold clampValue.
  destruct (value <? low)%f32 eqn:E1.
  { split; [now apply leb_refl | exact Hlh]. }
  unfold gtb. fold (ltb high value).
  destruct (high <? value)%f32 eqn:E2.
  { split; [exact Hlh | now apply leb_refl]. }
  split; now apply ltb_false_leb.
Qed.

Lemma ltb_irrefl x : (x <? x)%f32 = false.
Proof.
  destruct (x <? x)%f32 eqn:E; [|reflexivity].
  pose proof (ltb_leb _ _ E) as H1. pose proof (ltb_true_leb_false _ _ E) as H2.
  congruence.
Qed.

(** Clamping twice into a range whose upper end is [std::max(a, low)] is
    clamping once, NaN included. *)
Lemma clampValue_idempotent value low a :
  let high := F32.max a low in
  clampValue (clampValue value low high) low high = clampValue value low high.
Proof.
  intros high.
  assert ((high <? low)%f32 = false) as Hhl.
  { subst high. unfold F32.max. destruct (a <? low)%f32 eqn:E; [apply ltb_irrefl | exact E]. }
  unfold clampValue, gtb. fold (ltb high value).
  destruct (value <? low)%f32 eqn:E1.
  { rewrite ltb_irrefl. fold (ltb high low). now rewrite Hhl. }
  destruct (high <? value)%f32 eqn:E2.
  { rewrite Hhl. fold (ltb high high). now rewrite ltb_irrefl. }
  rewrite E1. fold (ltb high value). now rewrite E2.
Qed.

Lemma cutoff_limit_ok lp :
  isnan (m_sampleRate lp) = false ->
  isnan (cutoff_limit lp) = false /\ (kMinCutoff <=? cutoff_limit lp)%f32 = true.
Proof.
  intros Hsr.
  assert (isnan (m_sampleRate lp * dec 1 2 * kMaxCutoffRatio)%f32 = false) as Hm.
  { assert (dec 1 2 = S754_finite false 8388608 (-24)) as -> by (vm_compute; reflexivity).
    assert (kMaxCutoffRatio = S754_finite false 15099494 (-25)) as ->
      by (vm_compute; reflexivity).
    now rewrite !mul_finite_isnan. }
  unfold cutoff_limit. split.
  - now apply isnan_max.
  - now apply leb_max_r.
Qed.

Section WithLibM.
Context {libm : LibM}.

Lemma updateCoefficients_cutoff lp : m_cutoff (updateCoefficients lp) = m_cutoff lp.
Proof. unfold updateCoefficients. now destruct (_ <=? _)%f32. Qed.

Lemma updateCoefficients_sampleRate lp :
  m_sampleRate (updateCoefficients lp) = m_sampleRate lp.
Proof. unfold updateCoefficients. now destruct (_ <=? _)%f32. Qed.

Lemma updateCoefficients_cases lp :
  let nyquist := (m_sampleRate lp * dec 1 2)%f32 in
  ((nyquist <=? kMinCutoff)%f32 = true -> passthrough (updateCoefficients lp)) /\
  ((nyquist <=? kMinCutoff)%f32 = false ->
     m_b0 (updateCoefficients lp) = m_b2 (updateCoefficients lp) /\
     ~ passthrough (updateCoefficients lp)).
Proof.
  cbn zeta. unfold updateCoefficients. split; intros ->.
  - repeat split.
  - split; [reflexivity|]. intros (H0 & _ & H2 & _). simpl in H0, H2.
    rewrite H0 in H2. vm_compute in H2. discriminate.
Qed.

(** Away from the degenerate sample rates the coefficients are those of the
    RBJ low-pass formula at the stored cutoff, when that cutoff is already
    within the range [updateCoefficients] clamps it to. *)
Lemma updateCoefficients_rbj lp :
  let nyquist := (m_sampleRate lp * dec 1 2)%f32 in
  (nyquist <=? kMinCutoff)%f32 = false ->
  clampValue (m_cutoff lp) kMinCutoff (cutoff_limit lp) = m_cutoff lp ->
  let omega := (of_int 2 * pi * m_cutoff lp / m_sampleRate lp)%f32 in
  let alpha := (sin omega / (of_int 2 * m_q lp))%f32 in
  let invA0 := (of_int 1 / (of_int 1 + alpha))%f32 in
  updateCoefficients lp
  = set_coefficients ((of_int 1 - cos omega) * dec 1 2 * invA0)%f32
      ((of_int 1 - cos omega) * invA0)%f32
      ((of_int 1 - cos omega) * dec 1 2 * invA0)%f32
      (of_int (-2) * cos omega * invA0)%f32
      ((of_int 1 - alpha) * invA0)%f32 lp.
Proof.
  cbn zeta. intros Hny Hclamp. unfold updateCoefficients. rewrite Hny.
  fold (cutoff_limit lp). now rewrite Hclamp.
Qed.

Lemma setCutoff_far cutoff lp :
  let clamped := clampValue cutoff kMinCutoff (cutoff_limit lp) in
  (abs (clamped - m_cutoff lp) <? dec 1 1000)%f32 = false ->
  setCutoff cutoff lp = updateCoefficients (set_cutoff clamped lp).
Proof. intros clamped H. unfold setCutoff. fold (cutoff_limit lp). fold clamped. now rewrite H. Qed.

(** The effect built by [LowPassEffect(1000, 44100, 0.9, 1)]: whatever [sin]
    and [cos] are, its cutoff is 1000 Hz at a sample rate of 44100 Hz. *)
Lemma construct_1000_fields :
  let lp := construct (of_int 1000) (of_int 44100) (dec 9 10) (of_int 1) in
  m_cutoff lp = of_int 1000 /\ m_sampleRate lp = of_int 44100.
Proof.
  cbn zeta. unfold construct.
  rewrite setCutoff_far by (vm_compute; reflexivity).
  rewrite updateCoefficients_cutoff, updateCoefficients_sampleRate.
  split; vm_compute; reflexivity.
Qed.

(** A NaN argument passes both comparisons of the clamp and is stored: the
    reason the range statement below asks for an argument that is not NaN. *)
Lemma clampValue_nan low high : clampValue nan low high = nan.
Proof.
  unfold clampValue, ltb, gtb, SFltb. simpl.
  now destruct high.
Qed.

Example setCutoff_nan_stored lp : m_cutoff (setCutoff nan lp) = nan.
Proof.
  unfold setCutoff. rewrite clampValue_nan.
  assert ((abs (nan - m_cutoff lp) <? dec 1 1000)%f32 = false) as -> by reflexivity.
  now rewrite updateCoefficients_cutoff.
Qed.

(** C5, as amended.  [setCutoff] clamps its argument into
    [[20, max (0.45 * Nyquist) 20]]; when the result is within [1e-3] of the
    stored cutoff the call changes nothing, otherwise it stores the clamped
    value and recomputes the coefficients.  For an argument and a sample rate
    that are not NaN the stored cutoff stays within that range.  The
    recomputed coefficients are the pass-through ones exactly when Nyquist is
    at most 20 Hz; otherwise, also when the cutoff sits at the 20 Hz minimum,
    they are the RBJ low-pass coefficients of the clamped cutoff, the sample
    rate and the resonance, in binary32 and in the order of the source: with
    [omega = 2 pi cutoff / rate], [alpha = sin omega / (2 q)] and
    [invA0 = 1 / (1 + alpha)],
    [b0 = b2 = ((1 - cos omega) * 0.5) * invA0], [b1 = (1 - cos omega) * invA0],
    [a1 = (-2 cos omega) * invA0] and [a2 = (1 - alpha) * invA0]; they have
    [b0 = b2] and so are not pass-through. *)
Theorem setCutoff_spec (cutoff : float) (lp : LowPassEffect) :
  let clamped := clampValue cutoff kMinCutoff (cutoff_limit lp) in
  let nyquist := (m_sampleRate lp * dec 1 2)%f32 in
  let lp' := setCutoff cutoff lp in
  (isnan cutoff = false -> isnan (m_sampleRate lp) = false ->
     cutoff_in_range lp -> cutoff_in_range lp')
  /\ (if (abs (clamped - m_cutoff lp) <? dec 1 1000)%f32 then lp' = lp
      else m_cutoff lp' = clamped
           /\ ((nyquist <=? kMinCutoff)%f32 = true -> passthrough lp')
           /\ ((nyquist <=? kMinCutoff)%f32 = false ->
                 (let omega := (of_int 2 * pi * clamped / m_sampleRate lp)%f32 in
                  let alpha := (sin omega / (of_int 2 * m_q lp))%f32 in
                  let invA0 := (of_int 1 / (of_int 1 + alpha))%f32 in
                  m_b0 lp' = ((of_int 1 - cos omega) * dec 1 2 * invA0)%f32
                  /\ m_b1 lp' = ((of_int 1 - cos omega) * invA0)%f32
                  /\ m_b2 lp' = ((of_int 1 - cos omega) * dec 1 2 * invA0)%f32
                  /\ m_a1 lp' = (of_int (-2) * cos omega * invA0)%f32
                  /\ m_a2 lp' = ((of_int 1 - alpha) * invA0)%f32)
                 /\ m_b0 lp' = m_b2 lp' /\ ~ passthrough lp')).
Proof.
  intros clamped nyquist lp'. subst lp'. unfold setCutoff.
  fold (cutoff_limit lp). fold clamped.
  destruct (abs (clamped - m_cutoff lp) <? dec 1 1000)%f32 eqn:Hnear.
  { split; [intros _ _ H; exact H | reflexivity]. }
  split.
  - intros Hc Hsr _.
    destruct (cutoff_limit_ok lp Hsr) as [Hlim Hle].
    unfold cutoff_in_range, cutoff_limit.
    rewrite updateCoefficients_cutoff, updateCoefficients_sampleRate. simpl.
    fold (cutoff_limit lp).
    apply clampValue_range; try assumption; reflexivity.
  - split; [now rewrite updateCoefficients_cutoff|].
    destruct (updateCoefficients_cases (set_cutoff clamped lp)) as [Hpass Hformula].
    split; [exact Hpass|]. intros Hny. split; [|exact (Hformula Hny)].
    rewrite (updateCoefficients_rbj (set_cutoff clamped lp) Hny)
      by apply clampValue_idempotent.
    cbn zeta. repeat split.
Qed.

End WithLibM.

(** C5 fails as stated: on [LowPassEffect(1000, 44100, 0.9, 1)] the call
    [setCutoff(10)] stores the 20 Hz minimum, and no implementation of [sin]
    and [cos] makes the recomputed coefficients pass-through. *)
Lemma setCutoff_minimum_not_passthrough :
  ~ exists libm : LibM,
      let lp := setCutoff (of_int 10)
                  (construct (of_int 1000) (of_int 44100) (dec 9 10) (of_int 1)) in
      (m_cutoff lp <=? kMinCutoff)%f32 = true -> passthrough lp.
Proof.
  intros [libm H]. cbn zeta in H.
  destruct construct_1000_fields as [Hc0 Hsr0].
  set (lp0 := construct (of_int 1000) (of_int 44100) (dec 9 10) (of_int 1)) in *.
  clearbody lp0.
  assert (clampValue (of_int 10) kMinCutoff (cutoff_limit lp0) = kMinCutoff) as Hclamp.
  { unfold cutoff_limit. rewrite Hsr0. vm_compute. reflexivity. }
  rewrite setCutoff_far in H
    by (rewrite Hclamp, Hc0; vm_compute; reflexivity).
  rewrite Hclamp, updateCoefficients_cutoff in H.
  destruct (updateCoefficients_cases (set_cutoff kMinCutoff lp0)) as [_ Hformula].
  destruct Hformula as [_ Hnot].
  { simpl. rewrite Hsr0. vm_compute. reflexivity. }
  apply Hnot, H. vm_compute. reflexivity.
Qed.

Lemma setCutoff_spec_witness :
  let lp := @construct demo_libm (of_int 1000) (of_int 44100) (dec 9 10) (of_int 1) in
  cutoff_in_range (@setCutoff demo_libm (of_int 10) lp)
  /\ m_cutoff (@setCutoff demo_libm (of_int 10) lp) = kMinCutoff.
Proof.
  cbn zeta.
  pose proof (@setCutoff_spec demo_libm (of_int 10)
                (@construct demo_libm (of_int 1000) (of_int 44100) (dec 9 10) (of_int 1)))
    as [Hrange _].
  split.
  - apply Hrange; [reflexivity | reflexivity |]. split; vm_compute; reflexivity.
  - vm_compute. reflexivity.
Defined.

End LowPassSpec.

(** ** The engine: note triggers, pitch bend and construction *)
Module EngineSpec.
Import F32 Cmath Host Engine F32Facts.

#[local] Arguments F32.of_int : simpl never.

Section WithHost.
Context {libm : LibM} {envelope_impl : EnvelopeImpl} {random_impl : RandomImpl}.

(** The frequencies [triggerNote] accepts. *)
Lemma valid_frequency_guard f :
  (zero <? f)%f32 = true -> (f <=? of_int 20000)%f32 = true ->
  (f <=? zero)%f32 || (f >? of_int 20000)%f32 = false.
Proof.
  intros Hpos Hle. unfold gtb. fold (ltb (of_int 20000) f).
  now rewrite (ltb_true_leb_false _ _ Hpos), (leb_true_ltb_false _ _ Hle).
Qed.

(** The state [triggerNote] builds for a valid frequency, with the two draws
    named. *)
Lemma triggerNote_valid f s :
  (zero <? f)%f32 = true -> (f <=? of_int 20000)%f32 = true ->
  let draw1 := uniform_real_distribution (- m_noteJitterAmountCents s)%f32
                 (m_noteJitterAmountCents s) (randomEngine s) in
  let draw2 := uniform_real_distribution zero (of_int 1) draw1.2 in
  let s' := triggerNote f s in
  m_activeNotes s' = m_activeNotes s ++ [{| frequency := f; detuneCents := draw1.1 |}]
  /\ m_frequency s' = f
  /\ m_noteDetuneCents s' = draw1.1
  /\ m_noteOn s' = true
  /\ (m_activeNotes s <> [] ->
        m_primaryPhase s' = m_primaryPhase s /\ m_secondaryPhase s' = m_secondaryPhase s
        /\ m_lfoPhase s' = m_lfoPhase s /\ m_envelope s' = m_envelope s
        /\ randomEngine s' = draw1.2)
  /\ (m_activeNotes s = [] ->
        m_primaryPhase s' = zero /\ m_secondaryPhase s' = zero
        /\ m_lfoPhase s' = draw2.1
        /\ m_envelope s' = ADSREnvelope_reset <$> m_envelope s
        /\ randomEngine s' = draw2.2).
Proof.
  intros Hpos Hle draw1 draw2 s'. subst s' draw2 draw1. unfold triggerNote.
  rewrite (valid_frequency_guard f Hpos Hle).
  destruct (uniform_real_distribution _ _ (randomEngine s)) as [detune rng].
  cbn [fst snd].
  destruct (m_activeNotes s) as [|n ns] eqn:En.
  - cbn [set_randomEngine set_m_lfoPhase randomEngine set_m_primaryPhase
         set_m_secondaryPhase set_m_noteOn set_m_noteDetuneCents set_m_frequency
         set_m_activeNotes].
    destruct (uniform_real_distribution zero (of_int 1) rng) as [phase rng2].
    destruct (m_envelope s) as [envelope|] eqn:Ee; simpl; rewrite ?En, ?Ee; simpl;
      rewrite ?Ee;
      repeat lazymatch goal with
             | |- _ /\ _ => split
             | |- _ -> _ => intros ?
             end; try reflexivity; congruence.
  - simpl. rewrite ?En.
    repeat lazymatch goal with
           | |- _ /\ _ => split
           | |- _ -> _ => intros ?
           end; try reflexivity; congruence.
Qed.

(** C7.  A frequency that is at most 0 or above 20000 makes [triggerNote]
    return the engine as it was: no member changes (active notes, frequency,
    note-on flag, phases, detune, envelope, effect chain), and no random
    number is drawn. *)
Theorem triggerNote_out_of_range_ignored (f : float) (s : AudioSystem) :
  (f <=? zero)%f32 = true \/ (f >? of_int 20000)%f32 = true ->
  triggerNote f s = s.
Proof.
  intros H. unfold triggerNote.
  assert ((f <=? zero)%f32 || (f >? of_int 20000)%f32 = true) as ->.
  { apply orb_true_iff. exact H. }
  reflexivity.
Qed.

(** C8.  For a valid frequency, [triggerNote] leaves both oscillator phases,
    the LFO phase and the envelope as they were when a note is already held;
    when no note is held it zeroes the oscillator phases, sets the LFO phase
    to the second random draw and resets the envelope. *)
Theorem triggerNote_legato (f : float) (s : AudioSystem) :
  (zero <? f)%f32 = true -> (f <=? of_int 20000)%f32 = true ->
  let s' := triggerNote f s in
  (m_activeNotes s <> [] ->
     m_primaryPhase s' = m_primaryPhase s /\ m_secondaryPhase s' = m_secondaryPhase s
     /\ m_lfoPhase s' = m_lfoPhase s /\ m_envelope s' = m_envelope s)
  /\ (m_activeNotes s = [] ->
        let draw1 := uniform_real_distribution (- m_noteJitterAmountCents s)%f32
                       (m_noteJitterAmountCents s) (randomEngine s) in
        let draw2 := uniform_real_distribution zero (of_int 1) draw1.2 in
        m_primaryPhase s' = zero /\ m_secondaryPhase s' = zero
        /\ m_lfoPhase s' = draw2.1
        /\ m_envelope s' = ADSREnvelope_reset <$> m_envelope s).
Proof.
  intros Hpos Hle s'.
  destruct (triggerNote_valid f s Hpos Hle) as (_ & _ & _ & _ & Hheld & Hfirst).
  split.
  - intros Hne. destruct (Hheld Hne) as (H1 & H2 & H3 & H4 & _). now repeat split.
  - intros He. destruct (Hfirst He) as (H1 & H2 & H3 & H4 & _). now repeat split.
Qed.

Lemma isMatch_same f :
  (zero <? f)%f32 = true -> (f <=? of_int 20000)%f32 = true ->
  (abs (f - f) <? dec 1 1000)%f32 = true.
Proof.
  intros Hpos Hle.
  destruct (positive_bounded_finite f (of_int 20000) Hpos Hle eq_refl)
    as [(m & e & ->)|[_ Hinf]].
  - now rewrite sub_diag_finite.
  - vm_compute in Hinf. discriminate.
Qed.

(** C6.  From an engine with no active note, [triggerNote f] followed by
    [triggerNoteOff f], for [f] in (0, 20000], leaves no active note and the
    note-on flag cleared. *)
Theorem trigger_then_release (f : float) (s : AudioSystem) :
  m_activeNotes s = [] ->
  (zero <? f)%f32 = true -> (f <=? of_int 20000)%f32 = true ->
  let s' := triggerNoteOff f (triggerNote f s) in
  m_activeNotes s' = [] /\ m_noteOn s' = false.
Proof.
  intros Hempty Hpos Hle s'.
  destruct (triggerNote_valid f s Hpos Hle) as (Hnotes & _).
  rewrite Hempty in Hnotes. simpl in Hnotes.
  subst s'. unfold triggerNoteOff.
  rewrite (ltb_isnan_r _ _ Hpos), Hnotes.
  unfold erase_last. simpl rev. cbn [erase_first frequency].
  rewrite (isMatch_same f Hpos Hle). simpl. split; reflexivity.
Qed.

(** C10.  The constructor stores 44100 Hz for a sample rate that is at most
    0 and stores a positive sample rate as given; 50 Hz, below the 100 Hz the
    specification asks for, is stored unchanged. *)
Theorem construct_sample_rate (sampleRate : float) (rng : RandomEngine) :
  ((sampleRate <=? zero)%f32 = true ->
     m_sampleRate (construct sampleRate rng) = of_int 44100)
  /\ ((zero <? sampleRate)%f32 = true ->
        m_sampleRate (construct sampleRate rng) = sampleRate)
  /\ m_sampleRate (construct (of_int 50) rng) = of_int 50.
Proof.
  assert (forall sr, (zero <? sr)%f32 = true -> m_sampleRate (construct sr rng) = sr) as Hpos.
  { intros sr H. unfold construct.
    cbn [m_sampleRate set_m_envelope set_m_secondaryWaveform set_m_primaryWaveform].
    rewrite (ltb_true_leb_false _ _ H). cbn [m_sampleRate].
    unfold gtb. fold (ltb zero sr). now rewrite H. }
  split; [|split].
  - intros H. unfold construct.
    cbn [m_sampleRate set_m_envelope set_m_secondaryWaveform set_m_primaryWaveform].
    rewrite H. reflexivity.
  - apply Hpos.
  - apply Hpos. vm_compute. reflexivity.
Qed.

(** The cents of every clamped pitch-bend value lie in [-100, 100]. *)
Lemma bend_cents_bounded clamped :
  -8192 <= clamped <= 8191 ->
  (of_int (-100) <=? bend_cents clamped)%f32 = true /\
  (bend_cents clamped <=? of_int 100)%f32 = true.
Proof.
  intros H.
  assert (forallb (fun c => (of_int (-100) <=? bend_cents c)%f32
                            && (bend_cents c <=? of_int 100)%f32)
            (seqZ (-8192) 16384) = true) as Hall by (vm_compute; reflexivity).
  rewrite forallb_forall in Hall.
  apply andb_true_iff, Hall, list_elem_of_In, elem_of_seqZ. lia.
Qed.

(** C3.  [setPitchBend] clamps the wheel value into [-8192, 8191] and stores
    [(clamped / 8191) * 100] cents for a clamped value that is at least 0 and
    [(clamped / 8192) * 100] otherwise, in binary32 arithmetic; the result is
    within [-100, 100], and the values 0, 8191 and -8192 give exactly 0, 100
    and -100 cents. *)
Theorem setPitchBend_spec (value : Z) (s : AudioSystem) :
  let clamped := Z.max (-8192) (Z.min 8191 value) in
  -8192 <= clamped <= 8191
  /\ m_pitchBendCents (setPitchBend value s)
     = ((if (0 <=? clamped)%Z then of_int clamped / of_int 8191
         else of_int clamped / of_int 8192) * of_int 100)%f32
  /\ (of_int (-100) <=? m_pitchBendCents (setPitchBend value s))%f32 = true
  /\ (m_pitchBendCents (setPitchBend value s) <=? of_int 100)%f32 = true
  /\ m_pitchBendCents (setPitchBend 0 s) = zero
  /\ m_pitchBendCents (setPitchBend 8191 s) = of_int 100
  /\ m_pitchBendCents (setPitchBend (-8192) s) = of_int (-100).
Proof.
  intros clamped.
  assert (-8192 <= clamped <= 8191) as Hrange by (unfold clamped; lia).
  assert (forall v, m_pitchBendCents (setPitchBend v s)
                    = bend_cents (Z.max (-8192) (Z.min 8191 v))) as Hcents.
  { intros v. unfold setPitchBend, bend_cents. cbn [m_pitchBendCents set_m_pitchBendCents].
    assert ((of_int 1 * of_int 100)%f32 = of_int 100) as -> by (vm_compute; reflexivity).
    reflexivity. }
  split; [exact Hrange|].
  split; [rewrite Hcents; reflexivity|].
  rewrite !Hcents. fold clamped.
  destruct (bend_cents_bounded clamped Hrange) as [Hlo Hhi].
  repeat split; try assumption; vm_compute; reflexivity.
Qed.

End WithHost.

Section Examples.
#[local] Existing Instance demo_libm.
#[local] Existing Instance demo_envelope.
#[local] Existing Instance demo_random.

Lemma triggerNote_out_of_range_ignored_witness :
  triggerNote (of_int 0) demo_engine_held = demo_engine_held
  /\ triggerNote (of_int 20001) demo_engine_held = demo_engine_held.
Proof.
  split.
  - apply (triggerNote_out_of_range_ignored (of_int 0) demo_engine_held).
    left. vm_compute. reflexivity.
  - apply (triggerNote_out_of_range_ignored (of_int 20001) demo_engine_held).
    right. vm_compute. reflexivity.
Defined.

Lemma triggerNote_legato_witness :
  let s' := triggerNote (of_int 220) demo_engine_held in
  m_primaryPhase s' = dec 25 100
  /\ m_secondaryPhase s' = dec 5 10
  /\ m_lfoPhase s' = dec 75 100
  /\ @m_envelope demo_envelope demo_random s' = Some false.
Proof.
  destruct (triggerNote_legato (of_int 220) demo_engine_held) as [Hheld _].
  - vm_compute. reflexivity.
  - vm_compute. reflexivity.
  - apply Hheld. vm_compute. discriminate.
Defined.

Lemma trigger_then_release_witness :
  let s' := triggerNoteOff (of_int 440) (triggerNote (of_int 440) demo_engine) in
  m_activeNotes s' = [] /\ m_noteOn s' = false.
Proof.
  apply (trigger_then_release (of_int 440) demo_engine).
  - reflexivity.
  - vm_compute. reflexivity.
  - vm_compute. reflexivity.
Defined.

Lemma construct_sample_rate_witness :
  m_sampleRate (@construct demo_envelope demo_random (of_int (-1)) 0%nat) = of_int 44100
  /\ m_sampleRate (@construct demo_envelope demo_random (of_int 48000) 0%nat)
     = of_int 48000.
Proof.
  destruct (@construct_sample_rate demo_envelope demo_random (of_int (-1)) 0%nat)
    as (Hneg & _ & _).
  destruct (@construct_sample_rate demo_envelope demo_random (of_int 48000) 0%nat)
    as (_ & Hpos & _).
  split.
  - apply Hneg. vm_compute. reflexivity.
  - apply Hpos. vm_compute. reflexivity.
Defined.

End Examples.

End EngineSpec.

(** ** The engine: invariants over any run of calls *)
Module EngineExtra.
Import F32 Cmath Host Engine F32Facts EngineSpec.

#[local] Arguments F32.of_int : simpl never.

(** The members a call leaves alone are read off its definition. *)
Ltac frame :=
  intros;
  repeat match goal with
         | |- context [match ?x with _ => _ end] =>
             lazymatch x with
             | context [match _ with _ => _ end] => fail
             | _ => destruct x
             end
         | |- context [if ?b then _ else _] => destruct b
         end;
  try reflexivity.

Lemma foldl_frame {envelope_impl : EnvelopeImpl} {random_impl : RandomImpl}
  {A B : Type} (P : AudioSystem -> A) (f : AudioSystem -> B -> AudioSystem)
  (l : list B) (s : AudioSystem) :
  (forall s x, P (f s x) = P s) -> P (foldl f s l) = P s.
Proof.
  intros Hf. revert s. induction l as [|x l IH]; intros s; [reflexivity|].
  cbn [foldl]. now rewrite IH, Hf.
Qed.

(** The same for [configure], through its loop, and for any call. *)
Ltac frame_configure P :=
  unfold configure;
  match goal with
  | |- context [foldl ?f ?a ?l] =>
      let Hfold := fresh "Hfold" in
      pose proof (foldl_frame P f l a) as Hfold;
      cbn beta in Hfold;
      let s1 := fresh "s1" in
      set (s1 := foldl f a l) in *;
      destruct (m_envelope s1);
      (etransitivity; [|apply Hfold; intros ? ?; unfold configure_effect; frame]);
      reflexivity
  end.

Ltac frame_call P :=
  cbn [apply_call fst];
  lazymatch goal with
  | |- context [configure] => frame_configure P
  | _ =>
      unfold setWaveform, getNextSample, applyEffects, oscillators,
        updateEffectParameters, setLowPassCutoff, configureSecondaryOscillator,
        setSecondaryWaveform, resetEffects, clearEffects, updateADSRParameters,
        setDriftParameters, setWaveformTapBuffer, setPitchBend, triggerNote,
        triggerNoteOff;
      frame
  end.

Section WithHost.
Context {libm : LibM} {tanh_impl : LibMTanh} {envelope_impl : EnvelopeImpl}
  {random_impl : RandomImpl} {envelope_process : EnvelopeProcessImpl}
  {wave_impl : WaveImpl} {octave_defaults : OctaveDefaults}.

Lemma notes_untouched call s heap :
  (forall f, call <> CallTriggerNote f) -> (forall f, call <> CallTriggerNoteOff f) ->
  let s' := (apply_call (s, heap) call).1 in
  (m_activeNotes s', m_noteOn s', m_frequency s', m_noteDetuneCents s')
  = (m_activeNotes s, m_noteOn s, m_frequency s, m_noteDetuneCents s).
Proof.
  intros Hon Hoff.
  destruct call; try (exfalso; eapply Hon; reflexivity); try (exfalso; eapply Hoff; reflexivity); cbn zeta;
    frame_call (fun s => (m_activeNotes s, m_noteOn s, m_frequency s, m_noteDetuneCents s)).
Qed.


Lemma snd_getNextSample heap s :
  (let '(_, s', heap') := getNextSample heap s in (s', heap')).1 = (getNextSample heap s).1.2.
Proof. now destruct (getNextSample heap s) as [[x s'] heap']. Qed.

(** *** The record of held notes *)

Lemma triggerNote_accepted f s :
  (f <=? zero)%f32 || (f >? of_int 20000)%f32 = false ->
  let draw1 := uniform_real_distribution (- m_noteJitterAmountCents s)%f32
                 (m_noteJitterAmountCents s) (randomEngine s) in
  let s' := triggerNote f s in
  m_activeNotes s' = m_activeNotes s ++ [{| frequency := f; detuneCents := draw1.1 |}]
  /\ m_frequency s' = f
  /\ m_noteDetuneCents s' = draw1.1
  /\ m_noteOn s' = true.
Proof.
  intros Hguard draw1 s'. subst s' draw1. unfold triggerNote. rewrite Hguard.
  destruct (uniform_real_distribution _ _ (randomEngine s)) as [detune rng].
  cbn [fst snd].
  destruct (m_activeNotes s) as [|n ns] eqn:En.
  - cbn [set_randomEngine set_m_lfoPhase randomEngine set_m_primaryPhase
         set_m_secondaryPhase set_m_noteOn set_m_noteDetuneCents set_m_frequency
         set_m_activeNotes].
    destruct (uniform_real_distribution zero (of_int 1) rng) as [phase rng2].
    destruct (m_envelope s) as [envelope|] eqn:Ee; simpl; rewrite ?En, ?Ee; simpl;
      rewrite ?Ee; repeat split; reflexivity.
  - simpl. rewrite ?En. repeat split; reflexivity.
Qed.

Lemma notes_consistent_frame s s' :
  (m_activeNotes s', m_noteOn s', m_frequency s', m_noteDetuneCents s')
  = (m_activeNotes s, m_noteOn s, m_frequency s, m_noteDetuneCents s) ->
  notes_consistent s -> notes_consistent s'.
Proof.
  intros [= Hn Ho Hf Hd]. unfold notes_consistent. now rewrite Hn, Ho, Hf, Hd.
Qed.

Lemma triggerNote_notes f s : notes_consistent s -> notes_consistent (triggerNote f s).
Proof.
  intros Hs.
  destruct ((f <=? zero)%f32 || (f >? of_int 20000)%f32) eqn:Hguard.
  - unfold triggerNote. now rewrite Hguard.
  - destruct (triggerNote_accepted f s Hguard) as (Hn & Hf & Hd & Ho).
    unfold notes_consistent. rewrite Hn, last_snoc, Hf, Hd, Ho. cbn. auto.
Qed.

Lemma triggerNoteOff_notes f s : notes_consistent (triggerNoteOff f s).
Proof.
  unfold triggerNoteOff, notes_consistent. destruct (isnan f); [reflexivity|].
  cbn [m_activeNotes set_m_activeNotes].
  destruct (last (erase_last _ (m_activeNotes s))) as [active|] eqn:El;
    cbn [m_activeNotes set_m_activeNotes set_m_noteOn set_m_frequency
         set_m_noteDetuneCents m_noteOn m_frequency m_noteDetuneCents];
    rewrite El; auto.
Qed.

Lemma apply_call_notes call s heap :
  notes_consistent s -> notes_consistent (apply_call (s, heap) call).1.
Proof.
  intros Hs.
  destruct call;
    try (apply (notes_consistent_frame s); [|exact Hs];
         apply notes_untouched; intros ?; discriminate).
  - now apply triggerNote_notes.
  - apply triggerNoteOff_notes.
Qed.

Lemma construct_notes sampleRate rng : notes_consistent (construct sampleRate rng).
Proof.
  unfold notes_consistent, construct.
  destruct (sampleRate <=? zero)%f32; reflexivity.
Qed.

Lemma run_calls_invariant (P : AudioSystem -> Prop) calls st :
  (forall call s heap, P s -> P (apply_call (s, heap) call).1) ->
  P st.1 -> P (run_calls calls st).1.
Proof.
  intros Hstep. revert st. induction calls as [|call calls IH]; intros [s heap] Hs;
    [exact Hs|].
  cbn [run_calls foldl]. apply IH. destruct (apply_call (s, heap) call) eqn:E.
  change a with (a, h).1. rewrite <- E. now apply Hstep.
Qed.

(** X7.  Whatever calls are made on a constructed engine, its note flag is
    set exactly when a note is held, and the current frequency and detune are
    those of the note held last. *)
Theorem held_notes_consistent (sampleRate : float) (rng : RandomEngine) (heap : Heap)
  (calls : list Call) :
  notes_consistent (run_calls calls (construct sampleRate rng, heap)).1.
Proof.
  apply run_calls_invariant.
  - intros call s heap'. apply apply_call_notes.
  - apply construct_notes.
Qed.



(** [getNextSample] on an engine with a waveform: the oscillators and the
    envelope produce a mono sample and touch the phases and the envelope
    only; the effect chain and the tap see the result. *)
Lemma getNextSample_decompose heap s primary :
  m_primaryWaveform s = Some primary ->
  exists (x : float) (s3 : AudioSystem),
    (m_effects s3 = m_effects s /\ m_lowPassActive s3 = m_lowPassActive s
     /\ m_waveformTap s3 = m_waveformTap s
     /\ m_primaryWaveform s3 = m_primaryWaveform s
     /\ m_secondaryWaveform s3 = m_secondaryWaveform s
     /\ (is_Some (m_envelope s) -> is_Some (m_envelope s3)))
    /\ getNextSample heap s
       = (let '(out, s') := applyEffects (x, x) s3 in
          (out, s',
           match m_waveformTap s' with
           | Some tap => alter (RingBuffer.push out.1 out.2) tap heap
           | None => heap
           end)).
Proof.
  intros Hp. unfold getNextSample, oscillators. rewrite Hp.
  repeat (cbn beta iota zeta;
          match goal with
          | |- context [match ?x with _ => _ end] =>
              lazymatch x with
              | context [match _ with _ => _ end] => fail
              | applyEffects _ _ => fail
              | m_waveformTap _ => fail
              | _ => destruct x eqn:?
              end
          end);
    cbn beta iota zeta;
    (eexists _, _; split; [|reflexivity]); repeat split; try assumption;
    try reflexivity; intros [? ?]; cbn; eauto; congruence.
Qed.

Lemma applyEffects_fields x s :
  let r := applyEffects x s in
  m_effects r.2 = (applyEffects_chain x (m_effects s)).2
  /\ r.1 = (applyEffects_chain x (m_effects s)).1
  /\ m_lowPassActive r.2 = m_lowPassActive s
  /\ m_waveformTap r.2 = m_waveformTap s
  /\ m_primaryWaveform r.2 = m_primaryWaveform s
  /\ m_secondaryWaveform r.2 = m_secondaryWaveform s
  /\ m_envelope r.2 = m_envelope s.
Proof.
  unfold applyEffects. cbn zeta.
  destruct (applyEffects_chain x (m_effects s)) as [out chain]. repeat split.
Qed.

(** *** The low-pass flag *)

Lemma existsb_low_pass_map (g : Effect -> Effect) chain :
  (forall effect, is_low_pass (g effect) = is_low_pass effect) ->
  existsb is_low_pass (map g chain) = existsb is_low_pass chain.
Proof.
  intros Hg. induction chain as [|effect chain IH]; [reflexivity|].
  cbn [map existsb]. now rewrite Hg, IH.
Qed.

Lemma process_effect_kind x effect : is_low_pass (process_effect x effect).2 = is_low_pass effect.
Proof. unfold process_effect. frame. Qed.

Lemma applyEffects_chain_kind x chain :
  existsb is_low_pass (applyEffects_chain x chain).2 = existsb is_low_pass chain.
Proof.
  revert x. induction chain as [|effect chain IH]; intros x; [reflexivity|].
  cbn [applyEffects_chain existsb].
  pose proof (process_effect_kind x effect) as Hk.
  destruct (process_effect x effect) as [y effect'].
  specialize (IH y). destruct (applyEffects_chain y chain) as [out rest].
  cbn [snd existsb] in *. now rewrite Hk, IH.
Qed.

Lemma update_chain_kind effectLower parameters chain chain' cutoff :
  update_chain effectLower parameters chain = Some (chain', cutoff) ->
  existsb is_low_pass chain' = existsb is_low_pass chain
  /\ (is_Some cutoff -> existsb is_low_pass chain = true).
Proof.
  revert chain' cutoff. induction chain as [|effect chain IH]; intros chain' cutoff;
    [discriminate|].
  cbn [update_chain].
  assert (match update_chain effectLower parameters chain with
          | Some (rest, cutoff) => Some (effect :: rest, cutoff)
          | None => None
          end = Some (chain', cutoff) ->
          existsb is_low_pass chain' = existsb is_low_pass (effect :: chain)
          /\ (is_Some cutoff -> existsb is_low_pass (effect :: chain) = true)) as Hnext.
  { destruct (update_chain effectLower parameters chain) as [[rest c]|]; [|discriminate].
    intros [= <- <-]. destruct (IH rest c eq_refl) as [Hk Hc]. cbn [existsb].
    rewrite Hk. split; [reflexivity|]. intros H. rewrite (Hc H). apply orb_true_r. }
  repeat match goal with
         | |- context [if ?b then _ else _] => destruct b
         end;
    destruct effect, parameters; try exact Hnext; intros [= <- <-];
    (split; [reflexivity|]); intros [c Hc]; try discriminate; reflexivity.
Qed.

Lemma low_pass_flag_frame s s' :
  (m_lowPassActive s', m_effects s') = (m_lowPassActive s, m_effects s) ->
  low_pass_flag_ok s -> low_pass_flag_ok s'.
Proof. intros [= Ha He]. unfold low_pass_flag_ok. now rewrite Ha, He. Qed.

Lemma configure_effect_flag s name :
  low_pass_flag_ok s -> low_pass_flag_ok (configure_effect s name).
Proof.
  unfold low_pass_flag_ok, configure_effect. intros Hs.
  repeat match goal with
         | |- context [if ?b then _ else _] => destruct b
         end;
    cbn [m_lowPassActive m_effects set_m_effects set_m_lowPassActive
         set_m_lastLowPassCutoff]; rewrite ?existsb_app; cbn [existsb is_low_pass];
    rewrite ?orb_false_r, ?orb_true_r; auto.
Qed.

Lemma foldl_invariant {B : Type} (P : AudioSystem -> Prop)
  (f : AudioSystem -> B -> AudioSystem) (l : list B) (s : AudioSystem) :
  (forall s x, P s -> P (f s x)) -> P s -> P (foldl f s l).
Proof.
  intros Hf. revert s. induction l as [|x l IH]; intros s Hs; [exact Hs|].
  cbn [foldl]. apply IH, Hf, Hs.
Qed.

Lemma apply_call_flag call s heap :
  low_pass_flag_ok s -> low_pass_flag_ok (apply_call (s, heap) call).1.
Proof.
  intros Hs.
  destruct call;
    try (apply (low_pass_flag_frame s); [|exact Hs];
         frame_call (fun s => (m_lowPassActive s, m_effects s)); fail).
  - (* configure *)
    cbn [apply_call fst]. unfold configure.
    match goal with |- context [foldl ?f ?a ?l] =>
      assert (low_pass_flag_ok (foldl f a l)) as Hfold
    end.
    { apply foldl_invariant; [apply configure_effect_flag|reflexivity]. }
    revert Hfold.
    match goal with |- context [foldl ?f ?a ?l] => generalize (foldl f a l) end.
    intros s1 Hs1. destruct (m_envelope s1); exact Hs1.
  - (* triggerNote *)
    cbn [apply_call fst]. unfold low_pass_flag_ok in *.
    assert (m_lowPassActive (triggerNote newFrequency s) = m_lowPassActive s) as ->
      by (unfold triggerNote; frame).
    assert (existsb is_low_pass (m_effects (triggerNote newFrequency s))
            = existsb is_low_pass (m_effects s)) as ->; [|exact Hs].
    unfold triggerNote. frame; cbn [m_effects set_m_effects set_m_noteOn
      set_m_noteDetuneCents set_m_frequency set_m_activeNotes set_randomEngine
      set_m_envelope set_m_lfoPhase set_m_secondaryPhase set_m_primaryPhase];
      apply existsb_low_pass_map; intros []; reflexivity.
  - (* getNextSample *)
    cbn [apply_call]. rewrite snd_getNextSample. unfold low_pass_flag_ok in *.
    destruct (m_primaryWaveform s) as [primary|] eqn:Hp.
    + destruct (getNextSample_decompose heap s primary Hp)
        as (x & s3 & (He & Ha & _) & ->).
      destruct (applyEffects_fields (x, x) s3) as (He' & _ & Ha' & _).
      destruct (applyEffects (x, x) s3) as [out s']. cbn [fst snd] in *.
      rewrite He', Ha', applyEffects_chain_kind, Ha, He. exact Hs.
    + unfold getNextSample. now rewrite Hp.
  - (* resetEffects *)
    cbn [apply_call fst]. unfold low_pass_flag_ok, resetEffects in *.
    cbn [m_lowPassActive m_effects set_m_effects]. rewrite Hs. symmetry.
    apply existsb_low_pass_map. intros []; reflexivity.
  - (* clearEffects *)
    reflexivity.
  - (* updateEffectParameters *)
    cbn [apply_call fst]. unfold low_pass_flag_ok, updateEffectParameters in *.
    destruct (update_chain _ _ (m_effects s)) as [[chain' cutoff]|] eqn:Eu; [|exact Hs].
    destruct (update_chain_kind _ _ _ _ _ Eu) as [Hk Hc].
    destruct cutoff as [c|]; cbn [snd m_lowPassActive m_effects set_m_effects
      set_m_lowPassActive set_m_lastLowPassCutoff].
    + rewrite Hk, Hc; [reflexivity|eauto].
    + now rewrite Hk.
  - (* setLowPassCutoff *)
    cbn [apply_call fst]. unfold low_pass_flag_ok, setLowPassCutoff in *.
    assert (forall g, (forall e, is_low_pass (g e) = is_low_pass e) ->
              existsb is_low_pass (map g (m_effects s)) = existsb is_low_pass (m_effects s))
      as Hmap by (intros; now apply existsb_low_pass_map).
    match goal with
    | |- context [if ?b then _ else _] =>
        change b with (existsb is_low_pass (m_effects s))
    end.
    destruct (existsb is_low_pass (m_effects s)) eqn:Ee;
      cbn [m_lowPassActive m_effects set_m_effects set_m_lowPassActive
           set_m_lastLowPassCutoff];
      (rewrite Hmap; [reflexivity | intros []; reflexivity]).
Qed.


(** X8.  Whatever calls are made on a constructed engine, [hasLowPassEffect]
    tells whether the effect chain holds a low-pass filter, and
    [getLowPassCutoff] is 0 when it holds none. *)
Theorem low_pass_flag_truthful (sampleRate : float) (rng : RandomEngine) (heap : Heap)
  (calls : list Call) :
  let s := (run_calls calls (construct sampleRate rng, heap)).1 in
  hasLowPassEffect s = existsb is_low_pass (m_effects s)
  /\ (existsb is_low_pass (m_effects s) = false -> getLowPassCutoff s = zero).
Proof.
  cbn zeta.
  assert (low_pass_flag_ok (run_calls calls (construct sampleRate rng, heap)).1) as H.
  { apply run_calls_invariant.
    - intros call s heap'. apply apply_call_flag.
    - unfold low_pass_flag_ok, construct.
      destruct (sampleRate <=? zero)%f32; reflexivity. }
  split; [exact H|]. unfold getLowPassCutoff. intros Hnone.
  unfold low_pass_flag_ok in H. now rewrite H, Hnone.
Qed.

(** *** The normalised settings *)

Lemma max_zero_not_negative x : (F32.max x zero <? zero)%f32 = false.
Proof.
  unfold F32.max. destruct (ltb x zero) eqn:E; [reflexivity|exact E].
Qed.

Lemma secondary_mix_range mix :
  let m := F32.max zero (F32.min (of_int 1) mix) in
  (zero <=? m)%f32 = true /\ (m <=? of_int 1)%f32 = true.
Proof.
  cbn zeta. unfold F32.max, F32.min.
  destruct (ltb mix (of_int 1)) eqn:E1.
  - destruct (ltb zero mix) eqn:E0.
    + split; now apply ltb_leb.
    + split; reflexivity.
  - split; reflexivity.
Qed.

Lemma settings_frame s s' :
  (m_secondaryMix s', m_secondaryOctaveOffset s', m_secondaryDetuneCents s',
   m_lfoRateHz s', m_lfoAmountCents s', m_noteJitterAmountCents s', m_pitchBendCents s')
  = (m_secondaryMix s, m_secondaryOctaveOffset s, m_secondaryDetuneCents s,
     m_lfoRateHz s, m_lfoAmountCents s, m_noteJitterAmountCents s, m_pitchBendCents s) ->
  settings_in_range s -> settings_in_range s'.
Proof.
  intros [= H1 H2 H3 H4 H5 H6 H7]. unfold settings_in_range.
  now rewrite H1, H2, H3, H4, H5, H6, H7.
Qed.

Lemma setPitchBend_cents value s :
  m_pitchBendCents (setPitchBend value s) = bend_cents (Z.max (-8192) (Z.min 8191 value)).
Proof.
  unfold setPitchBend, bend_cents. cbn [m_pitchBendCents set_m_pitchBendCents].
  assert ((of_int 1 * of_int 100)%f32 = of_int 100) as -> by (vm_compute; reflexivity).
  now destruct (0 <=? Z.max (-8192) (Z.min 8191 value)).
Qed.

Lemma apply_call_settings call s heap :
  settings_in_range s -> settings_in_range (apply_call (s, heap) call).1.
Proof.
  intros Hs.
  destruct call;
    try (apply (settings_frame s); [|exact Hs];
         frame_call (fun s =>
           (m_secondaryMix s, m_secondaryOctaveOffset s, m_secondaryDetuneCents s,
            m_lfoRateHz s, m_lfoAmountCents s, m_noteJitterAmountCents s,
            m_pitchBendCents s)); fail).
  - (* setDriftParameters *)
    destruct Hs as (Hmix & Hoct & Hdet & _ & _ & _ & Hbend).
    cbn [apply_call fst]. unfold setDriftParameters, settings_in_range.
    cbn [m_secondaryMix m_secondaryOctaveOffset m_secondaryDetuneCents m_lfoRateHz
         m_lfoAmountCents m_noteJitterAmountCents m_pitchBendCents set_m_lfoRateHz
         set_m_lfoAmountCents set_m_noteJitterAmountCents].
    rewrite !max_zero_not_negative. repeat split; try reflexivity; tauto.
  - (* configureSecondaryOscillator *)
    destruct Hs as (_ & _ & _ & Hrate & Hamount & Hjitter & Hbend).
    cbn [apply_call fst]. unfold configureSecondaryOscillator, settings_in_range.
    destruct enabled; cbn [negb];
      cbn [m_secondaryMix m_secondaryOctaveOffset m_secondaryDetuneCents m_lfoRateHz
           m_lfoAmountCents m_noteJitterAmountCents m_pitchBendCents
           set_m_secondaryEnabled set_m_secondaryMix set_m_secondaryDetuneCents
           set_m_secondaryOctaveOffset set_m_secondaryPhase].
    + rewrite max_zero_not_negative.
      pose proof (secondary_mix_range mix) as Hmix. cbn zeta in Hmix.
      repeat split; try tauto; try lia.
    + repeat split; try tauto; try lia; reflexivity.
  - (* setPitchBend *)
    destruct Hs as (Hmix & Hoct & Hdet & Hrate & Hamount & Hjitter & _).
    cbn [apply_call fst]. unfold settings_in_range.
    rewrite setPitchBend_cents.
    assert (-8192 <= Z.max (-8192) (Z.min 8191 value) <= 8191) as Hc by lia.
    pose proof (bend_cents_bounded _ Hc) as Hb.
    unfold setPitchBend.
    cbn [m_secondaryMix m_secondaryOctaveOffset m_secondaryDetuneCents m_lfoRateHz
         m_lfoAmountCents m_noteJitterAmountCents set_m_pitchBendCents].
    tauto.
Qed.

(** X9.  Whatever calls are made on a constructed engine and whatever their
    arguments, NaN included, the secondary mix stays within [0, 1], the
    secondary octave offset within [-2, 2], the pitch bend within
    [-100, 100] cents, and the secondary detune, the drift rate, the drift
    amount and the note jitter are never negative. *)
Theorem settings_stay_in_range (sampleRate : float) (rng : RandomEngine) (heap : Heap)
  (calls : list Call) :
  settings_in_range (run_calls calls (construct sampleRate rng, heap)).1.
Proof.
  apply run_calls_invariant.
  - intros call s heap'. apply apply_call_settings.
  - unfold settings_in_range, construct.
    destruct (sampleRate <=? zero)%f32;
      cbn [fst m_secondaryMix m_secondaryOctaveOffset m_secondaryDetuneCents m_lfoRateHz
           m_lfoAmountCents m_noteJitterAmountCents m_pitchBendCents set_m_sampleRate
           set_m_primaryWaveform set_m_secondaryWaveform set_m_envelope];
      repeat split; try lia; vm_compute; reflexivity.
Qed.


(** *** What no call changes *)

Lemma apply_call_sampleRate call s heap :
  m_sampleRate (apply_call (s, heap) call).1 = m_sampleRate s.
Proof. destruct call; frame_call (fun s => m_sampleRate s). Qed.

Lemma engine_ready_frame s s' :
  (m_primaryWaveform s', m_secondaryWaveform s', m_envelope s')
  = (m_primaryWaveform s, m_secondaryWaveform s, m_envelope s) ->
  engine_ready s -> engine_ready s'.
Proof. intros [= H1 H2 H3]. unfold engine_ready. now rewrite H1, H2, H3. Qed.

Lemma apply_call_ready call s heap :
  engine_ready s -> engine_ready (apply_call (s, heap) call).1.
Proof.
  intros Hs.
  destruct call as [w|config|newFrequency|freq| | | |effectName parameters
                   |attack decay sustain release|rateHz amountCents jitterCents|tap
                   |cutoffHz|enabled mix detuneCents octaveOffset|w|value];
    try (apply (engine_ready_frame s); [|exact Hs];
         frame_call (fun s => (m_primaryWaveform s, m_secondaryWaveform s, m_envelope s));
         fail);
    destruct Hs as (Hp & Hs2 & He); cbn [apply_call fst]; unfold engine_ready.
  - (* setWaveform *)
    unfold setWaveform. destruct w; cbn; eauto.
  - (* configure *)
    unfold configure.
    match goal with |- context [foldl ?f ?a ?l] =>
      assert (engine_ready (foldl f a l)) as Hfold
    end.
    { apply foldl_invariant.
      - intros s0 x H0. apply (engine_ready_frame s0); [|exact H0].
        unfold configure_effect. frame.
      - unfold engine_ready.
        cbn [m_primaryWaveform m_secondaryWaveform m_envelope set_m_lastLowPassCutoff
             set_m_lowPassActive set_m_effects set_m_secondaryWaveform
             set_m_primaryWaveform]. eauto. }
    revert Hfold.
    match goal with |- context [foldl ?f ?a ?l] => generalize (foldl f a l) end.
    intros s1 (H1 & H2 & H3). destruct H3 as [envelope H3]. rewrite H3. cbn. eauto.
  - (* triggerNote *)
    assert (m_primaryWaveform (triggerNote newFrequency s) = m_primaryWaveform s) as ->
      by (unfold triggerNote; frame).
    assert (m_secondaryWaveform (triggerNote newFrequency s) = m_secondaryWaveform s) as ->
      by (unfold triggerNote; frame).
    repeat split; try assumption.
    unfold triggerNote. destruct He as [envelope He]. frame; cbn; rewrite ?He; eauto;
      cbn in *; congruence.
  - (* getNextSample *)
    rewrite snd_getNextSample.
    destruct Hp as [primary Hp].
    destruct (getNextSample_decompose heap s primary Hp)
      as (x & s3 & (_ & _ & _ & H1 & H2 & H3) & ->).
    destruct (applyEffects_fields (x, x) s3) as (_ & _ & _ & _ & H1' & H2' & H3').
    destruct (applyEffects (x, x) s3) as [out s']. cbn [fst snd] in *.
    rewrite H1', H2', H3', H1, H2, Hp. eauto.
  - (* updateADSRParameters *)
    unfold updateADSRParameters. cbn. eauto.
  - (* setSecondaryWaveform *)
    unfold setSecondaryWaveform. destruct w; cbn; eauto.
Qed.

Lemma construct_ready sampleRate rng : engine_ready (construct sampleRate rng).
Proof.
  unfold engine_ready, construct. destruct (sampleRate <=? zero)%f32; cbn; eauto.
Qed.

Lemma run_calls_ready sampleRate rng heap calls :
  engine_ready (run_calls calls (construct sampleRate rng, heap)).1.
Proof.
  apply run_calls_invariant.
  - intros call s heap'. apply apply_call_ready.
  - apply construct_ready.
Qed.

(** X10.  The sample rate of an engine is fixed when it is constructed: no
    call changes it, [configure] included, whatever [config.sampleRate]
    holds; and no call leaves the engine without a primary waveform, a
    secondary waveform or an envelope. *)
Theorem sample_rate_fixed (sampleRate : float) (rng : RandomEngine) (heap : Heap)
  (calls : list Call) :
  let s := (run_calls calls (construct sampleRate rng, heap)).1 in
  m_sampleRate s = (if (sampleRate >? zero)%f32 then sampleRate else of_int 44100)
  /\ is_Some (m_primaryWaveform s) /\ is_Some (m_secondaryWaveform s)
  /\ is_Some (m_envelope s).
Proof.
  cbn zeta. split; [|apply run_calls_ready].
  apply (run_calls_invariant
           (fun s => m_sampleRate s
                     = (if (sampleRate >? zero)%f32 then sampleRate else of_int 44100))).
  - intros call s heap' Hs. now rewrite apply_call_sampleRate.
  - unfold construct. cbn [fst].
    destruct (sampleRate <=? zero)%f32 eqn:Hle;
      cbn [m_sampleRate set_m_sampleRate set_m_primaryWaveform set_m_secondaryWaveform
           set_m_envelope]; [|reflexivity].
    unfold gtb. fold (ltb zero sampleRate).
    now rewrite (leb_true_ltb_false _ _ Hle).
Qed.

(** *** Note-off *)

Lemma erase_first_none {A : Type} (isMatch : A -> bool) (l : list A) :
  Forall (fun x => isMatch x = false) l -> erase_first isMatch l = l.
Proof.
  induction 1 as [|x l Hx _ IH]; [reflexivity|]. cbn [erase_first]. now rewrite Hx, IH.
Qed.

Lemma erase_last_none {A : Type} (isMatch : A -> bool) (l : list A) :
  Forall (fun x => isMatch x = false) l -> erase_last isMatch l = l.
Proof.
  intros H. unfold erase_last. rewrite erase_first_none, rev_involutive; [reflexivity|].
  apply Forall_forall. intros x Hx. rewrite Forall_forall in H. apply H.
  apply list_elem_of_In. apply list_elem_of_In, in_rev in Hx. exact Hx.
Qed.

Lemma erase_last_snoc_keep {A : Type} (isMatch : A -> bool) (l : list A) (x : A) :
  isMatch x = false -> erase_last isMatch (l ++ [x]) = erase_last isMatch l ++ [x].
Proof.
  intros Hx. unfold erase_last. rewrite rev_app_distr. cbn [rev app erase_first].
  rewrite Hx. reflexivity.
Qed.

(** X11.  Releasing a frequency that is not within 0.001 Hz of any held note
    changes nothing in an engine whose note record is consistent. *)
Theorem triggerNoteOff_unheld (f : float) (s : AudioSystem) :
  notes_consistent s -> isnan f = false ->
  Forall (fun active => (abs (frequency active - f) <? dec 1 1000)%f32 = false)
    (m_activeNotes s) ->
  triggerNoteOff f s = s.
Proof.
  intros Hs Hf Hnone. unfold triggerNoteOff. rewrite Hf.
  rewrite (erase_last_none _ _ Hnone).
  unfold notes_consistent in Hs.
  cbn [m_activeNotes set_m_activeNotes].
  destruct (last (m_activeNotes s)) as [active|];
    destruct s; cbn in *; [destruct Hs as (-> & -> & ->)|rewrite Hs]; reflexivity.
Qed.


Lemma sub_nan_l f : (nan - f)%f32 = nan.
Proof. now destruct f as [| | |[] ? ?]. Qed.

(** X12.  [triggerNote] does not reject NaN: the note is pushed like any
    other and becomes the current one, and since no frequency is within
    0.001 Hz of NaN, no [triggerNoteOff] with a number removes it; the note
    stays on top of the record and the note flag stays set until all notes
    are released. *)
Theorem triggerNote_nan_is_held (s : AudioSystem) (f : float) :
  let held := {| frequency := nan;
                 detuneCents :=
                   (uniform_real_distribution (- m_noteJitterAmountCents s)%f32
                      (m_noteJitterAmountCents s) (randomEngine s)).1 |} in
  let s' := triggerNote nan s in
  (m_activeNotes s' = m_activeNotes s ++ [held] /\ m_noteOn s' = true
   /\ m_frequency s' = nan)
  /\ (isnan f = false ->
      last (m_activeNotes (triggerNoteOff f s')) = Some held
      /\ m_noteOn (triggerNoteOff f s') = true
      /\ m_frequency (triggerNoteOff f s') = nan)
  /\ m_activeNotes (triggerNoteOff nan s') = [].
Proof.
  cbn zeta.
  assert ((nan <=? zero)%f32 || (nan >? of_int 20000)%f32 = false) as Hguard
    by (vm_compute; reflexivity).
  destruct (triggerNote_accepted nan s Hguard) as (Hn & Hf & Hd & Ho).
  cbn zeta in *. split; [auto|]. split; [|reflexivity].
  intros Hnum.
  assert (last (m_activeNotes (triggerNoteOff f (triggerNote nan s)))
          = Some {| frequency := nan;
                    detuneCents :=
                      (uniform_real_distribution (- m_noteJitterAmountCents s)%f32
                         (m_noteJitterAmountCents s) (randomEngine s)).1 |}) as Hlast.
  { unfold triggerNoteOff. rewrite Hnum. cbn [m_activeNotes set_m_activeNotes].
    rewrite Hn, erase_last_snoc_keep.
    - rewrite last_snoc.
      cbn [m_activeNotes set_m_activeNotes set_m_noteOn set_m_noteDetuneCents
           set_m_frequency].
      apply last_snoc.
    - cbn [frequency]. rewrite sub_nan_l. reflexivity. }
  split; [exact Hlast|].
  pose proof (triggerNoteOff_notes f (triggerNote nan s)) as Hc.
  unfold notes_consistent in Hc. rewrite Hlast in Hc. cbn [frequency] in Hc. tauto.
Qed.

End WithHost.

Section Examples.
#[local] Existing Instance demo_libm.
#[local] Existing Instance demo_envelope.
#[local] Existing Instance demo_random.

Lemma triggerNoteOff_unheld_witness :
  triggerNoteOff (of_int 220) demo_engine_held = demo_engine_held.
Proof.
  apply (triggerNoteOff_unheld (of_int 220) demo_engine_held).
  - vm_compute. repeat split; reflexivity.
  - reflexivity.
  - assert (m_activeNotes demo_engine_held
            = [{| frequency := of_int 440; detuneCents := of_int (-3) |}]) as ->
      by (vm_compute; reflexivity).
    constructor; [vm_compute; reflexivity | constructor].
Defined.

End Examples.

End EngineExtra.

(** ** The audio callback and the waveform tap *)
Module AudioDeviceSpec.
Import F32 Cmath Host RingBuffer Engine AudioDevice SizeTFacts RingBufferSpec
  RingBufferExtra EngineExtra.

#[local] Arguments F32.of_int : simpl never.

Section WithHost.
Context {libm : LibM} {tanh_impl : LibMTanh} {envelope_impl : EnvelopeImpl}
  {random_impl : RandomImpl} {envelope_process : EnvelopeProcessImpl}
  {wave_impl : WaveImpl} {octave_defaults : OctaveDefaults}.

(** One call of [getNextSample] on an engine with a tap: the sample returned
    is the one pushed, and the tap stays registered. *)
Lemma getNextSample_tap heap s a :
  m_waveformTap s = Some a -> is_Some (m_primaryWaveform s) ->
  let r := getNextSample heap s in
  r.2 = alter (push r.1.1.1 r.1.1.2) a heap
  /\ m_waveformTap r.1.2 = Some a
  /\ is_Some (m_primaryWaveform r.1.2).
Proof.
  intros Ha [primary Hp]. cbn zeta.
  destruct (getNextSample_decompose heap s primary Hp)
    as (x & s3 & (_ & _ & Ht & H1 & _) & ->).
  destruct (applyEffects_fields (x, x) s3) as (_ & _ & _ & Ht' & H1' & _).
  destruct (applyEffects (x, x) s3) as [out s']. cbn [fst snd] in *.
  rewrite Ht', Ht, Ha, H1', H1, Hp. eauto.
Qed.

Lemma render_tap n s heap a :
  m_waveformTap s = Some a -> is_Some (m_primaryWaveform s) ->
  let r := render n s heap in
  length r.1.1 = n
  /\ r.2 a = push_all r.1.1 (heap a)
  /\ (forall b, b <> a -> r.2 b = heap b)
  /\ m_waveformTap r.1.2 = Some a.
Proof.
  revert s heap. induction n as [|n IH]; intros s heap Ha Hp; cbn zeta.
  - cbn. auto.
  - cbn [render].
    destruct (getNextSample_tap heap s a Ha Hp) as (Hheap & Ha1 & Hp1).
    destruct (getNextSample heap s) as [[x s1] heap1]. cbn [fst snd] in *.
    specialize (IH s1 heap1 Ha1 Hp1). cbn zeta in IH.
    destruct (render n s1 heap1) as [[xs s2] heap2]. cbn [fst snd] in *.
    destruct IH as (Hlen & Htap & Hother & Ha2).
    repeat split.
    + cbn [length]. now rewrite Hlen.
    + rewrite Htap, Hheap. unfold push_all. cbn [foldl fst snd].
      now rewrite fn_lookup_alter.
    + intros b Hb. rewrite (Hother b Hb), Hheap. now apply fn_lookup_alter_ne.
    + exact Ha2.
Qed.

Lemma UInt_wrap_small z : 0 <= z < UInt_modulus -> UInt_wrap z = z.
Proof. intros H. unfold UInt_wrap. now apply Z.mod_small. Qed.

Lemma insert_two (pre rest : list float) (l r : float) :
  (2 <= length rest)%nat ->
  <[S (length pre) := r]> (<[length pre := l]> (pre ++ rest)) = (pre ++ [l; r]) ++ drop 2 rest.
Proof.
  destruct rest as [|a [|b rest]]; cbn [length]; try lia. intros _.
  rewrite !insert_app_r_alt by (rewrite ?length_insert; lia).
  replace (length pre - length pre)%nat with 0%nat by lia.
  replace (S (length pre) - length pre)%nat with 1%nat by lia.
  cbn. now rewrite <- app_assoc.
Qed.

(** The loop from index [i]: the frames already written stay, the rendered
    samples follow, and the rest of the buffer is untouched. *)
Lemma audioCallback_loop_spec n i pre rest s heap :
  Z.of_nat (length pre) = 2 * i -> 2 * (i + Z.of_nat n) < UInt_modulus ->
  (2 * n <= length rest)%nat ->
  let r := render n s heap in
  audioCallback_loop n i (pre ++ rest) s heap
  = (pre ++ interleave r.1.1 ++ drop (2 * n) rest, r.1.2, r.2).
Proof.
  revert i pre rest s heap.
  induction n as [|n IH]; intros i pre rest s heap Hi Hfit Hroom; cbn zeta.
  - cbn [render audioCallback_loop interleave fst snd app]. now rewrite drop_0.
  - cbn [render audioCallback_loop].
    destruct (getNextSample heap s) as [[x s1] heap1].
    assert (UInt_modulus = 2 ^ 32) as Hm by reflexivity.
    rewrite (UInt_wrap_small (2 * i)) by lia.
    rewrite (UInt_wrap_small (2 * i + 1)) by lia.
    rewrite (UInt_wrap_small (i + 1)) by lia.
    replace (Z.to_nat (2 * i)) with (length pre) by lia.
    replace (Z.to_nat (2 * i + 1)) with (S (length pre)) by lia.
    rewrite insert_two by lia.
    rewrite (IH (i + 1) (pre ++ [x.1; x.2]) (drop 2 rest) s1 heap1);
      [|rewrite length_app; cbn [length]; lia|lia|rewrite length_drop; lia].
    destruct (render n s1 heap1) as [[xs s2] heap2]. cbn [fst snd interleave].
    rewrite <- app_assoc. cbn [app]. rewrite drop_drop.
    replace (2 + 2 * n)%nat with (2 * S n)%nat by lia. reflexivity.
Qed.

(** X13.  A callback of [n] frames fills the first [2 n] entries of the
    output buffer with the [n] samples that [getNextSample] returns, in
    order, left channel before right; it leaves the rest of the buffer as it
    was and returns 0. *)
Theorem audioCallback_output (buffer : list float) (n : Z) (s : AudioSystem) (heap : Heap) :
  0 <= n < 2 ^ 31 -> 2 * n <= Z.of_nat (length buffer) ->
  let r := render (Z.to_nat n) s heap in
  audioCallback buffer n s heap
  = (0, (interleave r.1.1 ++ drop (Z.to_nat (2 * n)) buffer, r.1.2, r.2)).
Proof.
  intros Hn Hroom. cbn zeta. unfold audioCallback. f_equal.
  change buffer with ([] ++ buffer) at 1.
  rewrite (audioCallback_loop_spec (Z.to_nat n) 0 [] buffer s heap);
    [|reflexivity|change UInt_modulus with (2 ^ 32); lia|lia].
  cbn [app]. replace (2 * Z.to_nat n)%nat with (Z.to_nat (2 * n)) by lia. reflexivity.
Qed.

(** X14.  On an engine reached by any calls from its construction, with a
    tap registered at address [a], rendering [n] samples pushes exactly
    these samples, in order, on the buffer at [a]; no other buffer is
    touched, and the tap stays registered. *)
Theorem tap_receives_rendered_samples (sampleRate : float) (rng : RandomEngine)
  (heap0 : Heap) (calls : list Call) (a : nat) (n : nat) :
  let st := run_calls calls (construct sampleRate rng, heap0) in
  m_waveformTap st.1 = Some a ->
  let r := render n st.1 st.2 in
  length r.1.1 = n
  /\ r.2 a = push_all r.1.1 (st.2 a)
  /\ (forall b, b <> a -> r.2 b = st.2 b)
  /\ m_waveformTap r.1.2 = Some a.
Proof.
  intros st Ha. apply render_tap; [exact Ha|].
  apply (run_calls_ready sampleRate rng heap0 calls).
Qed.

(** X15.  What the visualiser reads is what the sound card got: after a
    callback of [n] frames on an engine whose tap has room for them, a copy
    of [n] frames from the tap returns the callback's output buffer. *)
Theorem tap_copy_matches_callback (C0 : Z) (frames : list (float * float))
  (buffer dest : list float) (n : Z) (s : AudioSystem) (heap : Heap) (a : nat) :
  m_waveformTap s = Some a -> is_Some (m_primaryWaveform s) ->
  heap a = push_all frames (RingBuffer.construct C0) ->
  0 < n <= Z.max 1 C0 -> n < 2 ^ 31 -> 2 * Z.max 1 C0 < SizeT.modulus ->
  Z.of_nat (length frames) + n < SizeT.modulus ->
  Z.of_nat (length buffer) = 2 * n -> Z.of_nat (length dest) = 2 * n ->
  let r := (audioCallback buffer n s heap).2 in
  copyLatestInterleaved (Some dest) n (r.2 a) = (n, Some r.1.1).
Proof.
  intros Ha Hp Hheap Hn Hn31 HC HM Hbuf Hdest. cbn zeta.
  unfold audioCallback. cbn [snd].
  change (audioCallback_loop (Z.to_nat n) 0 buffer s heap)
    with (audioCallback_loop (Z.to_nat n) 0 ([] ++ buffer) s heap).
  rewrite (audioCallback_loop_spec (Z.to_nat n) 0 [] buffer s heap);
    [|reflexivity|change UInt_modulus with (2 ^ 32); lia|lia].
  cbn [app fst snd].
  destruct (render_tap (Z.to_nat n) s heap a Ha Hp) as (Hlen & Htap & _ & _).
  destruct (render (Z.to_nat n) s heap) as [[xs s1] heap1]. cbn [fst snd] in *.
  rewrite Htap, Hheap. unfold push_all. rewrite <- foldl_app.
  rewrite construct_clamped.
  assert (1 <= Z.max 1 C0) as Hpos by lia.
  pose proof (copy_latest_general (Z.max 1 C0) Hpos HC (frames ++ xs) dest n) as Hcopy.
  cbn zeta in Hcopy. unfold push_all in Hcopy. rewrite length_app in Hcopy.
  rewrite Hcopy by lia. clear Hcopy.
  replace (Z.min n (Z.min (Z.of_nat (length frames + length xs)) (Z.max 1 C0)))
    with n by lia.
  replace (Z.to_nat (Z.of_nat (length frames + length xs) - n)) with (length frames)
    by lia.
  rewrite drop_app_length.
  rewrite !drop_ge by lia. reflexivity.
Qed.

End WithHost.

Section Examples.
#[local] Existing Instance demo_libm.
#[local] Existing Instance demo_tanh.
#[local] Existing Instance demo_envelope.
#[local] Existing Instance demo_random.
#[local] Existing Instance demo_envelope_process.
#[local] Existing Instance demo_wave.
#[local] Existing Instance demo_octave_defaults.

Lemma audioCallback_output_witness :
  let buffer := replicate 6 (of_int 9) in
  let heap : Heap := fun _ => RingBuffer.construct 4 in
  let r := render 2 demo_engine_held heap in
  audioCallback buffer 2 demo_engine_held heap
  = (0, (interleave r.1.1 ++ [of_int 9; of_int 9], r.1.2, r.2)).
Proof.
  cbn zeta.
  apply (audioCallback_output (replicate 6 (of_int 9)) 2 demo_engine_held
           (fun _ => RingBuffer.construct 4)).
  - lia.
  - cbn [length replicate]. lia.
Defined.

Lemma tap_receives_rendered_samples_witness :
  let heap0 : Heap := fun _ => RingBuffer.construct 4 in
  let st := run_calls [CallSetWaveformTapBuffer (Some 0%nat); CallTriggerNote (of_int 440)]
              (@construct demo_envelope demo_random (of_int 44100) 0%nat, heap0) in
  let r := render 3 st.1 st.2 in
  length r.1.1 = 3%nat
  /\ r.2 0%nat = push_all r.1.1 (st.2 0%nat)
  /\ (forall b, b <> 0%nat -> r.2 b = st.2 b)
  /\ m_waveformTap r.1.2 = Some 0%nat.
Proof.
  cbn zeta.
  apply (tap_receives_rendered_samples (envelope_impl := demo_envelope)
           (random_impl := demo_random) (of_int 44100) 0%nat
           (fun _ => RingBuffer.construct 4)
           [CallSetWaveformTapBuffer (Some 0%nat); CallTriggerNote (of_int 440)]
           0%nat 3%nat).
  vm_compute. reflexivity.
Defined.

Lemma tap_copy_matches_callback_witness :
  let s := setWaveformTapBuffer (Some 0%nat) demo_engine_held in
  let heap : Heap := fun _ => push_all demo_frames (RingBuffer.construct 4) in
  let r := (audioCallback (replicate 4 zero) 2 s heap).2 in
  copyLatestInterleaved (Some (replicate 4 zero)) 2 (r.2 0%nat) = (2, Some r.1.1).
Proof.
  cbn zeta.
  apply (tap_copy_matches_callback 4 demo_frames (replicate 4 zero) (replicate 4 zero) 2
           (setWaveformTapBuffer (Some 0%nat) demo_engine_held)
           (fun _ => push_all demo_frames (RingBuffer.construct 4)) 0%nat).
  - reflexivity.
  - eexists. vm_compute. reflexivity.
  - reflexivity.
  - lia.
  - lia.
  - reflexivity.
  - reflexivity.
  - reflexivity.
  - reflexivity.
Defined.

End Examples.

End AudioDeviceSpec.

(** ** The engine: configuration and effect parameters *)
Module ConfigureSpec.
Import F32 Cmath Host Engine F32Facts EngineExtra.

#[local] Arguments F32.of_int : simpl never.

Section WithHost.
Context {libm : LibM} {tanh_impl : LibMTanh} {envelope_impl : EnvelopeImpl}
  {random_impl : RandomImpl} {envelope_process : EnvelopeProcessImpl}
  {wave_impl : WaveImpl} {octave_defaults : OctaveDefaults}.







(** *** [updateEffectParameters] *)

(** The type a lower-case name stands for settles the three tests of the
    loop, which are made in another order. *)
Lemma name_tests (lower : string) :
  let isDelay := ((lower =? "delay") || (lower =? "echo"))%string in
  let isLowPass :=
    ((lower =? "lowpass") || (lower =? "lpf") || (lower =? "filter"))%string in
  let isOctave := (lower =? "octave")%string in
  let kind :=
    if isOctave then Some KOctave else if isDelay then Some KDelay
    else if isLowPass then Some KLowPass else None in
  match kind with
  | Some KDelay => isDelay = true
  | Some KLowPass => isDelay = false /\ isLowPass = true
  | Some KOctave => isDelay = false /\ isLowPass = false /\ isOctave = true
  | None => isDelay = false /\ isLowPass = false /\ isOctave = false
  end.
Proof.
  cbn zeta.
  destruct (String.eqb_spec lower "octave") as [->|_]; [now vm_compute|].
  destruct (String.eqb_spec lower "delay") as [->|_]; [now vm_compute|].
  destruct (String.eqb_spec lower "echo") as [->|_]; [now vm_compute|].
  destruct (String.eqb_spec lower "lowpass") as [->|_]; [now vm_compute|].
  destruct (String.eqb_spec lower "lpf") as [->|_]; [now vm_compute|].
  destruct (String.eqb_spec lower "filter") as [->|_]; [now vm_compute|].
  now cbn.
Qed.

(** What the loop does with one effect when the name stands for [kind]. *)
Lemma update_chain_step name parameters effect rest :
  update_chain (toLowercase name) parameters (effect :: rest)
  = if bool_decide (kind_of_name name = Some (effect_kind effect)
                    /\ parameters_kind parameters = Some (effect_kind effect))
    then update_chain (toLowercase name) parameters [effect]
         ≫= (fun '(chain, cutoff) => Some (chain ++ rest, cutoff))
    else update_chain (toLowercase name) parameters rest
         ≫= (fun '(chain, cutoff) => Some (effect :: chain, cutoff)).
Proof.
  pose proof (name_tests (toLowercase name)) as Ht. cbn zeta in Ht.
  unfold kind_of_name. cbn [update_chain].
  destruct (toLowercase name =? "octave")%string;
    destruct ((toLowercase name =? "delay") || (toLowercase name =? "echo"))%string;
    destruct ((toLowercase name =? "lowpass") || (toLowercase name =? "lpf")
              || (toLowercase name =? "filter"))%string;
    try (destruct Ht as (? & ? & ?); discriminate);
    try (destruct Ht as (? & ?); discriminate); try discriminate;
    destruct effect, parameters; cbn [effect_kind parameters_kind];
    repeat case_bool_decide;
    try (exfalso; intuition congruence);
    cbn [mbind option_bind app];
    try reflexivity;
    destruct (update_chain _ _ rest) as [[? ?]|]; reflexivity.
Qed.

Lemma update_chain_not_found name parameters chain :
  Forall (fun effect =>
            ~ (kind_of_name name = Some (effect_kind effect)
               /\ parameters_kind parameters = Some (effect_kind effect))) chain ->
  update_chain (toLowercase name) parameters chain = None.
Proof.
  induction 1 as [|effect rest Hx _ IH]; [reflexivity|].
  rewrite update_chain_step, bool_decide_eq_false_2 by exact Hx.
  now rewrite IH.
Qed.

(** The setters the loop applies to an effect of the type asked for. *)
Lemma update_chain_single_exact name parameters effect :
  kind_of_name name = Some (effect_kind effect) ->
  parameters_kind parameters = Some (effect_kind effect) ->
  update_chain (toLowercase name) parameters [effect]
  = Some ([match effect, parameters with
           | EDelay delayEffect, DelayParameters delayTime feedback mix =>
               EDelay (Delay.setMix mix
                         (Delay.setFeedback feedback
                            (Delay.setDelayTime delayTime delayEffect)))
           | ELowPass lowPassEffect, LowPassParameters cutoffFreq resonance =>
               ELowPass (LowPass.setResonance resonance
                           (LowPass.setCutoff cutoffFreq lowPassEffect))
           | EOctave octaveEffect, OctaveParameters octaveShift mix =>
               EOctave (Octave.setBlend mix
                          (Octave.setHigher (octaveShift >? of_int 1)%f32 octaveEffect))
           | _, _ => effect
           end],
          match parameters with
          | LowPassParameters cutoffFreq _ => Some cutoffFreq
          | _ => None
          end).
Proof.
  intros Hn Hp.
  pose proof (name_tests (toLowercase name)) as Ht. cbn zeta in Ht.
  unfold kind_of_name in Hn. cbn [update_chain].
  destruct (toLowercase name =? "octave")%string;
    destruct ((toLowercase name =? "delay") || (toLowercase name =? "echo"))%string;
    destruct ((toLowercase name =? "lowpass") || (toLowercase name =? "lpf")
              || (toLowercase name =? "filter"))%string;
    try (destruct Ht as (? & ? & ?); discriminate);
    try (destruct Ht as (? & ?); discriminate); try discriminate;
    destruct effect, parameters; try discriminate; reflexivity.
Qed.

Lemma update_chain_found_exact name parameters kind pre effect post effect' cutoff :
  kind_of_name name = Some kind -> parameters_kind parameters = Some kind ->
  effect_kind effect = kind ->
  Forall (fun effect0 => effect_kind effect0 <> kind) pre ->
  update_chain (toLowercase name) parameters [effect] = Some ([effect'], cutoff) ->
  update_chain (toLowercase name) parameters (pre ++ effect :: post)
  = Some (pre ++ effect' :: post, cutoff).
Proof.
  intros Hn Hp He Hpre Hu. subst kind.
  induction Hpre as [|effect0 pre H0 _ IH]; cbn [app].
  - rewrite update_chain_step, bool_decide_eq_true_2 by auto. now rewrite Hu.
  - rewrite update_chain_step, bool_decide_eq_false_2, IH; [reflexivity|].
    intros [H1 _]. rewrite Hn in H1. congruence.
Qed.

(** X17.  [updateEffectParameters] returns false and changes nothing when
    the name is not an effect name, when the parameter record is of another
    type than the name asks for, or when the chain holds no effect of that
    type. *)
Theorem updateEffectParameters_not_found (effectName : string)
  (parameters : IEffectParameters) (s : AudioSystem) :
  kind_of_name effectName = None
  \/ parameters_kind parameters <> kind_of_name effectName
  \/ Forall (fun effect => kind_of_name effectName <> Some (effect_kind effect))
       (m_effects s) ->
  updateEffectParameters effectName parameters s = (false, s).
Proof.
  intros H. unfold updateEffectParameters.
  rewrite update_chain_not_found; [reflexivity|].
  apply Forall_forall. intros effect Hin [Hn Hp].
  destruct H as [H|[H|H]].
  - congruence.
  - congruence.
  - rewrite Forall_forall in H. now apply (H effect).
Qed.

(** X18.  When the name and the parameter record ask for the same type of
    effect and the chain holds one, [updateEffectParameters] returns true and
    updates the first effect of that type, which stays of that type: a delay
    gets [setDelayTime], [setFeedback] and [setMix] in that order, a low-pass
    filter [setCutoff] then [setResonance], an octave effect [setHigher] with
    the test [octaveShift > 1] then [setBlend].  Every other effect of the
    chain, later ones of that type included, is left as it was.  For a
    low-pass filter the engine then reports the requested cutoff, as given. *)
Theorem updateEffectParameters_first_match (effectName : string)
  (parameters : IEffectParameters) (s : AudioSystem) (kind : EffectKind)
  (pre post : list Effect) (effect : Effect) :
  kind_of_name effectName = Some kind -> parameters_kind parameters = Some kind ->
  m_effects s = pre ++ effect :: post -> effect_kind effect = kind ->
  Forall (fun effect0 => effect_kind effect0 <> kind) pre ->
  let r := updateEffectParameters effectName parameters s in
  r.1 = true
  /\ (exists effect',
        effect_kind effect' = kind /\ m_effects r.2 = pre ++ effect' :: post)
  /\ (forall delayEffect delayTime feedback mix,
        effect = EDelay delayEffect ->
        parameters = DelayParameters delayTime feedback mix ->
        m_effects r.2
        = pre ++ EDelay (Delay.setMix mix
                           (Delay.setFeedback feedback
                              (Delay.setDelayTime delayTime delayEffect))) :: post)
  /\ (forall lowPassEffect cutoffFreq resonance,
        effect = ELowPass lowPassEffect ->
        parameters = LowPassParameters cutoffFreq resonance ->
        m_effects r.2
        = pre ++ ELowPass (LowPass.setResonance resonance
                             (LowPass.setCutoff cutoffFreq lowPassEffect)) :: post)
  /\ (forall octaveEffect octaveShift mix,
        effect = EOctave octaveEffect ->
        parameters = OctaveParameters octaveShift mix ->
        m_effects r.2
        = pre ++ EOctave (Octave.setBlend mix
                            (Octave.setHigher (octaveShift >? of_int 1)%f32
                               octaveEffect)) :: post)
  /\ (forall cutoffFreq resonance,
        parameters = LowPassParameters cutoffFreq resonance ->
        hasLowPassEffect r.2 = true /\ getLowPassCutoff r.2 = cutoffFreq).
Proof.
  intros Hn Hp Hchain He Hpre. cbn zeta. unfold updateEffectParameters.
  assert (kind_of_name effectName = Some (effect_kind effect)) as Hn' by congruence.
  assert (parameters_kind parameters = Some (effect_kind effect)) as Hp' by congruence.
  pose proof (update_chain_found_exact effectName parameters kind pre effect post _ _
                Hn Hp He Hpre (update_chain_single_exact effectName parameters effect Hn' Hp'))
    as Hu.
  match type of Hu with _ = Some (_ ++ ?e :: _, _) => set (effect' := e) in Hu end.
  assert (effect_kind effect' = kind) as Hk.
  { subst effect'. destruct effect, parameters; try discriminate; exact He. }
  assert (forall delayEffect delayTime feedback mix,
            effect = EDelay delayEffect ->
            parameters = DelayParameters delayTime feedback mix ->
            effect' = EDelay (Delay.setMix mix
                                (Delay.setFeedback feedback
                                   (Delay.setDelayTime delayTime delayEffect)))) as Hdelay.
  { intros * -> ->. reflexivity. }
  assert (forall lowPassEffect cutoffFreq resonance,
            effect = ELowPass lowPassEffect ->
            parameters = LowPassParameters cutoffFreq resonance ->
            effect' = ELowPass (LowPass.setResonance resonance
                                  (LowPass.setCutoff cutoffFreq lowPassEffect))) as Hlow.
  { intros * -> ->. reflexivity. }
  assert (forall octaveEffect octaveShift mix,
            effect = EOctave octaveEffect ->
            parameters = OctaveParameters octaveShift mix ->
            effect' = EOctave (Octave.setBlend mix
                                 (Octave.setHigher (octaveShift >? of_int 1)%f32
                                    octaveEffect))) as Hoctave.
  { intros * -> ->. reflexivity. }
  clearbody effect'.
  rewrite Hchain, Hu. cbn [fst snd]. clear Hu.
  match goal with
  | |- _ /\ (exists e, _ /\ m_effects ?s' = _) /\ _ =>
      assert (m_effects s' = pre ++ effect' :: post) as Hm by now destruct parameters
  end.
  split; [reflexivity|]. split; [|split; [|split; [|split]]].
  - exists effect'. split; [exact Hk | exact Hm].
  - intros delayEffect delayTime feedback mix H1 H2. rewrite Hm.
    now rewrite (Hdelay _ _ _ _ H1 H2).
  - intros lowPassEffect cutoffFreq resonance H1 H2. rewrite Hm.
    now rewrite (Hlow _ _ _ H1 H2).
  - intros octaveEffect octaveShift mix H1 H2. rewrite Hm.
    now rewrite (Hoctave _ _ _ H1 H2).
  - intros cutoffFreq resonance ->. split; reflexivity.
Qed.

End WithHost.

Section Examples.
#[local] Existing Instance demo_libm.
#[local] Existing Instance demo_tanh.
#[local] Existing Instance demo_envelope.
#[local] Existing Instance demo_random.
#[local] Existing Instance demo_octave_defaults.

Lemma updateEffectParameters_not_found_witness :
  updateEffectParameters "Delay" (DelayParameters (dec 1 4) (dec 1 2) (dec 1 2))
    demo_engine_held
  = (false, demo_engine_held)
  /\ updateEffectParameters "reverb" OtherParameters demo_engine_held
     = (false, demo_engine_held).
Proof.
  split.
  - apply (updateEffectParameters_not_found "Delay"
             (DelayParameters (dec 1 4) (dec 1 2) (dec 1 2)) demo_engine_held).
    right. right. vm_compute. constructor.
  - apply (updateEffectParameters_not_found "reverb" OtherParameters demo_engine_held).
    left. reflexivity.
Defined.

(** An engine at 100 Hz configured with a delay, a filter and a second
    delay: only the first delay takes the new settings. *)
Lemma updateEffectParameters_first_match_witness :
  let s := configure
             {| waveform := "Saw"; effects := ["Delay"; "LPF"; "echo"];
                sampleRate := of_int 48000; bufferFrames := 256; midiPort := 0;
                defaultFrequency := of_int 440; inputMode := "midi";
                sequenceType := "demo"; attackTime := dec 1 10; decayTime := dec 2 10;
                sustainLevel := dec 7 10; releaseTime := dec 3 10 |}
             (@construct demo_envelope demo_random (of_int 100) 0%nat) in
  let r := updateEffectParameters "ECHO" (DelayParameters (dec 1 4) (dec 1 8) (dec 3 4)) s in
  m_effects r.2
  = [EDelay (Delay.setMix (dec 3 4)
               (Delay.setFeedback (dec 1 8)
                  (Delay.setDelayTime (dec 1 4)
                     (Delay.construct (dec 3 10) (dec 5 10) (dec 5 10) (of_int 100)))));
     default_effect (of_int 100) KLowPass;
     default_effect (of_int 100) KDelay].
Proof.
  cbn zeta.
  destruct (updateEffectParameters_first_match "ECHO"
              (DelayParameters (dec 1 4) (dec 1 8) (dec 3 4))
              (configure
                 {| waveform := "Saw"; effects := ["Delay"; "LPF"; "echo"];
                    sampleRate := of_int 48000; bufferFrames := 256; midiPort := 0;
                    defaultFrequency := of_int 440; inputMode := "midi";
                    sequenceType := "demo"; attackTime := dec 1 10;
                    decayTime := dec 2 10; sustainLevel := dec 7 10;
                    releaseTime := dec 3 10 |}
                 (@construct demo_envelope demo_random (of_int 100) 0%nat))
              KDelay []
              [default_effect (of_int 100) KLowPass; default_effect (of_int 100) KDelay]
              (default_effect (of_int 100) KDelay))
    as (_ & _ & Hdelay & _).
  - reflexivity.
  - reflexivity.
  - vm_compute. reflexivity.
  - reflexivity.
  - constructor.
  - exact (Hdelay _ _ _ _ eq_refl eq_refl).
Defined.

End Examples.

End ConfigureSpec.

(** ** The MIDI adapter *)
Module MidiSpec.
Import F32 Cmath Host Engine Midi F32Facts EngineSpec.

#[local] Arguments F32.of_int : simpl never.

Section WithHost.
Context {libm : LibM} {envelope_impl : EnvelopeImpl} {random_impl : RandomImpl}
  {table : NoteTable}.

Lemma triggerNoteOff_idle f s :
  isnan f = false -> m_activeNotes s = [] -> m_noteOn (triggerNoteOff f s) = false.
Proof.
  intros Hf Hs. unfold triggerNoteOff. rewrite Hf, Hs. reflexivity.
Qed.

(** C1, as amended.  For a note number within the frequency table, a
    NOTE_ON event calls [triggerNote] with the table frequency whatever its
    velocity byte is, zero included, and a NOTE_OFF event calls
    [triggerNoteOff] with the table frequency. *)
Theorem update_note_events (note velocity bend : Z) (sys : AudioSystem) :
  0 <= note < Z.of_nat (length MIDI_NOTE_FREQUENCIES) ->
  let f := MIDI_NOTE_FREQUENCIES !!! Z.to_nat note in
  update (Some {| type := NOTE_ON; data1 := note; data2 := velocity; value := bend |}) sys
  = Some (triggerNote f sys)
  /\ update (Some {| type := NOTE_OFF; data1 := note; data2 := velocity; value := bend |}) sys
     = Some (triggerNoteOff f sys).
Proof.
  intros [_ Hnote] f. unfold update. cbn [type data1].
  apply Z.ltb_lt in Hnote. rewrite Hnote. split; reflexivity.
Qed.

End WithHost.

(** C1 fails as stated: with A4 = 440 Hz at note 69, whatever the rest of
    the table, the envelope and the random generator are, NOTE_ON for note 69
    with velocity 0 on a fresh engine does not give what
    [triggerNoteOff(440)] gives (the note-on flag is set, not cleared). *)
Lemma note_on_velocity_zero_is_not_note_off :
  ~ exists (libm : LibM) (envelope_impl : EnvelopeImpl) (random_impl : RandomImpl)
      (table : NoteTable) (rng : RandomEngine),
      MIDI_NOTE_FREQUENCIES !! 69%nat = Some (of_int 440) /\
      let sys := construct (of_int 44100) rng in
      update (Some {| type := NOTE_ON; data1 := 69; data2 := 0; value := 0 |}) sys
      = Some (triggerNoteOff (of_int 440) sys).
Proof.
  intros (libm & envelope_impl & random_impl & table & rng & Htable & H).
  cbn zeta in H. unfold update in H. cbn [type data1] in H.
  assert ((69 <? Z.of_nat (length MIDI_NOTE_FREQUENCIES)) = true) as Hlt.
  { apply Z.ltb_lt. apply lookup_lt_Some in Htable. lia. }
  rewrite Hlt in H. change (Z.to_nat 69) with 69%nat in H.
  rewrite (list_lookup_total_correct _ _ _ Htable) in H.
  injection H as H. apply (f_equal m_noteOn) in H.
  destruct (triggerNote_valid (of_int 440) (construct (of_int 44100) rng)
              eq_refl eq_refl) as (_ & _ & _ & Hon & _).
  rewrite Hon, triggerNoteOff_idle in H by reflexivity. discriminate.
Qed.

Section Examples.
#[local] Existing Instance demo_libm.
#[local] Existing Instance demo_envelope.
#[local] Existing Instance demo_random.
#[local] Existing Instance demo_table.

Lemma update_note_events_witness :
  update (Some {| type := NOTE_ON; data1 := 69; data2 := 0; value := 0 |}) demo_engine
  = Some (triggerNote (of_int 440) demo_engine)
  /\ update (Some {| type := NOTE_OFF; data1 := 69; data2 := 64; value := 0 |}) demo_engine
     = Some (triggerNoteOff (of_int 440) demo_engine).
Proof.
  assert (0 <= 69 < Z.of_nat (length MIDI_NOTE_FREQUENCIES)) as Hnote.
  { split; [lia | reflexivity]. }
  split.
  - exact (proj1 (update_note_events 69 0 0 demo_engine Hnote)).
  - exact (proj2 (update_note_events 69 64 0 demo_engine Hnote)).
Defined.

End Examples.

End MidiSpec.

(** ** The octave effect: bypass *)
Module OctaveSpec.
Import F32 Cmath Octave F32Facts.

#[local] Arguments F32.of_int : simpl never.

Lemma leb_zero_ltb_one x : (x <=? zero)%f32 = true -> (of_int 1 <? x)%f32 = false.
Proof.
  destruct x as [[]|[]| |[] m e]; intros H; try discriminate H; reflexivity.
Qed.

Lemma blend_not_positive blend :
  (blend <=? zero)%f32 = true ->
  (F32.min (F32.max blend zero) (of_int 1) <=? zero)%f32 = true.
Proof.
  intros H. unfold F32.max, F32.min.
  destruct (ltb blend zero) eqn:Hneg.
  - reflexivity.
  - now rewrite (leb_zero_ltb_one blend H).
Qed.

Section WithLibM.
Context {tanh_impl : LibMTanh}.

(** X19.  An octave effect whose blend was set to zero or below passes every
    sample through unchanged and keeps its state, whichever way it was set
    ([setBlend] or the constructor) and in either mode. *)
Theorem octave_bypass (blend : float) (higher : bool) (o : OctaveEffect)
  (stereoSample : float * float) :
  (blend <=? zero)%f32 = true ->
  process stereoSample (setBlend blend o) = (stereoSample, setBlend blend o)
  /\ process stereoSample (construct higher blend)
     = (stereoSample, construct higher blend).
Proof.
  intros H. pose proof (blend_not_positive blend H) as Hb.
  unfold process, setBlend, construct. cbn [m_blend]. now rewrite Hb.
Qed.

End WithLibM.

Lemma octave_bypass_witness :
  @process demo_tanh (dec 1 2, dec (-1) 4) (setBlend (of_int (-1)) (construct true (of_int 1)))
  = ((dec 1 2, dec (-1) 4), setBlend (of_int (-1)) (construct true (of_int 1))).
Proof.
  apply (@octave_bypass demo_tanh (of_int (-1)) true (construct true (of_int 1))
           (dec 1 2, dec (-1) 4)).
  reflexivity.
Defined.

End OctaveSpec.

(** ** The observer list *)
Module ObserverSpec.
Import Observer.

Lemma attach_distinct observer observers :
  NoDup observers /\ (None ∉ observers) ->
  NoDup (attach observer observers) /\ (None ∉ attach observer observers).
Proof.
  intros [Hd Hn]. unfold attach. destruct observer as [a|]; [|auto].
  case_bool_decide as Hin; [auto|]. split.
  - apply NoDup_app. repeat split; [exact Hd| |apply NoDup_singleton].
    intros x Hx Hx'. apply list_elem_of_singleton in Hx'. now subst.
  - rewrite elem_of_app, list_elem_of_singleton. intros [H|H]; [auto|discriminate].
Qed.

Lemma detach_distinct observer observers :
  NoDup observers /\ (None ∉ observers) ->
  NoDup (detach observer observers) /\ (None ∉ detach observer observers).
Proof.
  intros [Hd Hn]. unfold detach. destruct observer as [a|]; [|auto]. split.
  - now apply NoDup_filter.
  - rewrite list_elem_of_filter. tauto.
Qed.

Lemma run_distinct ops observers :
  NoDup observers /\ (None ∉ observers) ->
  NoDup (run ops observers) /\ (None ∉ run ops observers).
Proof.
  revert observers. induction ops as [|op ops IH]; intros observers H; [exact H|].
  cbn [run foldl]. apply IH. destruct op; [now apply attach_distinct|now apply detach_distinct].
Qed.

Lemma notify_elem {Params : Type} (params : Params) observers a p :
  (a, p) ∈ notify params observers <-> Some a ∈ observers /\ p = params.
Proof.
  induction observers as [|[b|] rest IH]; cbn [notify].
  - rewrite !elem_of_nil. tauto.
  - rewrite !elem_of_cons, IH. split.
    + intros [[= -> ->]|[H ->]]; auto.
    + intros [[[= ->]|H] ->]; auto.
  - rewrite elem_of_cons, IH. split; [tauto|]. intros [[H|H] ->]; [discriminate|auto].
Qed.

Lemma notify_distinct {Params : Type} (params : Params) observers :
  NoDup observers -> NoDup (notify params observers).
Proof.
  induction 1 as [|[a|] rest Hx _ IH]; cbn [notify]; [constructor| |exact IH].
  constructor; [|exact IH]. rewrite notify_elem. tauto.
Qed.

(** A list without a null pointer is a list of addresses. *)
Lemma no_null_addresses (observers : list IObserverPtr) :
  None ∉ observers -> exists addresses, observers = map Some addresses.
Proof.
  induction observers as [|[a|] rest IH]; intros Hn.
  - now exists [].
  - destruct IH as [addresses ->].
    + intros H. apply Hn. now right.
    + now exists (a :: addresses).
  - exfalso. apply Hn. now left.
Qed.

(** On a list of addresses, [notify] makes one call per entry, in list order. *)
Lemma notify_addresses {Params : Type} (params : Params) (addresses : list nat) :
  notify params (map Some addresses) = map (fun a => (a, params)) addresses.
Proof.
  induction addresses as [|a rest IH]; [reflexivity|]. cbn [map notify]. now rewrite IH.
Qed.

(** X20.  After any calls of [attach] and [detach] on a new subject, the
    observer list holds no null pointer and no observer twice: it is a list
    of distinct addresses, and [notify] calls [update] on them in list order,
    one call per entry with the argument it was given; so exactly once on
    each attached observer, and on no other. *)
Theorem notify_each_observer_once {Params : Type} (ops : list Op) (params : Params) :
  let observers := run ops [] in
  NoDup observers /\ (None ∉ observers)
  /\ (exists addresses,
        observers = map Some addresses /\ NoDup addresses
        /\ notify params observers = map (fun a => (a, params)) addresses)
  /\ NoDup (notify params observers)
  /\ (forall a p, (a, p) ∈ notify params observers <-> Some a ∈ observers /\ p = params).
Proof.
  cbn zeta.
  destruct (run_distinct ops []) as [Hd Hn].
  { split; [constructor|]. apply not_elem_of_nil. }
  split; [exact Hd|]. split; [exact Hn|]. split; [|split].
  - destruct (no_null_addresses _ Hn) as [addresses Ha]. exists addresses.
    rewrite Ha in Hd |- *. split; [reflexivity|]. split.
    + exact (proj1 (NoDup_fmap Some addresses) Hd).
    + apply notify_addresses.
  - now apply notify_distinct.
  - intros a p. apply notify_elem.
Qed.

(** A reading of the order: attaching 3, 1 and 2, detaching 1 and attaching
    it again gives the calls on 3, 2 and 1, in that order. *)
Example notify_in_list_order :
  notify tt (run [OpAttach (Some 3%nat); OpAttach (Some 1%nat); OpAttach None;
                  OpAttach (Some 2%nat); OpAttach (Some 3%nat);
                  OpDetach (Some 1%nat); OpAttach (Some 1%nat)] [])
  = [(3%nat, tt); (2%nat, tt); (1%nat, tt)].
Proof. reflexivity. Qed.

Lemma filter_keeps_all (P : IObserverPtr -> Prop) `{!forall x, Decision (P x)}
  (l : list IObserverPtr) :
  Forall P l -> filter P l = l.
Proof.
  induction 1 as [|x l Hx _ IH]; [reflexivity|].
  rewrite filter_cons_True by exact Hx. now rewrite IH.
Qed.

(** X21.  [attach] adds an observer at the end of the list unless it is
    already there or null, [detach] removes it, and the two cancel:
    detaching an observer that was just attached to a list without it gives
    the list back; attaching twice is attaching once; the other observers
    keep their places. *)
Theorem attach_then_detach (a : nat) (observers : list IObserverPtr) :
  Some a ∈ attach (Some a) observers
  /\ (Some a ∉ detach (Some a) observers)
  /\ attach (Some a) (attach (Some a) observers) = attach (Some a) observers
  /\ (Some a ∉ observers ->
      attach (Some a) observers = observers ++ [Some a]
      /\ detach (Some a) (attach (Some a) observers) = observers)
  /\ (forall b, b <> a ->
        (Some b ∈ attach (Some a) observers <-> Some b ∈ observers)
        /\ (Some b ∈ detach (Some a) observers <-> Some b ∈ observers)).
Proof.
  assert (Some a ∈ attach (Some a) observers) as Hin.
  { unfold attach. case_bool_decide as H; [exact H|].
    rewrite elem_of_app, list_elem_of_singleton. auto. }
  split; [exact Hin|]. split; [|split; [|split]].
  - unfold detach. rewrite list_elem_of_filter. tauto.
  - unfold attach at 1. now rewrite bool_decide_eq_true_2.
  - intros Hnot. unfold attach, detach. rewrite bool_decide_eq_false_2 by exact Hnot.
    split; [reflexivity|].
    rewrite filter_app, filter_cons_False, filter_nil, app_nil_r by tauto.
    apply filter_keeps_all, Forall_forall. intros x Hx ->. exact (Hnot Hx).
  - intros b Hb. unfold attach, detach. split.
    + case_bool_decide; [tauto|]. rewrite elem_of_app, list_elem_of_singleton.
      split; [intros [H'|[= H']]; [exact H'|congruence]|auto].
    + rewrite list_elem_of_filter. split; [tauto|]. intros H'. split; [congruence|exact H'].
Qed.

End ObserverSpec.

(** ** The wrapper: note tracking and the waveform read-out *)
Module WrapperSpec.
Import F32 Cmath Host RingBuffer Engine Wrapper SizeTFacts F32Facts RingBufferSpec
  RingBufferExtra EngineExtra.

#[local] Arguments F32.of_int : simpl never.

Lemma erase_first_map {A B : Type} (g : A -> B) (isMatch : B -> bool) (l : list A) :
  erase_first isMatch (map g l) = map g (erase_first (fun x => isMatch (g x)) l).
Proof.
  induction l as [|x l IH]; [reflexivity|]. cbn [map erase_first].
  destruct (isMatch (g x)); [reflexivity|]. cbn [map]. now rewrite IH.
Qed.

Lemma erase_last_map {A B : Type} (g : A -> B) (isMatch : B -> bool) (l : list A) :
  erase_last isMatch (map g l) = map g (erase_last (fun x => isMatch (g x)) l).
Proof.
  unfold erase_last. now rewrite <- map_rev, erase_first_map, map_rev.
Qed.

Section WithHost.
Context {libm : LibM} {envelope_impl : EnvelopeImpl} {random_impl : RandomImpl}.

Lemma triggerNoteOff_activeNotes f s :
  m_activeNotes (triggerNoteOff f s)
  = if isnan f then []
    else erase_last (fun active : ActiveNote =>
                       (abs (frequency active - f) <? dec 1 1000)%f32) (m_activeNotes s).
Proof.
  unfold triggerNoteOff. destruct (isnan f); [reflexivity|].
  cbn [m_activeNotes set_m_activeNotes]. now destruct (last _).
Qed.

Lemma TriggerNoteOff_mirrors info w :
  mirrors_engine w -> mirrors_engine (TriggerNoteOff info w).2.
Proof.
  unfold mirrors_engine, TriggerNoteOff. intros Hw.
  cbn [snd m_activeFrequencies m_audioSystem].
  rewrite triggerNoteOff_activeNotes.
  match goal with |- context [isnan ?f] => destruct (isnan f) end; cbn [negb];
    [reflexivity|].
  rewrite Hw. apply erase_last_map.
Qed.

Lemma TriggerNote_mirrors info w :
  engine_takes (OpTriggerNote info) -> mirrors_engine w ->
  mirrors_engine (TriggerNote info w).2.
Proof.
  unfold mirrors_engine, TriggerNote. intros Hok Hw.
  destruct info as [|[value| | |] info]; try exact Hw.
  cbn [snd m_activeFrequencies m_audioSystem]. cbn [engine_takes] in Hok.
  destruct (triggerNote_accepted (FloatValue value) (m_audioSystem w) Hok) as (Hn & _).
  rewrite Hn, map_app, Hw. reflexivity.
Qed.

(** X22.  The wrapper's list of active frequencies mirrors the engine's held
    notes, entry by entry, through any run of [triggerNote] and
    [triggerNoteOff] calls from JavaScript in which every frequency given to
    [triggerNote] is one the engine takes (not 0 or below, not above 20000):
    the wrapper pushes whatever it is given, but the engine ignores the
    others. *)
Theorem wrapper_mirrors_engine (ops : list Op) (w : AudioSystemWrapper) :
  mirrors_engine w -> Forall engine_takes ops -> mirrors_engine (run ops w).
Proof.
  intros Hw Hops. revert w Hw. induction Hops as [|op ops Hop _ IH]; intros w Hw;
    [exact Hw|].
  cbn [run foldl]. apply IH. destruct op; cbn [apply_op].
  - now apply TriggerNote_mirrors.
  - now apply TriggerNoteOff_mirrors.
Qed.

(** A frequency the engine refuses leaves the wrapper with a note the engine
    does not hold. *)
Lemma TriggerNote_refused value w :
  (FloatValue value <=? zero)%f32 = true -> mirrors_engine w ->
  ~ mirrors_engine (TriggerNote [JsNumber value] w).2.
Proof.
  unfold mirrors_engine, TriggerNote. intros Hle Hw.
  cbn [snd m_activeFrequencies m_audioSystem].
  unfold triggerNote. rewrite Hle. cbn [orb]. rewrite <- Hw. intros H.
  apply (f_equal length) in H. rewrite length_app in H. cbn in H. lia.
Qed.

Lemma double_to_size_t_range value requested :
  F64.to_size_t value = Some requested -> 0 <= requested < SizeT.modulus.
Proof.
  unfold F64.to_size_t. destruct value as [s| | |s m e]; try discriminate.
  - intros [= <-]. split; [lia|reflexivity].
  - cbn zeta. destruct (_ && _) eqn:E; [|discriminate]. intros [= <-].
    apply andb_true_iff in E. lia.
Qed.

(** X23.  For a request the cast to [std::size_t] is defined for (no
    argument, which stands for 1024 frames; a number of 0 or below, for 0; a
    number above 0 whose truncation is below [2^64], for that truncation),
    [getRecentWaveform] returns a [Float32Array] of exactly [2 k] samples,
    [k] being the smallest of the request, the frames pushed so far and the
    capacity: the [k] most recent frames, oldest first, left before right.
    Nothing is stated for NaN, the positive infinity and numbers of [2^64]
    and above, where C++ leaves the cast undefined. *)
Theorem GetRecentWaveform_latest (C0 : Z) (frames : list (float * float))
  (info : list JsValue) (requested : Z) (w : AudioSystemWrapper) (heap : nat -> _)
  (buffer : nat) :
  m_waveformBuffer w = Some buffer ->
  heap buffer = push_all frames (RingBuffer.construct C0) ->
  match info with
  | [] => requested = 1024
  | JsNumber value :: _ =>
      if F64.leb value F64.zero then requested = 0
      else F64.to_size_t value = Some requested
  | _ => False
  end ->
  2 * Z.max 1 C0 < SizeT.modulus -> Z.of_nat (length frames) < SizeT.modulus ->
  let k := Z.min requested (Z.min (Z.of_nat (length frames)) (Z.max 1 C0)) in
  GetRecentWaveform info w heap
  = Some (Float32Array
            (interleave (drop (Z.to_nat (Z.of_nat (length frames) - k)) frames)))
  /\ Z.of_nat (length (interleave (drop (Z.to_nat (Z.of_nat (length frames) - k)) frames)))
     = 2 * k.
Proof.
  intros Hbuf Hheap Hreq Hfit HM k. unfold GetRecentWaveform. rewrite Hbuf.
  set (C := Z.max 1 C0) in *. set (M := Z.of_nat (length frames)) in *.
  assert (1 <= C) as HC by (subst C; lia).
  assert (0 <= requested < SizeT.modulus) as Hrange.
  { destruct info as [|[value| | |] info]; try contradiction.
    - subst requested. split; [lia|reflexivity].
    - destruct (F64.leb value F64.zero).
      + subst requested. split; [lia|reflexivity].
      + now apply (double_to_size_t_range value). }
  assert (parse_maxFrames info = Some (inr requested)) as ->.
  { unfold parse_maxFrames.
    destruct info as [|[value| | |] info]; try contradiction; [now subst requested|].
    destruct (F64.leb value F64.zero); [now subst requested | now rewrite Hreq]. }
  assert (0 <= k) as Hk by (subst k M; lia).
  assert (k < SizeT.modulus) as Hk' by (subst k; lia).
  split.
  2: { rewrite interleave_length, length_drop. subst k M. lia. }
  rewrite Hheap, construct_clamped. fold C.
  destruct (push_all_holds C HC Hfit frames) as (Hcap & _ & _ & Ht & _).
  unfold capacityFrames, availableFrames. rewrite Hcap, Ht. fold M.
  rewrite wrap_small, !min_spec by lia.
  replace (Z.min (Z.min requested C) (Z.min M C)) with k by (subst k; lia).
  unfold SizeT.mul. rewrite wrap_small by lia.
  destruct (Z.eqb_spec k 0) as [H0|H0].
  - rewrite H0. replace (Z.to_nat (M - 0)) with (length frames) by (subst M; lia).
    now rewrite drop_all.
  - pose proof (copy_latest_general C HC Hfit frames
                  (replicate (Z.to_nat (k * 2)) zero) k) as Hcopy.
    cbn zeta in Hcopy. fold M in Hcopy.
    replace (Z.min k (Z.min M C)) with k in Hcopy by (subst k; lia).
    rewrite Hcopy. 2: lia. 2: lia. 2: rewrite length_replicate; lia.
    cbn [snd]. rewrite (drop_ge (replicate _ _)) by (rewrite length_replicate; lia).
    now rewrite app_nil_r.
Qed.

(** A number that is not 0 or below and that the cast is undefined for gives
    no result. *)
Lemma GetRecentWaveform_undefined_cast (w : AudioSystemWrapper) (heap : nat -> _)
  (buffer : nat) (value : F64.double) (rest : list JsValue) :
  m_waveformBuffer w = Some buffer ->
  F64.leb value F64.zero = false -> F64.to_size_t value = None ->
  GetRecentWaveform (JsNumber value :: rest) w heap = None.
Proof.
  intros Hbuf Hle Hcast. unfold GetRecentWaveform, parse_maxFrames.
  now rewrite Hbuf, Hle, Hcast.
Qed.

End WithHost.

Section Examples.
#[local] Existing Instance demo_libm.
#[local] Existing Instance demo_envelope.
#[local] Existing Instance demo_random.

(** A wrapper around the demo engine whose buffer is at address 0. *)
Lemma wrapper_mirrors_engine_witness :
  mirrors_engine
    (run [OpTriggerNote [JsNumber (F64.of_int 440)];
          OpTriggerNote [JsNumber (F64.of_int 220)];
          OpTriggerNoteOff [JsNumber (F64.of_int 440)];
          OpTriggerNote [JsString "A4"];
          OpTriggerNoteOff []]
       {| m_waveformBuffer := Some 0%nat; m_audioSystem := demo_engine;
          m_currentFrequency := zero; m_activeFrequencies := [] |}).
Proof.
  apply (wrapper_mirrors_engine
           [OpTriggerNote [JsNumber (F64.of_int 440)];
            OpTriggerNote [JsNumber (F64.of_int 220)];
            OpTriggerNoteOff [JsNumber (F64.of_int 440)];
            OpTriggerNote [JsString "A4"];
            OpTriggerNoteOff []]
           {| m_waveformBuffer := Some 0%nat; m_audioSystem := demo_engine;
              m_currentFrequency := zero; m_activeFrequencies := [] |}).
  - reflexivity.
  - repeat constructor.
Defined.

(** The numbers the cast is undefined for include NaN, the positive infinity,
    [2^64] and [10^30], none of which is 0 or below; the negative infinity is
    a request of 0 frames and never reaches the cast. *)
Example undefined_casts :
  Forall (fun value => F64.leb value F64.zero = false /\ F64.to_size_t value = None)
    [S754_nan; S754_infinity false; F64.of_int (2 ^ 64); F64.of_int (10 ^ 30)]
  /\ F64.leb (S754_infinity true) F64.zero = true
  /\ F64.to_size_t (F64.of_int (2 ^ 64 - 2048)) = Some (2 ^ 64 - 2048).
Proof. repeat constructor. Qed.

(** A request of 2.5 frames is one of 2 frames. *)
Lemma GetRecentWaveform_latest_witness :
  GetRecentWaveform [JsNumber (F64.div (F64.of_int 5) (F64.of_int 2))]
    {| m_waveformBuffer := Some 0%nat; m_audioSystem := demo_engine;
       m_currentFrequency := zero; m_activeFrequencies := [] |}
    (fun _ => push_all demo_frames (RingBuffer.construct 4))
  = Some (Float32Array [of_int 2; of_int (-2); of_int 3; of_int (-3)]).
Proof.
  refine (proj1 (GetRecentWaveform_latest 4 demo_frames
                   [JsNumber (F64.div (F64.of_int 5) (F64.of_int 2))] 2
                   {| m_waveformBuffer := Some 0%nat; m_audioSystem := demo_engine;
                      m_currentFrequency := zero; m_activeFrequencies := [] |}
                   (fun _ => push_all demo_frames (RingBuffer.construct 4)) 0%nat
                   _ _ _ _ _)).
  - reflexivity.
  - reflexivity.
  - vm_compute. reflexivity.
  - reflexivity.
  - reflexivity.
Defined.

End Examples.

End WrapperSpec.

(** ** Note names and MIDI numbers *)
Module NoteCalculatorSpec.
Import NoteCalculator.

Lemma names_number_midi m : 0 <= m <= 127 -> names_number m.
Proof.
  intros H.
  assert (forallb (fun m => bool_decide (names_number m)) (seqZ 0 128) = true) as Hall
    by (vm_compute; reflexivity).
  rewrite forallb_forall in Hall.
  eapply bool_decide_eq_true_1, Hall, list_elem_of_In, elem_of_seqZ. lia.
Qed.

Section WithJs.
Context {js : JsImpl}.

(** X24.  For every MIDI note number from 0 to 127, [midiToNote] names the
    note by its pitch class and its octave [m / 12 - 1], and
    [noteToFrequency] of that name and octave is the frequency of the note:
    the two conversions agree, in binary64 arithmetic, provided
    [toUpperCase] leaves the twelve note names as they are. *)
Theorem midiToNote_round_trip (m : Z) :
  (forall noteName, noteName ∈ noteNames -> toUpperCase noteName = noteName) ->
  0 <= m <= 127 ->
  let note := midiToNote (F64.of_int m) in
  exists noteName,
    name note = Some noteName
    /\ noteNames !! Z.to_nat (m mod 12) = Some noteName
    /\ octave note = F64.of_int (m / 12 - 1)
    /\ frequency note = midiToFrequency (F64.of_int m)
    /\ noteToFrequency noteName (octave note) = Some (frequency note).
Proof.
  intros Hupper Hm. cbn zeta.
  destruct (names_number_midi m Hm) as (Hname & Hoct & Hmap & Hback).
  destruct (noteNames !! Z.to_nat (m mod 12)) as [noteName|] eqn:Hn; [|discriminate].
  exists noteName. unfold midiToNote. cbn [name octave frequency].
  rewrite Hname, Hoct. repeat split.
  unfold noteToFrequency. rewrite Hupper by (eapply list_elem_of_lookup_2; exact Hn).
  assert (get_property noteMap noteName = Some (F64.of_int (m mod 12))) as ->
    by (change (Some (get_property noteMap noteName)
                = Some (Some (F64.of_int (m mod 12)))) in Hmap; congruence).
  now rewrite Hback.
Qed.

End WithJs.

Lemma midiToNote_round_trip_witness :
  let note := @midiToNote demo_js (F64.of_int 69) in
  exists noteName,
    name note = Some noteName
    /\ noteNames !! 9%nat = Some noteName
    /\ octave note = F64.of_int 4
    /\ frequency note = @midiToFrequency demo_js (F64.of_int 69)
    /\ @noteToFrequency demo_js noteName (octave note) = Some (frequency note).
Proof.
  apply (@midiToNote_round_trip demo_js 69).
  - intros noteName Hin. unfold noteNames in Hin.
    repeat (apply elem_of_cons in Hin as [->|Hin]; [reflexivity|]).
    now apply elem_of_nil in Hin.
  - lia.
Defined.

End NoteCalculatorSpec.

(** ** The delay line: reset *)
Module DelayReset.
Import F32 Delay SizeTFacts F32Facts DelaySpec DelayExtra.

#[local] Arguments F32.of_int : simpl never.

(** Specification: the slots from the write index on hold silence. *)
Lemma silence_ahead len D m :
  2 * len <= SizeT.modulus ->
  forall xs e k,
    delay_inv e -> bufferLength e = len -> m_delaySamples e = D -> m_mix e = m ->
    m_writeIndex e = k -> 0 <= k -> k + Z.of_nat (length xs) <= D ->
    (forall j : nat, k <= Z.of_nat j < len ->
       m_bufferLeft e !! j = Some zero /\ m_bufferRight e !! j = Some zero) ->
    let e' := process_all xs e in
    delay_inv e' /\ bufferLength e' = len /\ m_delaySamples e' = D /\ m_mix e' = m
    /\ m_writeIndex e' = k + Z.of_nat (length xs)
    /\ (forall j : nat, k + Z.of_nat (length xs) <= Z.of_nat j < len ->
          m_bufferLeft e' !! j = Some zero /\ m_bufferRight e' !! j = Some zero).
Proof.
  intros Hfit xs.
  induction xs as [|y xs IH]; intros e k Hinv Hlen HD Hm Hw Hk Hkn Hzero.
  { cbn [process_all foldl length]. change (Z.of_nat 0) with 0. rewrite Z.add_0_r.
    repeat lazymatch goal with |- _ /\ _ => split end; assumption. }
  cbn [process_all foldl]. fold (process_all xs (process y e).2).
  rewrite length_cons in Hkn |- *.
  pose proof Hinv as [_ _ _ Hd]. rewrite HD, Hlen in Hd.
  rewrite <- Hlen in Hfit.
  destruct (process_step y e Hinv Hfit)
    as (_ & HbL & HbR & Hw' & HD' & _ & _ & Hm' & _).
  rewrite Hlen in Hfit.
  replace (k + Z.of_nat (S (length xs))) with (k + 1 + Z.of_nat (length xs)) by lia.
  apply IH.
  - now apply process_inv.
  - rewrite bufferLength_process; [exact Hlen | exact Hinv | now rewrite Hlen].
  - congruence.
  - congruence.
  - rewrite Hw', Hw, Hlen. apply Z.mod_small. lia.
  - lia.
  - lia.
  - intros j Hj. rewrite HbL, HbR, !list_lookup_insert_ne by lia. apply Hzero. lia.
Qed.

(** X25.  [reset] clears the tail: for the first [D] samples processed after
    it, [D] being the delay in samples, the delayed sample mixed into the
    output is silence, whatever was in the line before. *)
Theorem reset_clears_tail (d : DelayEffect) (xs : list (float * float))
  (x : float * float) :
  delay_inv d -> 2 * bufferLength d <= SizeT.modulus ->
  Z.of_nat (length xs) < m_delaySamples d ->
  (process x (process_all xs (reset d))).1
  = (((of_int 1 - m_mix d) * x.1 + m_mix d * zero)%f32,
     ((of_int 1 - m_mix d) * x.2 + m_mix d * zero)%f32).
Proof.
  intros Hinv Hfit Hxs.
  pose proof Hinv as [Hs Hl Hw Hd].
  assert (bufferLength (reset d) = bufferLength d) as Hlen0.
  { unfold reset, bufferLength. cbn. now rewrite length_replicate. }
  assert (forall j : nat, 0 <= Z.of_nat j < bufferLength d ->
            m_bufferLeft (reset d) !! j = Some zero
            /\ m_bufferRight (reset d) !! j = Some zero) as Hzero0.
  { intros j Hj. unfold reset. cbn [m_bufferLeft m_bufferRight set_writeIndex set_buffers].
    unfold bufferLength in Hj.
    split; apply lookup_replicate_2; [|rewrite Hs]; lia. }
  destruct (silence_ahead (bufferLength d) (m_delaySamples d) (m_mix d) Hfit xs
              (reset d) 0 (reset_inv d Hinv) Hlen0 eq_refl eq_refl eq_refl
              ltac:(lia) ltac:(lia) Hzero0)
    as (Hinv' & Hlen' & HD' & Hm' & Hw' & Hzero).
  set (dN := process_all xs (reset d)) in *.
  assert (2 * bufferLength dN <= SizeT.modulus) as HfitN by now rewrite Hlen'.
  destruct (process_step x dN Hinv' HfitN) as (Hout & _).
  rewrite Hout, Hlen', HD', Hw', Hm'.
  set (len := bufferLength d) in *. set (D := m_delaySamples d) in *.
  assert ((0 + Z.of_nat (length xs) + len - D) mod len
          = Z.of_nat (length xs) + len - D) as ->
    by (rewrite Z.mod_small; lia).
  destruct (Hzero (Z.to_nat (Z.of_nat (length xs) + len - D)) ltac:(lia)) as [HL HR].
  now rewrite (list_lookup_total_correct _ _ _ HL), (list_lookup_total_correct _ _ _ HR).
Qed.

Lemma reset_clears_tail_witness :
  (process (of_int 1, of_int (-1))
     (process_all [(of_int 1, of_int 1); (of_int 2, of_int 2)]
        (reset (process_all [(of_int 1, of_int 1); (of_int 1, of_int 1)] delay_100hz)))).1
  = (((of_int 1 - m_mix delay_100hz) * of_int 1 + m_mix delay_100hz * zero)%f32,
     ((of_int 1 - m_mix delay_100hz) * of_int (-1) + m_mix delay_100hz * zero)%f32).
Proof.
  apply (reset_clears_tail
           (process_all [(of_int 1, of_int 1); (of_int 1, of_int 1)] delay_100hz)
           [(of_int 1, of_int 1); (of_int 2, of_int 2)] (of_int 1, of_int (-1))).
  - split; vm_compute; intuition congruence.
  - vm_compute. discriminate.
  - vm_compute. reflexivity.
Defined.

End DelayReset.

(** ** The low-pass filter: parameter ranges *)
Module LowPassExtra.
Import F32 Cmath LowPass F32Facts LowPassSpec.

#[local] Arguments F32.of_int : simpl never.

Lemma max_rate_range sampleRate :
  isnan sampleRate = false ->
  (kMinSampleRate <=? F32.max sampleRate kMinSampleRate)%f32 = true.
Proof. intros H. now apply leb_max_r. Qed.

Section WithLibM.
Context {libm : LibM}.

Lemma updateCoefficients_parameters lp :
  (m_q (updateCoefficients lp), m_mix (updateCoefficients lp),
   m_sampleRate (updateCoefficients lp))
  = (m_q lp, m_mix lp, m_sampleRate lp).
Proof.
  unfold updateCoefficients. now destruct (_ <=? kMinCutoff)%f32.
Qed.

Lemma parameters_frame lp lp' :
  (m_q lp', m_mix lp', m_sampleRate lp') = (m_q lp, m_mix lp, m_sampleRate lp) ->
  parameters_in_range lp -> parameters_in_range lp'.
Proof. intros [= H1 H2 H3]. unfold parameters_in_range. now rewrite H1, H2, H3. Qed.

Lemma updateCoefficients_in_range lp :
  parameters_in_range lp -> parameters_in_range (updateCoefficients lp).
Proof. apply parameters_frame, updateCoefficients_parameters. Qed.

Lemma apply_op_parameters lp op :
  op_well_formed op -> parameters_in_range lp -> parameters_in_range (apply_op lp op).
Proof.
  intros Hop Hlp. destruct op as [x| |sr|c|r|m]; cbn [apply_op op_well_formed] in *.
  - apply (parameters_frame lp); [|exact Hlp]. unfold process.
    now destruct (process_channel lp x.1 _), (process_channel lp x.2 _).
  - exact Hlp.
  - unfold setSampleRate.
    destruct (abs (F32.max sr kMinSampleRate - m_sampleRate lp) <? dec 1 1000)%f32;
      [exact Hlp|].
    destruct Hlp as (Hq & Hmix & _). apply updateCoefficients_in_range.
    unfold parameters_in_range.
    cbn [m_q m_mix m_sampleRate set_cutoff set_sampleRate].
    split; [exact Hq|]. split; [exact Hmix|]. now apply max_rate_range.
  - unfold setCutoff.
    match goal with |- context [if ?b then _ else _] => destruct b end; [exact Hlp|].
    now apply updateCoefficients_in_range.
  - unfold setResonance.
    match goal with |- context [if ?b then _ else _] => destruct b end; [exact Hlp|].
    destruct Hlp as (_ & Hmix & Hrate). apply updateCoefficients_in_range.
    unfold parameters_in_range. cbn [m_q m_mix m_sampleRate set_q].
    split; [|tauto]. now apply clampValue_range.
  - destruct Hlp as (Hq & _ & Hrate). unfold setMix, parameters_in_range.
    cbn [m_q m_mix m_sampleRate set_mix].
    split; [exact Hq|]. split; [|exact Hrate]. now apply clampValue_range.
Qed.

Lemma construct_parameters cutoff sampleRate resonance mix :
  isnan sampleRate = false -> isnan resonance = false -> isnan mix = false ->
  parameters_in_range (construct cutoff sampleRate resonance mix).
Proof.
  intros Hsr Hr Hm. unfold construct.
  apply (apply_op_parameters _ (OpSetCutoff cutoff) I).
  unfold parameters_in_range. cbn [m_q m_mix m_sampleRate].
  split; [now apply clampValue_range|]. split; [now apply clampValue_range|].
  now apply max_rate_range.
Qed.

(** X26.  Whatever numbers a filter is constructed with and whatever calls
    with numbers follow, its resonance stays within [0.1, 10], its mix within
    [0, 1] and its sample rate at or above 100 Hz. *)
Theorem lowpass_parameters_in_range (cutoff sampleRate resonance mix : float)
  (ops : list Op) :
  isnan sampleRate = false -> isnan resonance = false -> isnan mix = false ->
  Forall op_well_formed ops ->
  parameters_in_range (run ops (construct cutoff sampleRate resonance mix)).
Proof.
  intros Hsr Hr Hm Hops.
  pose proof (construct_parameters cutoff sampleRate resonance mix Hsr Hr Hm) as H0.
  revert H0. generalize (construct cutoff sampleRate resonance mix).
  induction Hops as [|op ops Hop _ IH]; intros lp Hlp; [exact Hlp|].
  cbn [run foldl]. apply IH. now apply apply_op_parameters.
Qed.

End WithLibM.

Lemma lowpass_parameters_in_range_witness :
  parameters_in_range
    (@run demo_libm
       [OpSetResonance (of_int 50); OpSetMix (of_int (-1)); OpSetSampleRate (of_int 1);
        OpProcess (of_int 1, of_int (-1)); OpSetCutoff (of_int 5)]
       (@construct demo_libm (of_int 1000) (of_int 44100) (dec 9 10) (of_int 1))).
Proof.
  apply (@lowpass_parameters_in_range demo_libm (of_int 1000) (of_int 44100) (dec 9 10)
           (of_int 1)
           [OpSetResonance (of_int 50); OpSetMix (of_int (-1)); OpSetSampleRate (of_int 1);
            OpProcess (of_int 1, of_int (-1)); OpSetCutoff (of_int 5)]);
    try reflexivity.
  repeat constructor.
Defined.

End LowPassExtra.

(** ** The engine: rendering while the envelope is closed *)
Module RenderSpec.
Import F32 Cmath Host Engine F32Facts EngineExtra.

#[local] Arguments F32.of_int : simpl never.

Section WithHost.
Context {libm : LibM} {tanh_impl : LibMTanh} {envelope_impl : EnvelopeImpl}
  {random_impl : RandomImpl} {envelope_process : EnvelopeProcessImpl}
  {wave_impl : WaveImpl} {octave_defaults : OctaveDefaults}.

(** X27.  While the envelope level is not above zero, [getNextSample] feeds
    silence to the effect chain, so that echoes still ring out, and leaves
    the oscillators alone: both phases and the LFO phase stay where they
    are; what the chain returns is the sample returned and the sample pushed
    on the tap. *)
Theorem getNextSample_silent (heap : Heap) (s : AudioSystem) (primary : IWave)
  (envelope : ADSREnvelope) :
  m_primaryWaveform s = Some primary -> m_envelope s = Some envelope ->
  ((ADSREnvelope_process (m_noteOn s) (m_sampleRate s) envelope).1 >? zero)%f32 = false ->
  let r := getNextSample heap s in
  r.1.1 = (applyEffects_chain (zero, zero) (m_effects s)).1
  /\ m_effects r.1.2 = (applyEffects_chain (zero, zero) (m_effects s)).2
  /\ m_primaryPhase r.1.2 = m_primaryPhase s
  /\ m_secondaryPhase r.1.2 = m_secondaryPhase s
  /\ m_lfoPhase r.1.2 = m_lfoPhase s
  /\ (forall tap, m_waveformTap s = Some tap ->
        r.2 tap = RingBuffer.push r.1.1.1 r.1.1.2 (heap tap)).
Proof.
  intros Hp He Hlevel. cbn zeta. unfold getNextSample. rewrite Hp, He.
  destruct (ADSREnvelope_process (m_noteOn s) (m_sampleRate s) envelope)
    as [level envelope'].
  cbn [fst] in Hlevel. rewrite Hlevel. unfold applyEffects.
  cbn [m_effects set_m_envelope].
  destruct (applyEffects_chain (zero, zero) (m_effects s)) as [out chain].
  cbn [fst snd m_effects m_primaryPhase m_secondaryPhase m_lfoPhase m_waveformTap
       set_m_effects set_m_envelope].
  repeat split. intros tap ->. apply fn_lookup_alter.
Qed.

End WithHost.

Lemma getNextSample_silent_witness :
  let r := @getNextSample demo_libm demo_tanh demo_envelope demo_random
             demo_envelope_process demo_wave (fun _ => RingBuffer.construct 4)
             demo_engine in
  r.1.1 = (zero, zero) /\ m_primaryPhase r.1.2 = zero.
Proof.
  destruct (@getNextSample_silent demo_libm demo_tanh demo_envelope demo_random
              demo_envelope_process demo_wave (fun _ => RingBuffer.construct 4)
              demo_engine SquareWave false)
    as (Hout & _ & Hphase & _).
  - reflexivity.
  - reflexivity.
  - reflexivity.
  - split; [exact Hout | exact Hphase].
Defined.

End RenderSpec.

(** ** The MIDI adapter and the engine invariants *)
Module MidiExtra.
Import F32 Cmath Host Engine Midi F32Facts EngineExtra.

#[local] Arguments F32.of_int : simpl never.

Section WithHost.
Context {libm : LibM} {tanh_impl : LibMTanh} {envelope_impl : EnvelopeImpl}
  {random_impl : RandomImpl} {envelope_process : EnvelopeProcessImpl}
  {wave_impl : WaveImpl} {octave_defaults : OctaveDefaults} {table : NoteTable}.



End WithHost.
End MidiExtra.
